(** * Polarize front-end

    A shallow embedding of the client-side logic of the Polarize training
    application: the API client ([lib/api.ts]), the auth session holder
    ([lib/auth-context.tsx]), the mutation handlers of the pages, the upload
    form, the dashboard's training-status classifier, the zone previews of
    the settings page and the streaming chat reader.

    JavaScript strings that the code only stores, compares and concatenates
    are [string]; numbers are IEEE-754 binary64 values ([spec_float] with
    [prec = 53], [emax = 1024]); asynchronous code is written in a state and
    exception monad over the state the browser tab holds. *)

From Stdlib Require Import ZArith QArith List String Ascii Strings.Byte Bool Lia
  SpecFloat DecimalString.
From stdpp Require Import base gmap strings list.

Local Open Scope Z_scope.

(** ** JavaScript values the client code relies on *)

Module JS.

(** A binary64 number. *)
Definition number := spec_float.

(** [ToBoolean] of a value of type [string | null]: [null] and the empty
    string are falsy. *)
Definition truthy (v : option string) : bool :=
  match v with
  | None => false
  | Some EmptyString => false
  | Some (String _ _) => true
  end.

(** [ToString] of a value of type [string | null | undefined], as a template
    literal or [localStorage.setItem] applies it; the second argument names
    the missing value. *)
Definition to_string (missing : string) (v : option string) : string :=
  match v with
  | None => missing
  | Some s => s
  end.

End JS.


(** ** Text: DOMStrings as sequences of UTF-16 code units *)

Module Text.

Definition text := list Z.

(** The code units of a literal of the source (Basic Latin only). *)
Definition lit (s : string) : text :=
  map (λ b, Z.of_N (Byte.to_N b)) (list_byte_of_string s).

Definition code (c : ascii) : Z := Z.of_N (N_of_ascii c).

Definition eqb (a b : text) : bool := bool_decide (a = b).

(** [s.startsWith(prefix)] *)
Fixpoint startsWith (s prefix : text) : bool :=
  match prefix, s with
  | [], _ => true
  | p :: prefix', c :: s' => (c =? p) && startsWith s' prefix'
  | _ :: _, [] => false
  end.

(** [s.endsWith(suffix)] *)
Definition endsWith (s suffix : text) : bool :=
  startsWith (rev s) (rev suffix).

(** [s.slice(n)] for [n >= 0] *)
Definition slice (n : nat) (s : text) : text := drop n s.

(** [s.split(sep)] for a separator of one code unit: always at least one
    piece. *)
Fixpoint split (sep : Z) (s : text) : list text :=
  match s with
  | [] => [[]]
  | c :: rest =>
      if c =? sep then [] :: split sep rest
      else match split sep rest with
           | piece :: pieces => (c :: piece) :: pieces
           | [] => [[c]]
           end
  end.

(** The code units of a Unicode scalar value. *)
Definition units (cp : Z) : text :=
  if cp <? 0x10000 then [cp]
  else [0xD800 + Z.shiftr (cp - 0x10000) 10; 0xDC00 + Z.land (cp - 0x10000) 0x3FF].

End Text.

(** ** [TextDecoder]: the UTF-8 decoder of the Encoding Standard *)

Module Utf8.

Record decoder := {
  code_point : Z;
  bytes_seen : Z;
  bytes_needed : Z;
  lower_boundary : Z;
  upper_boundary : Z }.

Definition initial : decoder :=
  {| code_point := 0; bytes_seen := 0; bytes_needed := 0;
     lower_boundary := 0x80; upper_boundary := 0xBF |}.

Definition replacement : Z := 0xFFFD.

(** The handler when no byte of a sequence is pending: the new state and
    the code points emitted (errors emit U+FFFD). *)
Definition lead (b : Z) : decoder * list Z :=
  if b <=? 0x7F then (initial, [b])
  else if (0xC2 <=? b) && (b <=? 0xDF) then
    ({| code_point := Z.land b 0x1F; bytes_seen := 0; bytes_needed := 1;
        lower_boundary := 0x80; upper_boundary := 0xBF |}, [])
  else if (0xE0 <=? b) && (b <=? 0xEF) then
    ({| code_point := Z.land b 0xF; bytes_seen := 0; bytes_needed := 2;
        lower_boundary := if b =? 0xE0 then 0xA0 else 0x80;
        upper_boundary := if b =? 0xED then 0x9F else 0xBF |}, [])
  else if (0xF0 <=? b) && (b <=? 0xF4) then
    ({| code_point := Z.land b 0x7; bytes_seen := 0; bytes_needed := 3;
        lower_boundary := if b =? 0xF0 then 0x90 else 0x80;
        upper_boundary := if b =? 0xF4 then 0x8F else 0xBF |}, [])
  else (initial, [replacement]).

(** The handler on one byte. A byte outside the expected range ends the
    pending sequence with an error and is then handled afresh. *)
Definition handler (d : decoder) (b : Z) : decoder * list Z :=
  if bytes_needed d =? 0 then lead b
  else if negb ((lower_boundary d <=? b) && (b <=? upper_boundary d)) then
    let '(d', out) := lead b in (d', replacement :: out)
  else
    let cp := Z.lor (Z.shiftl (code_point d) 6) (Z.land b 0x3F) in
    if bytes_seen d + 1 =? bytes_needed d then (initial, [cp])
    else ({| code_point := cp; bytes_seen := bytes_seen d + 1;
             bytes_needed := bytes_needed d;
             lower_boundary := 0x80; upper_boundary := 0xBF |}, []).

(** Running the handler over the bytes of the queue. *)
Fixpoint process (d : decoder) (bytes : list Z) : decoder * list Z :=
  match bytes with
  | [] => (d, [])
  | b :: rest =>
      let '(d1, out1) := handler d b in
      let '(d2, out2) := process d1 rest in
      (d2, out1 ++ out2)
  end.

(** End of queue: a pending sequence is an error. *)
Definition flush (d : decoder) : list Z :=
  if bytes_needed d =? 0 then [] else [replacement].

(** Serializing the output: a leading U+FEFF is dropped ([ignoreBOM] is
    false by default). *)
Definition strip_bom (cps : list Z) : list Z :=
  match cps with
  | cp :: rest => if cp =? 0xFEFF then rest else cps
  | [] => []
  end.

Definition bytes_of (value : list byte) : list Z :=
  map (λ b, Z.of_N (Byte.to_N b)) value.

(** [new TextDecoder().decode(value)] without the [stream] option: the
    decoder starts afresh on every call and is flushed at the end of
    [value]. *)
Definition decode (value : list byte) : Text.text :=
  let '(d, out) := process initial (bytes_of value) in
  flat_map Text.units (strip_bom (out ++ flush d)).

End Utf8.

(** ** [JSON.parse] *)

Module JSON.
Import Text.

(** A parsed value. A number keeps the decimal it was written as:
    [Number neg d e] is [(-1)^neg * d * 10^e]. *)
#[warnings="-register-all"]
Inductive value :=
| Null
| Bool (b : bool)
| Number (negative : bool) (digits : Z) (exp10 : Z)
| Str (s : text)
| Array (items : list value)
| Object (members : list (text * value)).

Definition quote : Z := 34.
Definition backslash : Z := 92.

(** A literal of JSON text written with apostrophes for the quotation
    marks. *)
Definition quoted (s : string) : text :=
  map (λ c, if c =? 39 then quote else c) (lit s).

Definition is_ws (c : Z) : bool :=
  (c =? 0x20) || (c =? 0x09) || (c =? 0x0A) || (c =? 0x0D).

Fixpoint skip_ws (s : text) : text :=
  match s with
  | c :: rest => if is_ws c then skip_ws rest else s
  | [] => []
  end.

Definition digit (c : Z) : option Z :=
  if (48 <=? c) && (c <=? 57) then Some (c - 48) else None.

Definition hex_digit (c : Z) : option Z :=
  if (48 <=? c) && (c <=? 57) then Some (c - 48)
  else if (65 <=? c) && (c <=? 70) then Some (c - 55)
  else if (97 <=? c) && (c <=? 102) then Some (c - 87)
  else None.

(** A maximal run of decimal digits: the accumulated value, how many digits
    were read, and the rest of the input. *)
Fixpoint digits_run (acc count : Z) (s : text) : Z * Z * text :=
  match s with
  | c :: rest =>
      match digit c with
      | Some d => digits_run (10 * acc + d) (count + 1) rest
      | None => (acc, count, s)
      end
  | [] => (acc, count, [])
  end.

Definition parse_int (s : text) : option (Z * text) :=
  match s with
  | c :: rest =>
      match digit c with
      | Some d =>
          if d =? 0 then Some (0, rest)
          else let '(n, _, rest') := digits_run d 1 rest in Some (n, rest')
      | None => None
      end
  | [] => None
  end.

Definition parse_frac (int : Z) (s : text) : option (Z * Z * text) :=
  match s with
  | c :: rest =>
      if c =? code "." then
        let '(n, count, rest') := digits_run int 0 rest in
        if count =? 0 then None else Some (n, count, rest')
      else Some (int, 0, s)
  | [] => Some (int, 0, [])
  end.

Definition parse_exp (s : text) : option (Z * text) :=
  match s with
  | c :: rest =>
      if (c =? code "e") || (c =? code "E") then
        let '(neg, rest1) :=
          match rest with
          | sg :: rest1 =>
              if sg =? code "-" then (true, rest1)
              else if sg =? code "+" then (false, rest1)
              else (false, rest)
          | [] => (false, rest)
          end in
        let '(n, count, rest2) := digits_run 0 0 rest1 in
        if count =? 0 then None else Some (if neg then - n else n, rest2)
      else Some (0, s)
  | [] => Some (0, [])
  end.

Definition parse_number (s : text) : option (value * text) :=
  let '(neg, s1) :=
    match s with
    | c :: rest => if c =? code "-" then (true, rest) else (false, s)
    | [] => (false, s)
    end in
  match parse_int s1 with
  | None => None
  | Some (int, s2) =>
      match parse_frac int s2 with
      | None => None
      | Some (n, count, s3) =>
          match parse_exp s3 with
          | None => None
          | Some (e, s4) => Some (Number neg n (e - count), s4)
          end
      end
  end.

(** The characters of a string after its opening quotation mark, up to and
    including the closing one. *)
Fixpoint string_body (s : text) : option (text * text) :=
  let cons (c : Z) (r : option (text * text)) :=
    match r with
    | Some (str, rest) => Some (c :: str, rest)
    | None => None
    end in
  match s with
  | [] => None
  | c :: rest =>
      if c =? quote then Some ([], rest)
      else if c =? backslash then
        match rest with
        | [] => None
        | e :: rest1 =>
            if e =? quote then cons quote (string_body rest1)
            else if e =? backslash then cons backslash (string_body rest1)
            else if e =? code "/" then cons (code "/") (string_body rest1)
            else if e =? code "b" then cons 0x08 (string_body rest1)
            else if e =? code "f" then cons 0x0C (string_body rest1)
            else if e =? code "n" then cons 0x0A (string_body rest1)
            else if e =? code "r" then cons 0x0D (string_body rest1)
            else if e =? code "t" then cons 0x09 (string_body rest1)
            else if e =? code "u" then
              match rest1 with
              | h1 :: h2 :: h3 :: h4 :: rest2 =>
                  match hex_digit h1, hex_digit h2, hex_digit h3, hex_digit h4 with
                  | Some a, Some b, Some c', Some d =>
                      cons (((a * 16 + b) * 16 + c') * 16 + d) (string_body rest2)
                  | _, _, _, _ => None
                  end
              | _ => None
              end
            else None
        end
      else if c <? 0x20 then None
      else cons c (string_body rest)
  end.

(** Values, array elements and object members. Every call consumes input
    at least every second step, so fuel [2 * length s + 2] is never
    exhausted on [s]. *)
Fixpoint parse_value (fuel : nat) (s : text) : option (value * text) :=
  match fuel with
  | O => None
  | S fuel =>
      match skip_ws s with
      | [] => None
      | c :: rest =>
          if c =? code "{" then
            match skip_ws rest with
            | c' :: rest' =>
                if c' =? code "}" then Some (Object [], rest')
                else match parse_members fuel rest with
                     | Some (ms, r) => Some (Object ms, r)
                     | None => None
                     end
            | [] => None
            end
          else if c =? code "[" then
            match skip_ws rest with
            | c' :: rest' =>
                if c' =? code "]" then Some (Array [], rest')
                else match parse_elements fuel rest with
                     | Some (vs, r) => Some (Array vs, r)
                     | None => None
                     end
            | [] => None
            end
          else if c =? quote then
            match string_body rest with
            | Some (str, r) => Some (Str str, r)
            | None => None
            end
          else if startsWith (c :: rest) (lit "true") then Some (Bool true, drop 4 (c :: rest))
          else if startsWith (c :: rest) (lit "false") then Some (Bool false, drop 5 (c :: rest))
          else if startsWith (c :: rest) (lit "null") then Some (Null, drop 4 (c :: rest))
          else parse_number (c :: rest)
      end
  end
with parse_elements (fuel : nat) (s : text) : option (list value * text) :=
  match fuel with
  | O => None
  | S fuel =>
      match parse_value fuel s with
      | None => None
      | Some (v, r) =>
          match skip_ws r with
          | c :: r' =>
              if c =? code "," then
                match parse_elements fuel r' with
                | Some (vs, r'') => Some (v :: vs, r'')
                | None => None
                end
              else if c =? code "]" then Some ([v], r')
              else None
          | [] => None
          end
      end
  end
with parse_members (fuel : nat) (s : text) : option (list (text * value) * text) :=
  match fuel with
  | O => None
  | S fuel =>
      match skip_ws s with
      | c :: r =>
          if c =? quote then
            match string_body r with
            | Some (key, r1) =>
                match skip_ws r1 with
                | c1 :: r2 =>
                    if c1 =? code ":" then
                      match parse_value fuel r2 with
                      | Some (v, r3) =>
                          match skip_ws r3 with
                          | c3 :: r4 =>
                              if c3 =? code "," then
                                match parse_members fuel r4 with
                                | Some (ms, r5) => Some ((key, v) :: ms, r5)
                                | None => None
                                end
                              else if c3 =? code "}" then Some ([(key, v)], r4)
                              else None
                          | [] => None
                          end
                      | None => None
                      end
                    else None
                | [] => None
                end
            | None => None
            end
          else None
      | [] => None
      end
  end.

(** [JSON.parse(s)]: [None] stands for the [SyntaxError] it throws. *)
Definition parse (s : text) : option value :=
  match parse_value (2 * length s + 2) s with
  | Some (v, rest) =>
      match skip_ws rest with
      | [] => Some v
      | _ :: _ => None
      end
  | None => None
  end.

(** The own property [key] of a parsed object: the last member of that
    name. *)
Fixpoint own (key : text) (members : list (text * value)) : option value :=
  match members with
  | [] => None
  | (k, v) :: rest =>
      match own key rest with
      | Some v' => Some v'
      | None => if eqb k key then Some v else None
      end
  end.

(** [data.text]: [None] stands for the [TypeError] that reading a property
    of [null] throws, [Some None] for [undefined]. Arrays, strings, numbers
    and booleans look the name up in their prototypes, none of which defines
    it. *)
Definition text_of (data : value) : option (option value) :=
  match data with
  | Null => None
  | Object members => Some (own (lit "text") members)
  | _ => Some None
  end.

(** Is the binary64 value nearest to [d * 10^e] zero, for [d >= 0]? It is
    when the decimal is at most half the least subnormal, [2^-1075]. *)
Definition rounds_to_zero (d e : Z) : bool :=
  (d =? 0) || ((e <? 0) && (d * 2 ^ 1075 <=? 10 ^ (- e))).

(** [ToBoolean] *)
Definition truthy (v : value) : bool :=
  match v with
  | Null => false
  | Bool b => b
  | Number _ d e => negb (rounds_to_zero d e)
  | Str s => negb (eqb s [])
  | Array _ => true
  | Object _ => true
  end.

End JSON.

(** ** Numbers: binary64 arithmetic *)

Module Number.

Definition prec : Z := 53.
Definition emax : Z := 1024.

Definition number := spec_float.

Definition NaN : number := S754_nan.

(** The Number value of a mathematical integer. *)
Definition of_Z (z : Z) : number := binary_normalize prec emax z 0 false.

(** The Number value of a decimal literal [num/den], e.g. [1.1] as
    [decimal 11 10]: the quotient of two integers is rounded once, to the
    nearest binary64 value. *)
Definition decimal (num den : Z) : number :=
  SFdiv prec emax (of_Z num) (of_Z den).

Definition mul : number -> number -> number := SFmul prec emax.
Definition add : number -> number -> number := SFadd prec emax.
Definition neg : number -> number := SFopp.

(** [x < y] and [x > y]: false when either is NaN. *)
Definition ltb (x y : number) : bool := SFltb x y.
Definition gtb (x y : number) : bool := SFltb y x.

(** [ToBoolean]: zeros and NaN are falsy. *)
Definition truthy (x : number) : bool :=
  match x with
  | S754_zero _ | S754_nan => false
  | _ => true
  end.

(** [x || 0] for [x : number | undefined]. *)
Definition or_zero (x : option number) : number :=
  match x with
  | Some v => if truthy v then v else of_Z 0
  | None => of_Z 0
  end.

(** [Math.round(x)]: the integer nearest to [x], ties towards +∞; a zero
    result keeps the sign of [x]. With [x = ±m·2^e] and [e < 0] the result
    is [floor ((±2m + 2^-e) / 2^(1-e))]; with [e >= 0], [x] is an integer
    already. *)
Definition round (x : number) : number :=
  match x with
  | S754_finite s m e =>
      if 0 <=? e then x
      else
        let n := (2 * (if s then Z.neg m else Z.pos m) + 2 ^ (- e)) / 2 ^ (1 - e) in
        if n =? 0 then S754_zero s else of_Z n
  | _ => x
  end.

(** *** [parseInt(string)] with no radix *)

Fixpoint trim_start (s : string) : string :=
  match s with
  | String c rest => if Ascii.is_space c then trim_start rest else s
  | EmptyString => EmptyString
  end.

Definition digit_value (radix : Z) (c : ascii) : option Z :=
  let n := Z.of_N (N_of_ascii c) in
  let v := if (48 <=? n) && (n <=? 57) then n - 48
           else if (97 <=? n) && (n <=? 122) then n - 87
           else if (65 <=? n) && (n <=? 90) then n - 55
           else radix in
  if v <? radix then Some v else None.

(** The value of the longest prefix of digits, [None] when it is empty. *)
Fixpoint digits (radix : Z) (acc : option Z) (s : string) : option Z :=
  match s with
  | String c rest =>
      match digit_value radix c with
      | Some d => digits radix (Some (radix * default 0 acc + d)) rest
      | None => acc
      end
  | EmptyString => acc
  end.

Definition parseInt (s : string) : number :=
  let s := trim_start s in
  let '(negative, s) :=
    match s with
    | String "-" rest => (true, rest)
    | String "+" rest => (false, rest)
    | _ => (false, s)
    end in
  let '(radix, s) :=
    match s with
    | String "0" (String "x" rest) | String "0" (String "X" rest) => (16, rest)
    | _ => (10, s)
    end in
  match digits radix None s with
  | None => NaN
  | Some 0 => S754_zero negative
  | Some n => of_Z (if negative then - n else n)
  end.

(** The literals of the pages. *)
Definition c_0_5 : number := Eval vm_compute in decimal 5 10.
Definition c_0_55 : number := Eval vm_compute in decimal 55 100.
Definition c_0_75 : number := Eval vm_compute in decimal 75 100.
Definition c_1_1 : number := Eval vm_compute in decimal 11 10.
Definition c_1_2 : number := Eval vm_compute in decimal 12 10.
Definition c_1_5 : number := Eval vm_compute in decimal 15 10.

End Number.
(** ** Records of [types/index.ts] *)

Inductive coach_type := specialist | generalist | recreational.
Inductive training_plan := polarized | traditional | threshold.
Inductive time_constraint := minimal | moderate | committed | serious | elite.

Record CoachSettings := {
  cs_coach_type : coach_type;
  cs_training_plan : training_plan;
  cs_time_constraint : time_constraint;
  cs_weekly_hours_available : option JS.number }.

Record ThresholdValues := {
  threshold_hr : option JS.number;
  max_hr : option JS.number;
  resting_hr : option JS.number;
  threshold_power : option JS.number;
  running_threshold_power : option JS.number;
  critical_power : option JS.number }.

(** [User]; [thresholds] is not declared by the interface but is read by the
    zones tab of the settings page ([user?.thresholds?.threshold_hr]). *)
Record User := {
  user_id : string;
  user_email : string;
  user_name : string;
  user_primary_sport : string;
  user_coach_settings : option CoachSettings;
  user_thresholds : option ThresholdValues }.

(** ** The browser tab: storage, network, router, query cache *)

Inductive Method := GET | POST | PUT | DELETE.

(** A value placed in a request body or in query parameters. *)
Inductive Arg :=
| AStr (s : string)
| ANum (n : Z)
| ABool (b : bool)
| AJson (fields : list (string * string))
| AList (items : list (list (string * string)))
| AUndefined.

Inductive Body :=
| NoBody
| JsonBody (fields : list (string * Arg))
| FormData (file_name : Text.text).

Record Request := {
  req_method : Method;
  req_url : string;
  req_params : list (string * Arg);
  req_headers : gmap string string;
  req_body : Body }.

(** What a response carries once parsed. *)
(** [PlanModificationResponse], of which the client reads [raw_response]
    when it applies or refines a plan. *)
Record PlanModificationResponse := {
  raw_response : list (string * string) }.

(** An upload result: [duplicates], [id], and [activity] with its [id]
    ([None] where the field is missing). *)
Record Uploaded := {
  up_duplicates : bool;
  up_id : option string;
  up_activity : option (option string) }.

Inductive Data :=
| DToken (access_token : string)
| DUser (u : User)
| DUploaded (u : Uploaded)
| DPlan (p : PlanModificationResponse)
| DOther.

(** The body of a streamed response: the chunks [reader.read()] yields, then
    either completion or a transport failure. *)
Record Stream := {
  stream_chunks : list (list byte);
  stream_fails : bool }.

Record Response := {
  resp_status : Z;
  resp_data : Data;
  resp_body : option Stream }.

Inductive Error :=
| AxiosError (status : option Z)
| FetchFailed
| ReadFailed
| SyntaxError
| TypeError
| ThrownError (message : string).

(** A cached query of the react-query client. *)
Record Query := {
  query_data : Data;
  query_invalidated : bool }.

Inductive UploadKind := upload_success | upload_duplicate | upload_error.

Record UploadResult := {
  ur_type : UploadKind;
  ur_message : string;
  ur_activityId : option string }.

Record World := {
  localStorage : gmap string string;
  sent : list Request;
  pushed : list string;
  alerts : list string;
  timers : list (Z * string);
  cache : gmap (list string) Query;
  (* AuthProvider *)
  user : option Data;
  loading : bool;
  (* ActivityDetailPage *)
  isDeleting : bool;
  (* UploadPage *)
  uploadResult : option UploadResult;
  (* PlanModifier *)
  suggestions : option PlanModificationResponse;
  feedback : string;
  goals : string;
  (* what a recording [onChunk] callback was called with *)
  received : list JSON.value }.

Definition set_localStorage (f : gmap string string -> gmap string string) (w : World) : World :=
  {| localStorage := f (localStorage w); sent := sent w; pushed := pushed w;
     alerts := alerts w; timers := timers w; cache := cache w; user := user w;
     loading := loading w; isDeleting := isDeleting w;
     uploadResult := uploadResult w; suggestions := suggestions w;
     feedback := feedback w; goals := goals w; received := received w |}.

Definition set_sent (f : list Request -> list Request) (w : World) : World :=
  {| localStorage := localStorage w; sent := f (sent w); pushed := pushed w;
     alerts := alerts w; timers := timers w; cache := cache w; user := user w;
     loading := loading w; isDeleting := isDeleting w;
     uploadResult := uploadResult w; suggestions := suggestions w;
     feedback := feedback w; goals := goals w; received := received w |}.

Definition set_pushed (f : list string -> list string) (w : World) : World :=
  {| localStorage := localStorage w; sent := sent w; pushed := f (pushed w);
     alerts := alerts w; timers := timers w; cache := cache w; user := user w;
     loading := loading w; isDeleting := isDeleting w;
     uploadResult := uploadResult w; suggestions := suggestions w;
     feedback := feedback w; goals := goals w; received := received w |}.

Definition set_alerts (f : list string -> list string) (w : World) : World :=
  {| localStorage := localStorage w; sent := sent w; pushed := pushed w;
     alerts := f (alerts w); timers := timers w; cache := cache w; user := user w;
     loading := loading w; isDeleting := isDeleting w;
     uploadResult := uploadResult w; suggestions := suggestions w;
     feedback := feedback w; goals := goals w; received := received w |}.

Definition set_timers (f : list (Z * string) -> list (Z * string)) (w : World) : World :=
  {| localStorage := localStorage w; sent := sent w; pushed := pushed w;
     alerts := alerts w; timers := f (timers w); cache := cache w; user := user w;
     loading := loading w; isDeleting := isDeleting w;
     uploadResult := uploadResult w; suggestions := suggestions w;
     feedback := feedback w; goals := goals w; received := received w |}.

Definition set_cache (f : gmap (list string) Query -> gmap (list string) Query) (w : World) : World :=
  {| localStorage := localStorage w; sent := sent w; pushed := pushed w;
     alerts := alerts w; timers := timers w; cache := f (cache w); user := user w;
     loading := loading w; isDeleting := isDeleting w;
     uploadResult := uploadResult w; suggestions := suggestions w;
     feedback := feedback w; goals := goals w; received := received w |}.

Definition set_user (v : option Data) (w : World) : World :=
  {| localStorage := localStorage w; sent := sent w; pushed := pushed w;
     alerts := alerts w; timers := timers w; cache := cache w; user := v;
     loading := loading w; isDeleting := isDeleting w;
     uploadResult := uploadResult w; suggestions := suggestions w;
     feedback := feedback w; goals := goals w; received := received w |}.

Definition set_loading (v : bool) (w : World) : World :=
  {| localStorage := localStorage w; sent := sent w; pushed := pushed w;
     alerts := alerts w; timers := timers w; cache := cache w; user := user w;
     loading := v; isDeleting := isDeleting w; uploadResult := uploadResult w;
     suggestions := suggestions w; feedback := feedback w; goals := goals w;
     received := received w |}.

Definition set_isDeleting (v : bool) (w : World) : World :=
  {| localStorage := localStorage w; sent := sent w; pushed := pushed w;
     alerts := alerts w; timers := timers w; cache := cache w; user := user w;
     loading := loading w; isDeleting := v; uploadResult := uploadResult w;
     suggestions := suggestions w; feedback := feedback w; goals := goals w;
     received := received w |}.

Definition set_uploadResult (v : option UploadResult) (w : World) : World :=
  {| localStorage := localStorage w; sent := sent w; pushed := pushed w;
     alerts := alerts w; timers := timers w; cache := cache w; user := user w;
     loading := loading w; isDeleting := isDeleting w; uploadResult := v;
     suggestions := suggestions w; feedback := feedback w; goals := goals w;
     received := received w |}.

Definition set_suggestions (v : option PlanModificationResponse) (w : World) : World :=
  {| localStorage := localStorage w; sent := sent w; pushed := pushed w;
     alerts := alerts w; timers := timers w; cache := cache w; user := user w;
     loading := loading w; isDeleting := isDeleting w;
     uploadResult := uploadResult w; suggestions := v; feedback := feedback w;
     goals := goals w; received := received w |}.

Definition set_feedback (v : string) (w : World) : World :=
  {| localStorage := localStorage w; sent := sent w; pushed := pushed w;
     alerts := alerts w; timers := timers w; cache := cache w; user := user w;
     loading := loading w; isDeleting := isDeleting w;
     uploadResult := uploadResult w; suggestions := suggestions w; feedback := v;
     goals := goals w; received := received w |}.

Definition set_goals (v : string) (w : World) : World :=
  {| localStorage := localStorage w; sent := sent w; pushed := pushed w;
     alerts := alerts w; timers := timers w; cache := cache w; user := user w;
     loading := loading w; isDeleting := isDeleting w;
     uploadResult := uploadResult w; suggestions := suggestions w;
     feedback := feedback w; goals := v; received := received w |}.

Definition set_received (f : list JSON.value -> list JSON.value) (w : World) : World :=
  {| localStorage := localStorage w; sent := sent w; pushed := pushed w;
     alerts := alerts w; timers := timers w; cache := cache w; user := user w;
     loading := loading w; isDeleting := isDeleting w;
     uploadResult := uploadResult w; suggestions := suggestions w;
     feedback := feedback w; goals := goals w; received := f (received w) |}.

(** The tab when the application starts with the given storage. *)
Definition fresh (storage : gmap string string) : World :=
  {| localStorage := storage; sent := []; pushed := []; alerts := []; timers := [];
     cache := ∅; user := None; loading := true; isDeleting := false;
     uploadResult := None; suggestions := None; feedback := ""; goals := "";
     received := [] |}.

(** ** Promises: a state and exception monad *)

Inductive Outcome (A : Type) :=
| Resolved (a : A)
| Rejected (e : Error).
Arguments Resolved {A} a.
Arguments Rejected {A} e.

Definition M (A : Type) : Type := World -> Outcome A * World.

#[global] Instance M_ret : MRet M := λ A a w, (Resolved a, w).

#[global] Instance M_bind : MBind M := λ A B f m w,
  match m w with
  | (Resolved a, w') => f a w'
  | (Rejected e, w') => (Rejected e, w')
  end.

Definition throw {A} (e : Error) : M A := λ w, (Rejected e, w).

(** [try { m } catch { h }] and [p.catch(h)]. *)
Definition catch {A} (m : M A) (h : Error -> M A) : M A := λ w,
  match m w with
  | (Resolved a, w') => (Resolved a, w')
  | (Rejected e, w') => h e w'
  end.

(** [p.finally(f)]: [f] runs on both paths and the outcome of [p] is kept
    (unless [f] itself throws). *)
Definition finally {A} (m : M A) (f : M unit) : M A := λ w,
  match m w with
  | (o, w') =>
      match f w' with
      | (Resolved _, w'') => (o, w'')
      | (Rejected e, w'') => (Rejected e, w'')
      end
  end.

Definition get {A} (proj : World -> A) : M A := λ w, (Resolved (proj w), w).
Definition modify (f : World -> World) : M unit := λ w, (Resolved tt, f w).

(** [localStorage], [router.push], [alert], [setTimeout] of a navigation. *)
Definition getItem (k : string) : M (option string) := get (λ w, localStorage w !! k).
Definition setItem (k v : string) : M unit := modify (set_localStorage <[k:=v]>).
Definition removeItem (k : string) : M unit := modify (set_localStorage (delete k)).
Definition router_push (path : string) : M unit := modify (set_pushed (λ l, l ++ [path])).
Definition alert (msg : string) : M unit := modify (set_alerts (λ l, l ++ [msg])).
Definition setTimeout_push (path : string) (delay : Z) : M unit :=
  modify (set_timers (λ l, l ++ [(delay, path)])).


(** [for (const x of l) body(x)] *)
Fixpoint for_of {A} (l : list A) (body : A -> M unit) : M unit :=
  match l with
  | [] => mret tt
  | x :: rest => body x;; for_of rest body
  end.

(** A callback that records what it is called with. *)
Definition record (t : JSON.value) : M unit :=
  modify (set_received (λ l, l ++ [t])).
(** ** The API client ([lib/api.ts]) *)

Module Api.
Section Client.

(** [process.env.NEXT_PUBLIC_API_URL] and the remote server: what it answers
    to a request, given the requests it has already received ([None] when
    the network fails). *)
Variable NEXT_PUBLIC_API_URL : option string.
Variable server : list Request -> Request -> option Response.

Definition API_BASE_URL : string :=
  if JS.truthy NEXT_PUBLIC_API_URL
  then JS.to_string "" NEXT_PUBLIC_API_URL
  else "http://localhost:8000".

Definition baseURL : string := API_BASE_URL +:+ "/api/v1".

Definition config (m : Method) (path : string) : Request :=
  {| req_method := m; req_url := path; req_params := []; req_headers := ∅;
     req_body := NoBody |}.

Definition with_params (p : list (string * Arg)) (c : Request) : Request :=
  {| req_method := req_method c; req_url := req_url c; req_params := p;
     req_headers := req_headers c; req_body := req_body c |}.

Definition with_body (b : Body) (c : Request) : Request :=
  {| req_method := req_method c; req_url := req_url c; req_params := req_params c;
     req_headers := req_headers c; req_body := b |}.

Definition with_header (k v : string) (c : Request) : Request :=
  {| req_method := req_method c; req_url := req_url c; req_params := req_params c;
     req_headers := <[k:=v]> (req_headers c); req_body := req_body c |}.

Definition with_url (u : string) (c : Request) : Request :=
  {| req_method := req_method c; req_url := u; req_params := req_params c;
     req_headers := req_headers c; req_body := req_body c |}.

(** [api.interceptors.request.use]: add the auth token to requests. *)
Definition interceptor (c : Request) : M Request :=
  token ← getItem "token";
  if JS.truthy token
  then mret (with_header "Authorization" ("Bearer " +:+ JS.to_string "null" token) c)
  else mret c.

(** The request leaves the tab and the server answers. *)
Definition transmit (r : Request) : M (option Response) := λ w,
  (Resolved (server (sent w) r), set_sent (λ l, l ++ [r]) w).

Definition is_2xx (status : Z) : bool := (200 <=? status) && (status <? 300).

(** A call on the axios instance [api]: interceptors, transport, and a
    rejection for anything but a 2xx status. *)
Definition request (c : Request) : M Data :=
  c ← interceptor c;
  reply ← transmit (with_url (baseURL +:+ req_url c) c);
  match reply with
  | None => throw (AxiosError None)
  | Some r =>
      if is_2xx (resp_status r) then mret (resp_data r)
      else throw (AxiosError (Some (resp_status r)))
  end.

Definition api_get (path : string) (params : list (string * Arg)) : M Data :=
  request (with_params params (config GET path)).
Definition api_post (path : string) (b : Body) : M Data :=
  request (with_body b (config POST path)).
Definition api_put (path : string) (b : Body) : M Data :=
  request (with_body b (config PUT path)).
Definition api_delete (path : string) : M Data :=
  request (config DELETE path).

(** [fetch]: no interceptor; rejects only when the network fails. *)
Definition fetch (r : Request) : M Response :=
  reply ← transmit r;
  match reply with
  | None => throw FetchFailed
  | Some resp => mret resp
  end.

(** *** Auth *)
Definition register (email password name primarySport : string) : M Data :=
  api_post "/auth/register"
    (JsonBody [("email", AStr email); ("password", AStr password);
               ("name", AStr name); ("primary_sport", AStr primarySport)]).

Definition login (email password : string) : M Data :=
  api_post "/auth/login" (JsonBody [("email", AStr email); ("password", AStr password)]).

Definition getMe : M Data := api_get "/auth/me" [].

(** *** Activities *)
Definition getActivities (params : list (string * Arg)) : M Data :=
  api_get "/activities" params.
Definition getActivity (id : string) : M Data := api_get ("/activities/" +:+ id) [].
Definition getActivityRecords (id : string) : M Data :=
  api_get ("/activities/" +:+ id +:+ "/records") [].

Definition uploadFitFile (file_name : Text.text) : M Data :=
  request (with_header "Content-Type" "multipart/form-data"
             (with_body (FormData file_name) (config POST "/activities/upload"))).

Definition deleteActivity (id : string) : M unit :=
  _ ← api_delete ("/activities/" +:+ id); mret tt.

Definition combineActivities (activityId1 activityId2 : string)
    (timeOffsetMs preferDataFrom : Z) : M Data :=
  api_post "/activities/combine"
    (JsonBody [("activity_id_1", AStr activityId1); ("activity_id_2", AStr activityId2);
               ("time_offset_ms", ANum timeOffsetMs);
               ("prefer_data_from", ANum preferDataFrom)]).

(** *** Metrics *)
Definition getMetricsRange (start end_ : string) : M Data :=
  api_get "/metrics/range" [("start", AStr start); ("end", AStr end_)].
Definition getPerformanceSnapshot : M Data := api_get "/metrics/snapshot" [].
Definition getWeeklySummaries (weeks : Z) : M Data :=
  api_get "/metrics/weekly" [("weeks", ANum weeks)].

(** *** Zones *)
Definition getHrMethods : M Data := api_get "/zones/hr/methods" [].
Definition getPowerMethods : M Data := api_get "/zones/power/methods" [].
Definition getHrZones : M Data := api_get "/zones/hr" [].
Definition getPowerZones : M Data := api_get "/zones/power" [].
Definition updateThresholds (thresholds : list (string * Arg)) : M Data :=
  api_put "/zones/thresholds" (JsonBody thresholds).
Definition updateZoneConfig (cfg : list (string * Arg)) : M Data :=
  api_put "/zones/config" (JsonBody cfg).

(** *** Workouts *)
Definition getWorkouts (params : list (string * Arg)) : M Data :=
  api_get "/workouts" params.
Definition createWorkout (workout : list (string * Arg)) : M Data :=
  api_post "/workouts" (JsonBody workout).
Definition updateWorkout (id : string) (updates : list (string * Arg)) : M Data :=
  api_put ("/workouts/" +:+ id) (JsonBody updates).
Definition deleteWorkout (id : string) : M unit :=
  _ ← api_delete ("/workouts/" +:+ id); mret tt.

(** *** AI coach *)
Definition chat (message : string) (history : list (list (string * string))) : M Data :=
  api_post "/ai/chat"
    (JsonBody [("message", AStr message); ("conversation_history", AList history)]).

(** One line of a decoded chunk. *)
Definition on_line (onChunk : JSON.value -> M unit) (line : Text.text) : M unit :=
  if Text.startsWith line (Text.lit "data: ")
     && negb (Text.eqb line (Text.lit "data: [DONE]"))
  then
    catch
      (match JSON.parse (Text.slice 6 line) with
       | None => throw SyntaxError
       | Some data =>
           match JSON.text_of data with
           | None => throw TypeError
           | Some None => mret tt
           | Some (Some t) => if JSON.truthy t then onChunk t else mret tt
           end
       end)
      (λ _, mret tt)
  else mret tt.

(** One value read from the body. *)
Definition on_value (onChunk : JSON.value -> M unit) (value : list byte) : M unit :=
  let chunk := Utf8.decode value in
  let lines := Text.split 10 chunk in
  for_of lines (on_line onChunk).

(** [while (reader) { ... }]: without a body there is no reader; otherwise
    every chunk is handled until the stream is done or reading fails. *)
Definition read_loop (onChunk : JSON.value -> M unit) (body : option Stream) : M unit :=
  match body with
  | None => mret tt
  | Some s =>
      for_of (stream_chunks s) (on_value onChunk);;
      if stream_fails s then throw ReadFailed else mret tt
  end.

Definition chatStream (message : string) (history : list (list (string * string)))
    (onChunk : JSON.value -> M unit) : M unit :=
  token ← getItem "token";
  response ← fetch
    {| req_method := POST;
       req_url := API_BASE_URL +:+ "/api/v1/ai/chat/stream";
       req_params := [];
       req_headers :=
         <["Authorization" := "Bearer " +:+ JS.to_string "null" token]>
           {["Content-Type" := "application/json"]};
       req_body := JsonBody [("message", AStr message);
                             ("conversation_history", AList history)] |};
  read_loop onChunk (resp_body response).

Definition getCoachingContext : M Data := api_get "/ai/context" [].

Definition analyzePlan (feedback : string) (daysForward : Z)
    (previousSuggestions : Arg) : M Data :=
  api_post "/ai/plan/analyze"
    (JsonBody [("feedback", AStr feedback); ("days_forward", ANum daysForward);
               ("previous_suggestions", previousSuggestions)]).

Definition generateWeeklyPlan (goals : string) (constraints startDate : Arg) : M Data :=
  api_post "/ai/plan/generate"
    (JsonBody [("goals", AStr goals); ("constraints", constraints);
               ("start_date", startDate)]).

Definition applyPlanModifications (responseJson : list (string * string))
    (dryRun : bool) : M Data :=
  api_post "/ai/plan/apply"
    (JsonBody [("response_json", AJson responseJson); ("dry_run", ABool dryRun)]).

Definition refinePlanSuggestions (originalResponse : list (string * string))
    (refinementFeedback : string) : M Data :=
  api_post "/ai/plan/refine"
    (JsonBody [("original_response", AJson originalResponse);
               ("refinement_feedback", AStr refinementFeedback)]).

Definition getWorkoutFitUrl (workoutId : string) : M string :=
  token ← getItem "token";
  mret (API_BASE_URL +:+ "/api/v1/ai/workout/" +:+ workoutId +:+ "/fit?token="
          +:+ JS.to_string "null" token).

Definition getCoachSettings : M Data := api_get "/ai/settings" [].
Definition updateCoachSettings (settings : list (string * Arg)) : M Data :=
  api_put "/ai/settings" (JsonBody settings).

(** *** Integrations *)
Definition getGarminConnectUrl : M Data := api_get "/integrations/garmin/connect" [].
Definition getConcept2ConnectUrl : M Data := api_get "/integrations/concept2/connect" [].
Definition syncGarmin : M Data := api_post "/integrations/garmin/sync" NoBody.
Definition syncConcept2 : M Data := api_post "/integrations/concept2/sync" NoBody.
Definition disconnectGarmin : M Data := api_delete "/integrations/garmin/disconnect".
Definition disconnectConcept2 : M Data := api_delete "/integrations/concept2/disconnect".

End Client.
End Api.

(** ** The auth session holder ([lib/auth-context.tsx]) *)

Module Auth.
Section Provider.

Variable NEXT_PUBLIC_API_URL : option string.
Variable server : list Request -> Request -> option Response.

Definition setUser (u : Data) : M unit := modify (set_user (Some u)).
Definition setLoading (b : bool) : M unit := modify (set_loading b).

(** The effect [AuthProvider] runs once when it mounts. *)
Definition bootstrap : M unit :=
  token ← getItem "token";
  if JS.truthy token then
    finally
      (catch (Api.getMe NEXT_PUBLIC_API_URL server ≫= setUser)
             (λ _, removeItem "token"))
      (setLoading false)
  else setLoading false.

(** [const { access_token } = data]: [undefined] when the field is missing. *)
Definition access_token_of (d : Data) : option string :=
  match d with
  | DToken t => Some t
  | _ => None
  end.

Definition login (email password : string) : M unit :=
  d ← Api.login NEXT_PUBLIC_API_URL server email password;
  setItem "token" (JS.to_string "undefined" (access_token_of d));;
  userData ← Api.getMe NEXT_PUBLIC_API_URL server;
  setUser userData;;
  router_push "/dashboard".

Definition register (email password name primarySport : string) : M unit :=
  d ← Api.register NEXT_PUBLIC_API_URL server email password name primarySport;
  setItem "token" (JS.to_string "undefined" (access_token_of d));;
  userData ← Api.getMe NEXT_PUBLIC_API_URL server;
  setUser userData;;
  router_push "/dashboard".

Definition logout : M unit :=
  removeItem "token";;
  modify (set_user None);;
  router_push "/login".

End Provider.
End Auth.

(** ** The react-query client *)

Module QueryClient.

(** A query filter with [queryKey] matches every query whose key starts
    with it. *)
Definition matches (queryKey key : list string) : bool :=
  bool_decide (queryKey `prefix_of` key).

Definition invalidated (q : Query) : Query :=
  {| query_data := query_data q; query_invalidated := true |}.

(** [queryClient.invalidateQueries({ queryKey })] *)
Definition invalidateQueries (queryKey : list string) : M unit :=
  modify (set_cache
    (map_imap (λ key q, Some (if matches queryKey key then invalidated q else q)))).

(** [useMutation({ mutationFn, onSuccess, onError }).mutate(variables)]:
    [onSuccess] runs when [mutationFn] resolves, [onError] when either
    rejects; [mutate] itself never rejects. *)
Definition mutate {V A} (mutationFn : V -> M A) (onSuccess : A -> M unit)
    (onError : Error -> M unit) (variables : V) : M unit :=
  catch (catch (mutationFn variables ≫= onSuccess) onError) (λ _, mret tt).

Definition no_handler {A} (_ : A) : M unit := mret tt.

End QueryClient.

(** ** Mutations of the pages *)

Module Pages.
Section Pages.

Variable NEXT_PUBLIC_API_URL : option string.
Variable server : list Request -> Request -> option Response.

(** *** Activity detail page *)

(** [handleDelete]; [confirmed] is the answer to the [confirm] dialog. *)
Definition handleDelete (confirmed : bool) (activityId : string) : M unit :=
  if negb confirmed then mret tt
  else
    deleting ← get isDeleting;
    if deleting : bool then mret tt
    else
      modify (set_isDeleting true);;
      catch
        (Api.deleteActivity NEXT_PUBLIC_API_URL server activityId;;
         setTimeout_push "/activities" 100)
        (λ _, alert "Failed to delete activity. Please try again.";;
              modify (set_isDeleting false)).

(** *** Settings page *)

(** The mutation of [ThresholdsTab]. *)
Definition thresholds_mutation : list (string * Arg) -> M unit :=
  QueryClient.mutate
    (Api.updateThresholds NEXT_PUBLIC_API_URL server)
    (λ _, QueryClient.invalidateQueries ["hrZones"];;
          QueryClient.invalidateQueries ["powerZones"])
    QueryClient.no_handler.

(** The mutation of [CoachTab]. *)
Definition coach_mutation : list (string * Arg) -> M unit :=
  QueryClient.mutate
    (Api.updateCoachSettings NEXT_PUBLIC_API_URL server)
    (λ _, QueryClient.invalidateQueries ["coachSettings"])
    QueryClient.no_handler.

(** *** Plan modifier *)

Definition applyMutation : unit -> M unit :=
  QueryClient.mutate
    (λ _, s ← get suggestions;
          match s with
          | None => throw (ThrownError "No suggestions to apply")
          | Some s => Api.applyPlanModifications NEXT_PUBLIC_API_URL server
                        (raw_response s) false
          end)
    (λ _, QueryClient.invalidateQueries ["workouts"];;
          QueryClient.invalidateQueries ["coachingContext"];;
          modify (set_suggestions None);;
          modify (set_feedback "");;
          modify (set_goals ""))
    QueryClient.no_handler.

(** *** Upload page *)

(** [String.prototype.toLowerCase] and the [message] of an error are the
    platform's. *)
Variable toLowerCase : Text.text -> Text.text.
Variable message : Error -> string.

Record File := { file_name : Text.text }.

Definition setUploadResult (r : option UploadResult) : M unit :=
  modify (set_uploadResult r).

Definition upload_onSuccess (data : Data) : M unit :=
  match data with
  | DUploaded u =>
      if up_duplicates u then
        match up_activity u with
        | None => throw TypeError
        | Some id =>
            setUploadResult (Some
              {| ur_type := upload_duplicate;
                 ur_message := "Potential duplicate found. Activity saved but may overlap with existing data.";
                 ur_activityId := id |})
        end
      else
        setUploadResult (Some
          {| ur_type := upload_success;
             ur_message := "Activity uploaded successfully!";
             ur_activityId := up_id u |})
  | _ =>
      setUploadResult (Some
        {| ur_type := upload_success;
           ur_message := "Activity uploaded successfully!";
           ur_activityId := None |})
  end.

Definition upload_onError (error : Error) : M unit :=
  setUploadResult (Some
    {| ur_type := upload_error;
       ur_message := if JS.truthy (Some (message error)) then message error
                     else "Upload failed. Please try again.";
       ur_activityId := None |}).

Definition uploadMutation : File -> M unit :=
  QueryClient.mutate
    (λ file, Api.uploadFitFile NEXT_PUBLIC_API_URL server (file_name file))
    upload_onSuccess upload_onError.

Definition handleFile (file : File) : M unit :=
  if negb (Text.endsWith (toLowerCase (file_name file)) (Text.lit ".fit")) then
    setUploadResult (Some
      {| ur_type := upload_error;
         ur_message := "Only .FIT files are supported.";
         ur_activityId := None |})
  else
    setUploadResult None;;
    uploadMutation file.

(** [handleDrop] and [handleChange] hand over the first file, if any. *)
Definition handleFiles (files : list File) : M unit :=
  match files with
  | file :: _ => handleFile file
  | [] => mret tt
  end.

End Pages.

(** Lower case within Basic Latin; other code units are kept. *)
Definition ascii_toLowerCase (s : Text.text) : Text.text :=
  map (λ c, if (65 <=? c) && (c <=? 90) then c + 32 else c) s.

End Pages.

(** ** The dashboard: training status from the form (TSB) value *)

Module Dashboard.
Import Number.

Record Status := {
  text : string;
  color : string }.

Definition formStatus (tsb : number) : Status :=
  if ltb tsb (neg (of_Z 30)) then {| text := "Very Fatigued"; color := "red" |}
  else if ltb tsb (neg (of_Z 10)) then {| text := "Training Hard"; color := "yellow" |}
  else if ltb tsb (of_Z 5) then {| text := "Neutral"; color := "blue" |}
  else if ltb tsb (of_Z 15) then {| text := "Fresh"; color := "green" |}
  else {| text := "Very Fresh"; color := "green" |}.

End Dashboard.

(** ** The settings page: zone previews *)

Module Zones.
Import Number.

(** A displayed zone: its label and the two bounds of its range. *)
Record Row := {
  label : string;
  lower : number;
  upper : number }.

(** What a zones section shows: nothing at all, or a heart-rate block and a
    power block, each of which may be missing. *)
Record Shown := {
  hr : option (list Row);
  power : option (list Row) }.

(** *** The thresholds tab: a preview from the form fields *)

Record Form := {
  f_threshold_hr : string;
  f_max_hr : string;
  f_resting_hr : string;
  f_threshold_power : string;
  f_running_threshold_power : string;
  f_critical_power : string }.

Definition filled (field : string) : bool := JS.truthy (Some field).

Definition ThresholdsTab_preview (thresholds : Form) : option Shown :=
  let lthr := parseInt (f_threshold_hr thresholds) in
  let ftp := parseInt (f_threshold_power thresholds) in
  if filled (f_threshold_hr thresholds) || filled (f_max_hr thresholds)
     || filled (f_threshold_power thresholds)
  then Some
    {| hr :=
         if filled (f_threshold_hr thresholds) || filled (f_max_hr thresholds)
         then Some (
           (if filled (f_threshold_hr thresholds) then
              [ {| label := "Zone 1 - Recovery:";
                   lower := of_Z 0;
                   upper := round (mul lthr c_0_5) |};
                {| label := "Zone 2 - Endurance:";
                   lower := add (round (mul lthr c_0_5)) (of_Z 1);
                   upper := round (mul lthr c_0_75) |};
                {| label := "Zone 3 - Tempo:";
                   lower := add (round (mul lthr c_0_75)) (of_Z 1);
                   upper := lthr |};
                {| label := "Zone 4 - Threshold:";
                   lower := add lthr (of_Z 1);
                   upper := round (mul lthr c_1_1) |} ]
            else [])
           ++
           (if filled (f_max_hr thresholds) && filled (f_threshold_hr thresholds) then
              [ {| label := "Zone 5 - Max:";
                   lower := add (round (mul lthr c_1_1)) (of_Z 1);
                   upper := parseInt (f_max_hr thresholds) |} ]
            else []))
         else None;
       power :=
         if filled (f_threshold_power thresholds)
         then Some
           [ {| label := "Zone 1 - Active:";
                lower := of_Z 0;
                upper := round (mul ftp c_0_55) |};
             {| label := "Zone 2 - Endurance:";
                lower := add (round (mul ftp c_0_55)) (of_Z 1);
                upper := round (mul ftp c_0_75) |};
             {| label := "Zone 3 - Sweet Spot:";
                lower := add (round (mul ftp c_0_75)) (of_Z 1);
                upper := ftp |};
             {| label := "Zone 4 - VO2 Max:";
                lower := add ftp (of_Z 1);
                upper := round (mul ftp c_1_2) |};
             {| label := "Zone 5 - Anaerobic:";
                lower := add (round (mul ftp c_1_2)) (of_Z 1);
                upper := round (mul ftp c_1_5) |} ]
         else None |}
  else None.

(** *** The zones tab: the zones of the stored thresholds *)

(** [user?.thresholds?.<field> || 0] *)
Definition stored (user : option User) (field : ThresholdValues -> option number) : number :=
  or_zero
    match user with
    | Some u =>
        match user_thresholds u with
        | Some t => field t
        | None => None
        end
    | None => None
    end.

(** The upper bounds under the two gradients, a dash where the threshold is
    not positive. *)
Definition ZonesTab_hrZones (user : option User) : list (string * option number) :=
  let lthr := stored user threshold_hr in
  let maxHr := stored user max_hr in
  [ ("Recovery", if gtb lthr (of_Z 0) then Some (round (mul lthr c_0_5)) else None);
    ("Endurance", if gtb lthr (of_Z 0) then Some (round (mul lthr c_0_75)) else None);
    ("Tempo", if gtb lthr (of_Z 0) then Some lthr else None);
    ("Threshold", if gtb lthr (of_Z 0) then Some (round (mul lthr c_1_1)) else None);
    ("Max", if gtb maxHr (of_Z 0) then Some maxHr else None) ].

Definition ZonesTab_powerZones (user : option User) : list (string * option number) :=
  let ftp := stored user threshold_power in
  [ ("Active", if gtb ftp (of_Z 0) then Some (round (mul ftp c_0_55)) else None);
    ("Endurance", if gtb ftp (of_Z 0) then Some (round (mul ftp c_0_75)) else None);
    ("Sweet Spot", if gtb ftp (of_Z 0) then Some ftp else None);
    ("VO2 Max", if gtb ftp (of_Z 0) then Some (round (mul ftp c_1_2)) else None);
    ("Anaerobic", if gtb ftp (of_Z 0) then Some (round (mul ftp c_1_5)) else None) ].

(** The "Your Zones" summary. *)
Definition ZonesTab_summary (user : option User) : option Shown :=
  let lthr := stored user threshold_hr in
  let maxHr := stored user max_hr in
  let ftp := stored user threshold_power in
  if gtb lthr (of_Z 0) || gtb maxHr (of_Z 0)
  then Some
    {| hr :=
         if gtb lthr (of_Z 0) || gtb maxHr (of_Z 0)
         then Some
           [ {| label := "Zone 1 - Recovery:";
                lower := of_Z 0;
                upper := round (mul lthr c_0_5) |};
             {| label := "Zone 2 - Endurance:";
                lower := add (round (mul lthr c_0_5)) (of_Z 1);
                upper := round (mul lthr c_0_75) |};
             {| label := "Zone 3 - Tempo:";
                lower := add (round (mul lthr c_0_75)) (of_Z 1);
                upper := lthr |};
             {| label := "Zone 4 - Threshold:";
                lower := add lthr (of_Z 1);
                upper := round (mul lthr c_1_1) |};
             {| label := "Zone 5 - Max:";
                lower := add (round (mul lthr c_1_1)) (of_Z 1);
                upper := maxHr |} ]
         else None;
       power :=
         if gtb ftp (of_Z 0)
         then Some
           [ {| label := "Zone 1 - Active:";
                lower := of_Z 0;
                upper := round (mul ftp c_0_55) |};
             {| label := "Zone 2 - Endurance:";
                lower := add (round (mul ftp c_0_55)) (of_Z 1);
                upper := round (mul ftp c_0_75) |};
             {| label := "Zone 3 - Sweet Spot:";
                lower := add (round (mul ftp c_0_75)) (of_Z 1);
                upper := ftp |};
             {| label := "Zone 4 - VO2 Max:";
                lower := add ftp (of_Z 1);
                upper := round (mul ftp c_1_2) |};
             {| label := "Zone 5 - Anaerobic:";
                lower := add (round (mul ftp c_1_2)) (of_Z 1);
                upper := round (mul ftp c_1_5) |} ]
         else None |}
  else None.

End Zones.

(** ** The plan modifier ([components/PlanModifier.tsx]) *)

Module PlanModifier.

(** [toggleExpanded]: the new set of expanded cards, a copy of the old one
    with [index] taken out when it was in and put in when it was not. *)
Definition toggleExpanded (expandedMods : gset nat) (index : nat) : gset nat :=
  let newExpanded := expandedMods in
  if bool_decide (index ∈ newExpanded)
  then newExpanded ∖ {[index]}
  else newExpanded ∪ {[index]}.

End PlanModifier.

(** ** Numbers: division, remainder, rounding down, printing *)

Module Numeric.
Import Number.

(** [x / y] *)
Definition div : number -> number -> number := SFdiv prec emax.

(** [x % y]: the remainder of the truncating division, computed without
    rounding; it has the sign of the dividend. *)
Definition rem (n d : number) : number :=
  match n, d with
  | S754_nan, _ | _, S754_nan => NaN
  | S754_infinity _, _ => NaN
  | _, S754_infinity _ => n
  | _, S754_zero _ => NaN
  | S754_zero _, _ => n
  | S754_finite sn mn en, S754_finite _ md ed =>
      let e := Z.min en ed in
      let r := (Z.pos mn * 2 ^ (en - e)) mod (Z.pos md * 2 ^ (ed - e)) in
      if r =? 0 then S754_zero sn
      else binary_normalize prec emax (if sn then - r else r) e false
  end.

(** [x >= y]: false when either is NaN. *)
Definition geb (x y : number) : bool := SFleb y x.

(** [Math.floor(x)] *)
Definition floor (x : number) : number :=
  match x with
  | S754_finite s m e =>
      if 0 <=? e then x
      else
        let n := (if s then Z.neg m else Z.pos m) / 2 ^ (- e) in
        if n =? 0 then S754_zero s else of_Z n
  | _ => x
  end.

(** The decimal digits of an integer, with a minus sign when negative. *)
Definition decimal (n : Z) : string := NilZero.string_of_int (Z.to_int n).

(** The integer a number is, when it is one. *)
Definition integer (x : number) : option Z :=
  match x with
  | S754_zero _ => Some 0
  | S754_finite s m e =>
      let n := if s then Z.neg m else Z.pos m in
      if 0 <=? e then Some (n * 2 ^ e)
      else if Z.pos m mod 2 ^ (- e) =? 0 then Some (n / 2 ^ (- e))
      else None
  | _ => None
  end.

(** [String(x)], as template literals and [toString()] apply it, for the
    numbers that print without a fraction and without an exponent: NaN, the
    infinities, and the integers below 10^21 in magnitude. The digits of
    the other numbers are not modelled: [None]. *)
Definition toString (x : number) : option string :=
  match x with
  | S754_nan => Some "NaN"
  | S754_infinity s => Some (if s then "-Infinity" else "Infinity")
  | _ =>
      match integer x with
      | Some n => if Z.abs n <? 10 ^ 21 then Some (decimal n) else None
      | None => None
      end
  end.

(** [s.padStart(targetLength, padString)] *)
Definition padStart (targetLength : nat) (padString : string) (s : string) : string :=
  let fillLen := (targetLength - String.length s)%nat in
  if (fillLen =? 0)%nat || (String.length padString =? 0)%nat then s
  else
    let filler := String.concat "" (repeat padString fillLen) in
    substring 0 fillLen filler +:+ s.

(** The digits of [n] with a point before the last [f] of them, zeros
    added in front where [n] has no more than [f] digits. *)
Definition fixed (f : nat) (n : Z) : string :=
  let m := padStart (f + 1) "0" (decimal n) in
  if (f =? 0)%nat then m
  else substring 0 (String.length m - f) m +:+ "." +:+
       substring (String.length m - f) f m.

(** [x.toFixed(fractionDigits)]: the integer nearest to [|x| * 10^f], the
    larger one of two, written with a point before its last [f] digits.
    Numbers of 10^21 and more print as [String(x)] does. *)
Definition toFixed (fractionDigits : nat) (x : number) : option string :=
  let f := fractionDigits in
  match x with
  | S754_nan | S754_infinity _ => toString x
  | S754_zero _ => Some (fixed f 0)
  | S754_finite s m e =>
      let whole := if 0 <=? e then Z.pos m * 2 ^ e else Z.pos m / 2 ^ (- e) in
      if 10 ^ 21 <=? whole then toString x
      else
        let n := if 0 <=? e then Z.pos m * 2 ^ e * 10 ^ Z.of_nat f
                 else (2 * Z.pos m * 10 ^ Z.of_nat f + 2 ^ (- e)) / (2 * 2 ^ (- e)) in
        Some ((if s then "-" else "") +:+ fixed f n)
  end.

End Numeric.

(** ** The activity card ([components/ActivityCard.tsx]) *)

Module ActivityCard.
Import Number Numeric.

Definition formatDuration (seconds : number) : option string :=
  let hours := floor (div seconds (of_Z 3600)) in
  let minutes := floor (div (rem seconds (of_Z 3600)) (of_Z 60)) in
  let secs := floor (rem seconds (of_Z 60)) in
  if gtb hours (of_Z 0) then
    h ← toString hours; m ← toString minutes; s ← toString secs;
    Some (h +:+ ":" +:+ padStart 2 "0" m +:+ ":" +:+ padStart 2 "0" s)
  else
    m ← toString minutes; s ← toString secs;
    Some (m +:+ ":" +:+ padStart 2 "0" s).

(** [formatDistance(meters?: number)]; [None] as argument is [undefined]. *)
Definition formatDistance (meters : option number) : option string :=
  match meters with
  | None => Some "-"
  | Some meters =>
      if negb (truthy meters) then Some "-"
      else if geb meters (of_Z 1000) then
        km ← toFixed 2 (div meters (of_Z 1000)); Some (km +:+ " km")
      else
        m ← toString (round meters); Some (m +:+ " m")
  end.

End ActivityCard.

(** ** The activity detail page: the duration and distance cells *)

Module ActivityDetail.
Import Number Numeric.

(** [activity.duration_seconds ? `h:mm` : '-'] *)
Definition duration (duration_seconds : option number) : option string :=
  match duration_seconds with
  | None => Some "-"
  | Some d =>
      if negb (truthy d) then Some "-"
      else
        h ← toString (floor (div d (of_Z 3600)));
        m ← toString (floor (div (rem d (of_Z 3600)) (of_Z 60)));
        Some (h +:+ ":" +:+ padStart 2 "0" m)
  end.

(** [activity.total_distance ? `${(total_distance / 1000).toFixed(2)} km` : '-'] *)
Definition distance (total_distance : option number) : option string :=
  match total_distance with
  | None => Some "-"
  | Some d =>
      if negb (truthy d) then Some "-"
      else km ← toFixed 2 (div d (of_Z 1000)); Some (km +:+ " km")
  end.

End ActivityDetail.

(** ** Properties of the API client *)

(** Unfold the monad of promises. *)
Ltac run :=
  unfold mbind, M_bind, mret, M_ret, throw, catch, finally, get, modify in *;
  simpl in *.

Module ApiFacts.
Section Client.

Variable NEXT_PUBLIC_API_URL : option string.
Variable server : list Request -> Request -> option Response.

(** The request an axios call puts on the wire from tab [w]. *)
Definition wire (c : Request) (w : World) : Request :=
  let token := localStorage w !! "token" in
  let c' := if JS.truthy token
            then Api.with_header "Authorization" ("Bearer " +:+ JS.to_string "null" token) c
            else c in
  Api.with_url (Api.baseURL NEXT_PUBLIC_API_URL +:+ req_url c') c'.

(** An axios call sends exactly one request and touches nothing else. *)
Lemma request_frame c w :
  snd (Api.request NEXT_PUBLIC_API_URL server c w) = set_sent (λ l, l ++ [wire c w]) w.
Proof.
  unfold Api.request, Api.interceptor, Api.transmit, getItem, wire. run.
  destruct (JS.truthy (localStorage w !! "token")); simpl;
    match goal with |- context [server ?a ?b] => destruct (server a b) as [r|] end;
    simpl; try destruct (Api.is_2xx (resp_status r)); reflexivity.
Qed.

Lemma request_inv c w o w' :
  Api.request NEXT_PUBLIC_API_URL server c w = (o, w') ->
  w' = set_sent (λ l, l ++ [wire c w]) w.
Proof. intros H. rewrite <- request_frame, H. reflexivity. Qed.

End Client.
End ApiFacts.

(** ** Properties of the auth session holder *)

Module AuthFacts.
Section Provider.

Variable NEXT_PUBLIC_API_URL : option string.
Variable server : list Request -> Request -> option Response.

Lemma getMe_inv w o w' :
  Api.getMe NEXT_PUBLIC_API_URL server w = (o, w') ->
  w' = set_sent (λ l, l ++ [ApiFacts.wire NEXT_PUBLIC_API_URL
                              (Api.with_params [] (Api.config GET "/auth/me")) w]) w.
Proof. apply ApiFacts.request_inv. Qed.

(** C8. At application start (no user yet): with no stored token the session
    resolves to logged-out with [loading = false] and nothing is sent; with a
    stored token and a failing current-user fetch the token is removed, the
    session resolves to logged-out with [loading = false], and the failed
    fetch is the only request that was sent (no retry). *)
Theorem bootstrap_logged_out (w : World) :
  user w = None ->
  (localStorage w !! "token" = None ->
     exists w', Auth.bootstrap NEXT_PUBLIC_API_URL server w = (Resolved tt, w') /\
       user w' = None /\ loading w' = false /\ sent w' = sent w) /\
  (forall t e w1,
     localStorage w !! "token" = Some t -> t <> "" ->
     Api.getMe NEXT_PUBLIC_API_URL server w = (Rejected e, w1) ->
     exists w' r, Auth.bootstrap NEXT_PUBLIC_API_URL server w = (Resolved tt, w') /\
       localStorage w' !! "token" = None /\
       user w' = None /\ loading w' = false /\ sent w' = sent w ++ [r]).
Proof.
  intros Hu. split.
  - intros Ht. exists (set_loading false w).
    unfold Auth.bootstrap, getItem, Auth.setLoading. run. rewrite Ht. simpl.
    repeat split; assumption.
  - intros t e w1 Ht Hne Hme.
    pose proof (getMe_inv _ _ _ Hme) as Hw1.
    eexists; eexists.
    unfold Auth.bootstrap, getItem, Auth.setLoading, removeItem. run.
    rewrite Ht. destruct t as [|a t]; [congruence|]. simpl.
    rewrite Hme. simpl. split; [reflexivity|]. subst w1. simpl.
    repeat split; try assumption. apply lookup_delete_eq.
Qed.

(** C10. When the credential exchange of [login] (or [register]) succeeds and
    the current-user fetch that follows fails, the operation rejects with the
    token still persisted, the in-memory user untouched (null if it was null)
    and no navigation. *)
Theorem login_keeps_token_when_me_fails (w w1 w2 : World) (d : Data) (e : Error) :
  let persist := set_localStorage <["token" := JS.to_string "undefined" (Auth.access_token_of d)]> in
  (forall email password,
     Api.login NEXT_PUBLIC_API_URL server email password w = (Resolved d, w1) ->
     Api.getMe NEXT_PUBLIC_API_URL server (persist w1) = (Rejected e, w2) ->
     Auth.login NEXT_PUBLIC_API_URL server email password w = (Rejected e, w2) /\
     localStorage w2 !! "token" = Some (JS.to_string "undefined" (Auth.access_token_of d)) /\
     user w2 = user w /\ pushed w2 = pushed w) /\
  (forall email password name primarySport,
     Api.register NEXT_PUBLIC_API_URL server email password name primarySport w = (Resolved d, w1) ->
     Api.getMe NEXT_PUBLIC_API_URL server (persist w1) = (Rejected e, w2) ->
     Auth.register NEXT_PUBLIC_API_URL server email password name primarySport w = (Rejected e, w2) /\
     localStorage w2 !! "token" = Some (JS.to_string "undefined" (Auth.access_token_of d)) /\
     user w2 = user w /\ pushed w2 = pushed w).
Proof.
  intros persist. split.
  - intros email password Hlogin Hme.
    pose proof (ApiFacts.request_inv _ _ _ _ _ _ Hlogin) as Hw1.
    pose proof (getMe_inv _ _ _ Hme) as Hw2.
    split.
    + unfold Auth.login, setItem. run. rewrite Hlogin. simpl.
      fold persist. rewrite Hme. reflexivity.
    + subst w2 w1. simpl. split; [apply lookup_insert_eq | split; reflexivity].
  - intros email password name primarySport Hreg Hme.
    pose proof (ApiFacts.request_inv _ _ _ _ _ _ Hreg) as Hw1.
    pose proof (getMe_inv _ _ _ Hme) as Hw2.
    split.
    + unfold Auth.register, setItem. run. rewrite Hreg. simpl.
      fold persist. rewrite Hme. reflexivity.
    + subst w2 w1. simpl. split; [apply lookup_insert_eq | split; reflexivity].
Qed.

End Provider.

(** A server that cannot be reached, and one that accepts any credentials
    but cannot be reached afterwards. *)
Definition offline : list Request -> Request -> option Response :=
  λ _ _, None.

Definition accepts_then_offline : list Request -> Request -> option Response :=
  λ seen _,
    match seen with
    | [] => Some {| resp_status := 200; resp_data := DToken "t0k3n"; resp_body := None |}
    | _ => None
    end.

Lemma bootstrap_logged_out_witness :
  (exists w', Auth.bootstrap None offline (fresh ∅) = (Resolved tt, w') /\
     user w' = None /\ loading w' = false /\ sent w' = []) /\
  (exists w' r, Auth.bootstrap None offline (fresh {["token" := "stale"]}) = (Resolved tt, w') /\
     localStorage w' !! "token" = None /\
     user w' = None /\ loading w' = false /\ sent w' = [r]).
Proof.
  split.
  - apply (bootstrap_logged_out None offline (fresh ∅)); reflexivity.
  - eapply (proj2 (bootstrap_logged_out None offline (fresh {["token" := "stale"]}) eq_refl));
      [reflexivity | discriminate | reflexivity].
Defined.

Lemma login_keeps_token_when_me_fails_witness :
  exists e w2,
    Auth.login None accepts_then_offline "a@b.c" "pw" (fresh ∅) = (Rejected e, w2) /\
    localStorage w2 !! "token" = Some "t0k3n" /\
    user w2 = None /\ pushed w2 = [].
Proof.
  eexists; eexists.
  eapply (proj1 (login_keeps_token_when_me_fails None accepts_then_offline
                   (fresh ∅) _ _ (DToken "t0k3n") _)); reflexivity.
Defined.

End AuthFacts.

(** ** Properties of the streaming chat reader *)

Module Utf8Facts.
Import Utf8.

Definition wf (d : decoder) : Prop := 0x80 <= lower_boundary d.

Lemma land_mask b n : 0 <= n -> Z.land b (Z.ones n) = b mod 2 ^ n.
Proof. apply Z.land_ones. Qed.

Lemma lor_shiftl_6 a c : 0 <= a -> 0 <= c < 64 -> Z.lor (Z.shiftl a 6) c = 64 * a + c.
Proof.
  intros Ha Hc.
  assert (Hland : Z.land (Z.shiftl a 6) c = 0).
  { apply Z.bits_inj'. intros n Hn. rewrite Z.land_spec, Z.bits_0.
    destruct (Z_lt_le_dec n 6) as [Hlt|Hge].
    - rewrite Z.shiftl_spec_low by lia. reflexivity.
    - rewrite (Z.bits_above_log2 c n); [apply andb_false_r | lia |].
      destruct (Z.eq_dec c 0) as [->|Hne]; [simpl; lia|].
      apply Z.lt_le_trans with 6; [|lia]. apply Z.log2_lt_pow2; [lia|]. change (2 ^ 6) with 64. lia. }
  pose proof (Z.add_lor_land (Z.shiftl a 6) c) as H. rewrite Hland in H.
  rewrite Z.shiftl_mul_pow2 in * by lia. change (2 ^ 6) with 64 in *. lia.
Qed.

Lemma lead_wf b : wf (lead b).1.
Proof.
  unfold lead, wf.
  repeat match goal with |- context [if ?c then _ else _] => destruct c end; simpl; lia.
Qed.

Lemma handler_wf d b : wf (handler d b).1.
Proof.
  unfold handler.
  destruct (bytes_needed d =? 0); [apply lead_wf|].
  destruct (negb _).
  - pose proof (lead_wf b). destruct (lead b); assumption.
  - destruct (_ =? _); unfold wf; simpl; lia.
Qed.

Lemma process_wf bytes d : wf d -> wf (process d bytes).1.
Proof.
  revert d. induction bytes as [|b rest IH]; intros d Hd; simpl; [assumption|].
  pose proof (handler_wf d b) as H1. destruct (handler d b) as [d1 out1].
  specialize (IH d1 H1). destruct (process d1 rest). assumption.
Qed.

Lemma lead_ascii b : 0 <= b <= 0x7F -> lead b = (initial, [b]).
Proof. intros H. unfold lead. destruct (Z.leb_spec b 0x7F); [reflexivity|lia]. Qed.

Lemma handler_ascii d b :
  wf d -> 0 <= b <= 0x7F -> exists pre, handler d b = (initial, pre ++ [b]).
Proof.
  intros Hd Hb. unfold handler, wf in *.
  destruct (bytes_needed d =? 0).
  - exists []. apply lead_ascii, Hb.
  - destruct (Z.leb_spec (lower_boundary d) b); [lia|]. simpl.
    rewrite lead_ascii by assumption. exists [replacement]. reflexivity.
Qed.

Lemma process_app d a b :
  process d (a ++ b) =
  let '(d1, o1) := process d a in
  let '(d2, o2) := process d1 b in (d2, o1 ++ o2).
Proof.
  revert d. induction a as [|x a IH]; intros d; simpl.
  - destruct (process d b); reflexivity.
  - destruct (handler d x) as [d1 o1]. rewrite IH.
    destruct (process d1 a) as [d2 o2]. destruct (process d2 b) as [d3 o3].
    rewrite app_assoc. reflexivity.
Qed.

Lemma process_ends_ascii d bytes b :
  wf d -> 0 <= b <= 0x7F ->
  exists out, process d (bytes ++ [b]) = (initial, out ++ [b]).
Proof.
  intros Hd Hb. rewrite process_app.
  pose proof (process_wf bytes d Hd) as H1.
  destruct (process d bytes) as [d1 o1]. simpl in *.
  destruct (handler_ascii d1 b H1 Hb) as [pre ->].
  exists (o1 ++ pre). rewrite app_nil_r, app_assoc. reflexivity.
Qed.

(** The first code point the decoder yields on [bytes], flush included. *)
Definition first (d : decoder) (bytes : list Z) : option Z :=
  let '(d', out) := process d bytes in head (out ++ flush d').

Lemma first_nil d : first d [] = head (flush d).
Proof. reflexivity. Qed.

Lemma first_cons d b rest :
  first d (b :: rest) =
  match handler d b with
  | (_, x :: _) => Some x
  | (d1, []) => first d1 rest
  end.
Proof.
  unfold first. simpl. destruct (handler d b) as [d1 [|x o1]].
  - destruct (process d1 rest). reflexivity.
  - destruct (process d1 rest). reflexivity.
Qed.

Definition is_bom (bytes : list Z) : bool :=
  match bytes with
  | b1 :: b2 :: b3 :: _ => (b1 =? 0xEF) && (b2 =? 0xBB) && (b3 =? 0xBF)
  | _ => false
  end.

Ltac split_ifs :=
  repeat match goal with
  | |- context [if ?c then _ else _] => destruct c eqn:?
  | H : context [if ?c then _ else _] |- _ => destruct c eqn:?
  end.

Ltac zlia := Z.div_mod_to_equations; lia.

Ltac masks :=
  change 0x3F with (Z.ones 6) in *; change 0x1F with (Z.ones 5) in *;
  change 0xF with (Z.ones 4) in *; change 0x7 with (Z.ones 3) in *;
  rewrite ?Z.land_ones in * by lia;
  change (2 ^ 6) with 64 in *; change (2 ^ 5) with 32 in *;
  change (2 ^ 4) with 16 in *; change (2 ^ 3) with 8 in *.

Lemma first_bad d b rest :
  bytes_needed d <> 0 -> ¬ (lower_boundary d <= b <= upper_boundary d) ->
  first d (b :: rest) = Some replacement.
Proof.
  intros Hn Hb. rewrite first_cons. unfold handler.
  destruct (Z.eqb_spec (bytes_needed d) 0); [contradiction|].
  destruct (Z.leb_spec (lower_boundary d) b), (Z.leb_spec b (upper_boundary d));
    simpl; try lia; destruct (lead b); reflexivity.
Qed.

Lemma first_good d b rest :
  bytes_needed d <> 0 -> lower_boundary d <= b <= upper_boundary d ->
  first d (b :: rest) =
  let cp := Z.lor (Z.shiftl (code_point d) 6) (Z.land b 0x3F) in
  if bytes_seen d + 1 =? bytes_needed d then Some cp
  else first {| code_point := cp; bytes_seen := bytes_seen d + 1;
                bytes_needed := bytes_needed d;
                lower_boundary := 0x80; upper_boundary := 0xBF |} rest.
Proof.
  intros Hn Hb. rewrite first_cons. unfold handler.
  destruct (Z.eqb_spec (bytes_needed d) 0); [contradiction|].
  destruct (Z.leb_spec (lower_boundary d) b), (Z.leb_spec b (upper_boundary d));
    simpl; try lia.
  destruct (_ =? _); reflexivity.
Qed.

(** What the next byte does to a pending sequence. *)
Lemma first_pending d bytes cp :
  bytes_needed d <> 0 -> cp <> replacement ->
  first d bytes = Some cp ->
  exists b rest, bytes = b :: rest /\ lower_boundary d <= b <= upper_boundary d /\
    first d (b :: rest) = Some cp.
Proof.
  intros Hn Hcp H. destruct bytes as [|b rest].
  - rewrite first_nil in H. unfold flush in H.
    destruct (Z.eqb_spec (bytes_needed d) 0); [contradiction|].
    simpl in H. congruence.
  - exists b, rest. split; [reflexivity|]. split; [|assumption].
    destruct (Z_le_dec (lower_boundary d) b), (Z_le_dec b (upper_boundary d));
      try lia; rewrite first_bad in H by (assumption || lia); congruence.
Qed.

Lemma first_bom bytes :
  Forall (λ b, 0 <= b <= 255) bytes ->
  first initial bytes = Some 0xFEFF -> is_bom bytes = true.
Proof.
  intros Hr H.
  destruct bytes as [|b1 r1]; [discriminate|].
  apply Forall_cons in Hr as [Hb1 Hr].
  rewrite first_cons in H. unfold handler in H.
  change (bytes_needed initial =? 0) with true in H. cbv iota in H.
  unfold lead in H.
  destruct (Z.leb_spec b1 0x7F); [injection H as H; exfalso; lia|].
  destruct ((0xC2 <=? b1) && (b1 <=? 0xDF)) eqn:E2.
  { (* two bytes *)
    apply andb_true_iff in E2 as [?%Z.leb_le ?%Z.leb_le].
    apply first_pending in H as (b2 & r2 & -> & Hb2 & H); [|simpl; lia|discriminate].
    simpl in Hb2. rewrite first_good in H by (simpl; lia). simpl in H.
    injection H as H. masks. rewrite lor_shiftl_6 in H by zlia. exfalso; zlia. }
  destruct ((0xE0 <=? b1) && (b1 <=? 0xEF)) eqn:E3.
  { (* three bytes *)
    apply andb_true_iff in E3 as [?%Z.leb_le ?%Z.leb_le].
    apply first_pending in H as (b2 & r2 & -> & Hb2 & H); [|simpl; lia|discriminate].
    simpl in Hb2.
    assert (0x80 <= b2 <= 0xBF) by (split_ifs; lia).
    rewrite first_good in H by (simpl; lia). simpl in H.
    apply first_pending in H as (b3 & r3 & -> & Hb3 & H); [|simpl; lia|discriminate].
    simpl in Hb3. rewrite first_good in H by (simpl; lia). simpl in H.
    injection H as H. masks.
    rewrite (lor_shiftl_6 (b1 `mod` 16)) in H by zlia.
    rewrite lor_shiftl_6 in H by zlia.
    simpl. apply andb_true_iff; split; [apply andb_true_iff; split|]; zlia. }
  destruct ((0xF0 <=? b1) && (b1 <=? 0xF4)) eqn:E4; [|discriminate].
  (* four bytes: at least U+10000 *)
  apply andb_true_iff in E4 as [?%Z.leb_le ?%Z.leb_le].
  apply first_pending in H as (b2 & r2 & -> & Hb2 & H); [|simpl; lia|discriminate].
  simpl in Hb2.
  assert (0x80 <= b2 <= 0xBF /\ (b1 = 0xF0 -> 0x90 <= b2)) by (split_ifs; lia).
  rewrite first_good in H by (simpl; lia). simpl in H.
  apply first_pending in H as (b3 & r3 & -> & Hb3 & H); [|simpl; lia|discriminate].
  simpl in Hb3. rewrite first_good in H by (simpl; lia). simpl in H.
  apply first_pending in H as (b4 & r4 & -> & Hb4 & H); [|simpl; lia|discriminate].
  simpl in Hb4. rewrite first_good in H by (simpl; lia). simpl in H.
  injection H as H. masks.
  rewrite (lor_shiftl_6 (b1 `mod` 8)) in H by zlia.
  rewrite (lor_shiftl_6 (64 * (b1 `mod` 8) + b2 `mod` 64)) in H by zlia.
  rewrite lor_shiftl_6 in H by zlia.
  exfalso; zlia.
Qed.

Lemma strip_bom_app l x : l <> [] -> strip_bom (l ++ x) = strip_bom l ++ x.
Proof. destruct l as [|c l]; [congruence|]. intros _. simpl. destruct (c =? 0xFEFF); reflexivity. Qed.

Lemma strip_bom_id l : head l <> Some 0xFEFF -> strip_bom l = l.
Proof.
  destruct l as [|c l]; [reflexivity|]. simpl. intros H.
  destruct (Z.eqb_spec c 0xFEFF); [subst; congruence | reflexivity].
Qed.

Lemma strip_bom_last l c : c <> 0xFEFF -> exists l', strip_bom (l ++ [c]) = l' ++ [c].
Proof.
  intros Hc. destruct l as [|x l]; simpl.
  - destruct (Z.eqb_spec c 0xFEFF); [contradiction|]. exists []. reflexivity.
  - destruct (x =? 0xFEFF); [exists l | exists (x :: l)]; reflexivity.
Qed.

Lemma bytes_of_range value : Forall (λ b, 0 <= b <= 255) (bytes_of value).
Proof.
  unfold bytes_of. apply Forall_map, Forall_forall. intros b _. simpl.
  pose proof (Byte.to_N_bounded b). lia.
Qed.

(** The chunk ends with a line feed. *)
Definition ends_with_newline (c : list byte) : bool :=
  match last c with
  | Some x0a => true
  | _ => false
  end.

(** The chunk begins with the UTF-8 byte order mark, EF BB BF. *)
Definition begins_with_bom (c : list byte) : bool :=
  match c with
  | xef :: xbb :: xbf :: _ => true
  | _ => false
  end.

Lemma is_bom_bytes c : is_bom (bytes_of c) = begins_with_bom c.
Proof.
  destruct c as [|b1 c]; [reflexivity|].
  destruct b1; try (destruct c as [|? [|? ?]]; reflexivity).
  destruct c as [|b2 c]; [reflexivity|].
  destruct b2; try (destruct c; reflexivity).
  destruct c as [|b3 c]; [reflexivity|].
  destruct b3; reflexivity.
Qed.

Lemma ends_with_newline_inv c :
  ends_with_newline c = true -> exists c', c = c' ++ [x0a].
Proof.
  unfold ends_with_newline. destruct (last c) as [b|] eqn:E; [|discriminate].
  apply last_Some in E as [c' ->]. destruct b; try discriminate. eauto.
Qed.

(** Decoding chunk by chunk agrees with decoding the concatenation when
    the first chunk ends with a line feed and the second does not begin
    with a byte order mark. *)
Lemma decode_app c1 c2 :
  ends_with_newline c1 = true -> begins_with_bom c2 = false ->
  exists s, decode c1 = s ++ [10] /\ decode (c1 ++ c2) = decode c1 ++ decode c2.
Proof.
  intros [c1' ->]%ends_with_newline_inv Hbom.
  assert (Hb1 : bytes_of (c1' ++ [x0a]) = bytes_of c1' ++ [10])
    by (unfold bytes_of; rewrite map_app; reflexivity).
  assert (Hb : bytes_of ((c1' ++ [x0a]) ++ c2) = (bytes_of c1' ++ [10]) ++ bytes_of c2)
    by (unfold bytes_of; rewrite !map_app; reflexivity).
  unfold decode. rewrite Hb, Hb1.
  rewrite (process_app initial (bytes_of c1' ++ [10]) (bytes_of c2)).
  destruct (process_ends_ascii initial (bytes_of c1') 10) as [o1 ->];
    [unfold wf; simpl; lia | lia |].
  assert (Hfirst : head ((process initial (bytes_of c2)).2 ++ flush (process initial (bytes_of c2)).1)
                   <> Some 0xFEFF).
  { intros H. rewrite <- is_bom_bytes in Hbom.
    rewrite first_bom in Hbom; [discriminate | apply bytes_of_range |].
    unfold first. destruct (process initial (bytes_of c2)). exact H. }
  destruct (process initial (bytes_of c2)) as [d2 o2]. simpl in Hfirst.
  change (flush initial) with (@nil Z). rewrite app_nil_r.
  rewrite (strip_bom_id _ Hfirst).
  assert (Hne : o1 ++ [10] <> []) by (destruct o1; discriminate).
  rewrite <- (app_assoc (o1 ++ [10])), (strip_bom_app _ _ Hne).
  destruct (strip_bom_last o1 10) as [o1' ->]; [lia|].
  rewrite !flat_map_app. simpl. eexists. split; reflexivity.
Qed.

End Utf8Facts.

Module TextFacts.
Import Text.

Lemma split_nonempty sep s : split sep s <> [].
Proof.
  destruct s as [|c s]; simpl; [discriminate|].
  destruct (c =? sep); [discriminate|]. destruct (split sep s); discriminate.
Qed.

(** Splitting after a separator that ends the first part. *)
Lemma split_app sep s1 s2 :
  split sep (s1 ++ sep :: s2) = split sep s1 ++ split sep s2.
Proof.
  induction s1 as [|c s1 IH]; simpl.
  - rewrite Z.eqb_refl. reflexivity.
  - destruct (c =? sep); [rewrite IH; reflexivity|].
    rewrite IH. pose proof (split_nonempty sep s1).
    destruct (split sep s1); [contradiction|reflexivity].
Qed.

Lemma split_end sep s : split sep (s ++ [sep]) = split sep s ++ [[]].
Proof. apply (split_app sep s []). Qed.

End TextFacts.

Module ChatFacts.
Import Text.

Lemma set_received_id w : set_received (λ l, l ++ []) w = w.
Proof. destruct w. unfold set_received. simpl. rewrite app_nil_r. reflexivity. Qed.

Lemma set_received_app a b w :
  set_received (λ l, l ++ b) (set_received (λ l, l ++ a) w) = set_received (λ l, l ++ (a ++ b)) w.
Proof. unfold set_received. simpl. rewrite app_assoc. reflexivity. Qed.

(** The arguments [onChunk] is called with while one line, one chunk, a
    whole body is handled. *)
Definition calls_of_line (line : text) : list JSON.value :=
  received (Api.on_line record line (fresh ∅)).2.

Definition calls_of_value (value : list byte) : list JSON.value :=
  received (Api.on_value record value (fresh ∅)).2.

Definition delivered (chunks : list (list byte)) : list JSON.value :=
  received (Api.read_loop record
              (Some {| stream_chunks := chunks; stream_fails := false |}) (fresh ∅)).2.

Lemma on_line_record line w :
  Api.on_line record line w = (Resolved tt, set_received (λ l, l ++ calls_of_line line) w).
Proof.
  unfold calls_of_line, Api.on_line, record. run.
  destruct (_ && _); [|rewrite set_received_id; reflexivity].
  destruct (JSON.parse _) as [data|]; simpl; [|rewrite set_received_id; reflexivity].
  destruct (JSON.text_of data) as [[t|]|]; simpl; try (rewrite set_received_id; reflexivity).
  destruct (JSON.truthy t); simpl; [reflexivity | rewrite set_received_id; reflexivity].
Qed.

Lemma for_of_record {A} (f : A -> M unit) (calls : A -> list JSON.value) :
  (forall x w, f x w = (Resolved tt, set_received (λ l, l ++ calls x) w)) ->
  forall xs w, for_of xs f w = (Resolved tt, set_received (λ l, l ++ flat_map calls xs) w).
Proof.
  intros Hf xs. induction xs as [|x xs IH]; intros w; simpl.
  - run. rewrite set_received_id. reflexivity.
  - run. rewrite Hf, IH, set_received_app. reflexivity.
Qed.

Lemma received_fresh calls :
  received (set_received (λ l, l ++ calls) (fresh ∅)) = calls.
Proof. reflexivity. Qed.

Lemma on_value_record value w :
  Api.on_value record value w =
  (Resolved tt, set_received (λ l, l ++ flat_map calls_of_line (split 10 (Utf8.decode value))) w).
Proof. unfold Api.on_value. apply for_of_record, on_line_record. Qed.

Lemma calls_of_value_eq value :
  calls_of_value value = flat_map calls_of_line (split 10 (Utf8.decode value)).
Proof. unfold calls_of_value. rewrite on_value_record. reflexivity. Qed.

Lemma read_loop_record chunks fails w :
  Api.read_loop record (Some {| stream_chunks := chunks; stream_fails := fails |}) w =
  (if fails then Rejected ReadFailed else Resolved tt,
   set_received (λ l, l ++ flat_map calls_of_value chunks) w).
Proof.
  unfold Api.read_loop. simpl. run.
  rewrite (for_of_record (Api.on_value record) calls_of_value).
  - destruct fails; reflexivity.
  - intros x w'. rewrite on_value_record, calls_of_value_eq. reflexivity.
Qed.

Lemma delivered_eq chunks : delivered chunks = flat_map calls_of_value chunks.
Proof. unfold delivered. rewrite read_loop_record. reflexivity. Qed.

(** Bytes of a body written with apostrophes for the quotation marks. *)
Definition body (s : string) : list byte :=
  map (λ b, if Byte.eqb b x27 then x22 else b) (list_byte_of_string s).

(** One line of a body, line feed included. *)
Definition line (s : string) : list byte := body s ++ [x0a].

(** The line names a [text] value: it has the prefix, is not the
    sentinel, and what follows the prefix parses as JSON whose [text]
    property is [t]. *)
Definition carries (line : text) (t : JSON.value) : Prop :=
  startsWith line (lit "data: ") = true /\
  line <> lit "data: [DONE]" /\
  exists data, JSON.parse (slice 6 line) = Some data /\ JSON.text_of data = Some (Some t).

(** No chunk boundary splits a line or a character, and no chunk after the
    first begins with a byte order mark. *)
Fixpoint aligned (chunks : list (list byte)) : bool :=
  match chunks with
  | [] => true
  | c :: rest =>
      match rest with
      | [] => true
      | c' :: _ =>
          Utf8Facts.ends_with_newline c && negb (Utf8Facts.begins_with_bom c') && aligned rest
      end
  end.

Lemma begins_with_bom_app c y :
  Utf8Facts.ends_with_newline c = true ->
  Utf8Facts.begins_with_bom (c ++ y) = Utf8Facts.begins_with_bom c.
Proof.
  intros [c0 ->]%Utf8Facts.ends_with_newline_inv.
  destruct c0 as [|b1 c0]; [reflexivity|].
  destruct b1; try reflexivity.
  destruct c0 as [|b2 c0]; [reflexivity|].
  destruct b2; try reflexivity.
  destruct c0 as [|b3 c0]; [reflexivity|].
  destruct b3; reflexivity.
Qed.

Lemma calls_of_value_app c x :
  Utf8Facts.ends_with_newline c = true -> Utf8Facts.begins_with_bom x = false ->
  calls_of_value (c ++ x) = calls_of_value c ++ calls_of_value x.
Proof.
  intros Hc Hx. rewrite !calls_of_value_eq.
  destruct (Utf8Facts.decode_app c x Hc Hx) as (s & Hs & ->).
  rewrite Hs, <- app_assoc. simpl.
  rewrite TextFacts.split_app, TextFacts.split_end, !flat_map_app. simpl.
  change (calls_of_line []) with (@nil JSON.value). rewrite !app_nil_r. reflexivity.
Qed.

Lemma delivered_concat chunks :
  aligned chunks = true -> flat_map calls_of_value chunks = calls_of_value (concat chunks).
Proof.
  induction chunks as [|c rest IH]; [reflexivity|].
  destruct rest as [|c' rest'].
  - intros _. simpl. rewrite !app_nil_r. reflexivity.
  - intros H. cbn [aligned] in H.
    apply andb_true_iff in H as [[Hc Hc']%andb_true_iff Hrest].
    apply negb_true_iff in Hc'.
    change (flat_map calls_of_value (c :: c' :: rest'))
      with (calls_of_value c ++ flat_map calls_of_value (c' :: rest')).
    rewrite (IH Hrest).
    change (concat (c :: c' :: rest')) with (c ++ concat (c' :: rest')).
    rewrite calls_of_value_app; [reflexivity | assumption |].
    change (concat (c' :: rest')) with (c' ++ concat rest').
    destruct rest' as [|c'' rest''].
    + simpl. rewrite app_nil_r. assumption.
    + cbn [aligned] in Hrest.
      apply andb_true_iff in Hrest as [[He _]%andb_true_iff _].
      rewrite begins_with_bom_app; assumption.
Qed.

(** C1, as amended. When every chunk boundary falls right after a line
    feed, and no chunk after the first begins with a byte order mark, the
    reader calls [onChunk] with the same arguments, in the same order, as
    when the body arrives as one chunk. *)
Theorem chunking_at_line_ends (chunks : list (list byte)) (fails : bool) (w : World) :
  aligned chunks = true ->
  Api.read_loop record (Some {| stream_chunks := chunks; stream_fails := fails |}) w =
  Api.read_loop record (Some {| stream_chunks := [concat chunks]; stream_fails := fails |}) w.
Proof.
  intros H. rewrite !read_loop_record. simpl. rewrite app_nil_r.
  rewrite (delivered_concat chunks H). reflexivity.
Qed.

Lemma chunking_at_line_ends_witness :
  let chunks := [line "data: {'text':'Hel'}";
                 line "data: {'text':'lo'}" ++ line "data: [DONE]"] in
  aligned chunks = true /\
  Api.read_loop record (Some {| stream_chunks := chunks; stream_fails := false |}) (fresh ∅) =
  Api.read_loop record (Some {| stream_chunks := [concat chunks]; stream_fails := false |}) (fresh ∅).
Proof.
  intros chunks. split; [reflexivity|].
  apply (chunking_at_line_ends chunks false (fresh ∅)). reflexivity.
Defined.

(** C1 as stated fails: a body cut inside a line, and a body cut inside the
    two bytes of a character, lose the callback that the single-chunk
    delivery makes. *)
Lemma split_line_loses_callback :
  delivered [body "data: {'te" ++ line "xt':'hi'}"] = [JSON.Str (lit "hi")] /\
  delivered [body "data: {'te"; line "xt':'hi'}"] = [] /\
  delivered [body "data: {'text':'" ++ [xc3; xa9] ++ line "'}"] = [JSON.Str [0xE9]] /\
  delivered [body "data: {'text':'" ++ [xc3]; [xa9] ++ line "'}"] = [].
Proof. repeat split; vm_compute; reflexivity. Qed.

(** C5, as amended. A line makes one call of [onChunk], with [t], exactly
    when it has the prefix, is not the sentinel, its remainder parses as
    JSON, and the [text] property of that JSON is [t] and is truthy; every
    other line makes no call. Either way the handler completes normally and
    the lines after it are handled. *)
Theorem on_line_calls (line : text) (w : World) :
  exists calls,
    Api.on_line record line w = (Resolved tt, set_received (λ l, l ++ calls) w) /\
    (forall rest, for_of (line :: rest) (Api.on_line record) w =
                  for_of rest (Api.on_line record) (set_received (λ l, l ++ calls) w)) /\
    (calls = [] \/ exists t, calls = [t]) /\
    (forall t, calls = [t] <-> carries line t /\ JSON.truthy t = true).
Proof.
  exists (calls_of_line line).
  split; [apply on_line_record|].
  split; [intros rest; simpl; run; rewrite on_line_record; reflexivity|].
  unfold calls_of_line, carries, Api.on_line, record, eqb.
  generalize (JSON.parse (slice 6 line)) as parsed. intros parsed. run.
  destruct (startsWith line (lit "data: ")); simpl;
    [|split; [left; reflexivity | intros t; split; [discriminate | intros [[? _] _]; discriminate]]].
  destruct (bool_decide_reflect (line = lit "data: [DONE]")) as [Hd|Hd]; simpl;
    [split; [left; reflexivity | intros t; split; [discriminate | intros [(_ & ? & _) _]; contradiction]]|].
  destruct parsed as [data|]; simpl;
    [|split; [left; reflexivity | intros t; split; [discriminate | intros [(_ & _ & ? & ? & _) _]; discriminate]]].
  destruct (JSON.text_of data) as [[t0|]|] eqn:Et; simpl;
    try (split; [left; reflexivity | intros t; split; [discriminate | intros [(_ & _ & ? & [= <-] & ?) _]; congruence]]).
  destruct (JSON.truthy t0) eqn:Etr; simpl.
  - split; [right; eauto|]. intros t; split.
    + intros [= <-]. repeat split; eauto.
    + intros [(_ & _ & ? & [= <-] & ?) _]. congruence.
  - split; [left; reflexivity|]. intros t; split; [discriminate|].
    intros [(_ & _ & ? & [= <-] & ?) ?]. congruence.
Qed.

(** C5 as stated fails: a line whose JSON carries an empty [text] makes no
    call. *)
Lemma empty_text_is_not_delivered :
  let line := JSON.quoted "data: {'text':''}" in
  carries line (JSON.Str []) /\ calls_of_line line = [].
Proof.
  split; [|reflexivity].
  split; [reflexivity|]. split; [discriminate|].
  eexists. split; vm_compute; reflexivity.
Qed.

End ChatFacts.

(** ** The Authorization header *)

Module HeaderFacts.
Section Client.

Variable NEXT_PUBLIC_API_URL : option string.
Variable server : list Request -> Request -> option Response.

(** Every call on the axios instance goes through [Api.request]; for a
    configuration that does not set the header itself, the request on the
    wire carries [Bearer <token>] when a non-empty token is stored and no
    Authorization header when none is. *)
Lemma axios_authorization (c : Request) (w : World) :
  req_headers c !! "Authorization" = None ->
  match localStorage w !! "token" with
  | Some t =>
      t <> "" ->
      req_headers (ApiFacts.wire NEXT_PUBLIC_API_URL c w) !! "Authorization"
      = Some ("Bearer " +:+ t)
  | None =>
      req_headers (ApiFacts.wire NEXT_PUBLIC_API_URL c w) !! "Authorization" = None
  end.
Proof.
  intros Hc. unfold ApiFacts.wire.
  destruct (localStorage w !! "token") as [t|]; simpl.
  - intros Ht. destruct t; [congruence|]. simpl.
    unfold Api.with_header. simpl. apply lookup_insert_eq.
  - exact Hc.
Qed.

(** C6 at the failing input. With no token stored, the streaming chat
    request still carries an Authorization header, [Bearer null]. *)
Theorem chatStream_sends_bearer_null
    (message : string) (history : list (list (string * string))) (w : World) :
  localStorage w !! "token" = None ->
  exists r,
    sent (Api.chatStream NEXT_PUBLIC_API_URL server message history record w).2
    = sent w ++ [r] /\
    req_headers r !! "Authorization" = Some "Bearer null".
Proof.
  intros Ht. eexists.
  unfold Api.chatStream, Api.fetch, Api.transmit, getItem. run. rewrite Ht. simpl.
  match goal with |- context [server ?a ?b] => destruct (server a b) as [resp|] end; simpl.
  - destruct (resp_body resp) as [[chunks fails]|].
    + rewrite ChatFacts.read_loop_record. simpl. split; [reflexivity|].
      apply lookup_insert_eq.
    + simpl. split; [reflexivity|]. apply lookup_insert_eq.
  - split; [reflexivity|]. apply lookup_insert_eq.
Qed.

End Client.

Lemma chatStream_sends_bearer_null_witness :
  exists r,
    sent (Api.chatStream None AuthFacts.offline "hello" [] record (fresh ∅)).2 = [r] /\
    req_headers r !! "Authorization" = Some "Bearer null".
Proof.
  apply (chatStream_sends_bearer_null None AuthFacts.offline "hello" [] (fresh ∅)).
  reflexivity.
Defined.

End HeaderFacts.

(** ** Mutations and the query cache *)

Module CacheFacts.
Section Pages.

Variable NEXT_PUBLIC_API_URL : option string.
Variable server : list Request -> Request -> option Response.

(** Has [key] one of the listed prefixes? *)
Definition hit (prefixes : list (list string)) (key : list string) : bool :=
  existsb (λ p, QueryClient.matches p key) prefixes.

(** What invalidating the listed prefixes does to a cached query. *)
Definition after (prefixes : list (list string)) (key : list string) (q : Query) : Query :=
  if hit prefixes key then QueryClient.invalidated q else q.

Lemma invalidate_lookup (queryKey : list string) (m : gmap (list string) Query)
    (key : list string) :
  map_imap (λ k q, Some (if QueryClient.matches queryKey k
                         then QueryClient.invalidated q else q)) m !! key
  = after [queryKey] key <$> m !! key.
Proof.
  unfold after, hit. rewrite map_lookup_imap.
  destruct (m !! key) as [q|]; simpl; [|reflexivity].
  rewrite orb_false_r. reflexivity.
Qed.

Lemma after_two p1 p2 key q :
  after [p2] key (after [p1] key q) = after [p1; p2] key q.
Proof.
  unfold after, hit. simpl. rewrite !orb_false_r.
  destruct (QueryClient.matches p1 key), (QueryClient.matches p2 key); reflexivity.
Qed.

Lemma request_cache c w :
  cache (Api.request NEXT_PUBLIC_API_URL server c w).2 = cache w.
Proof. rewrite ApiFacts.request_frame. reflexivity. Qed.

(** C7, as amended. A successful threshold update invalidates the cached
    queries under [hrZones] and [powerZones], a successful coach-settings
    update those under [coachSettings], a successful plan application those
    under [workouts] and [coachingContext], and no others. A successful
    activity deletion leaves the cache as it is and schedules the navigation
    to the activity list; an upload never touches the cache. *)
Theorem mutations_and_cache (w : World) :
  (forall data d w1 key,
     Api.updateThresholds NEXT_PUBLIC_API_URL server data w = (Resolved d, w1) ->
     cache (Pages.thresholds_mutation NEXT_PUBLIC_API_URL server data w).2 !! key
     = after [["hrZones"]; ["powerZones"]] key <$> cache w !! key) /\
  (forall settings d w1 key,
     Api.updateCoachSettings NEXT_PUBLIC_API_URL server settings w = (Resolved d, w1) ->
     cache (Pages.coach_mutation NEXT_PUBLIC_API_URL server settings w).2 !! key
     = after [["coachSettings"]] key <$> cache w !! key) /\
  (forall s d w1 key,
     suggestions w = Some s ->
     Api.applyPlanModifications NEXT_PUBLIC_API_URL server (raw_response s) false w
       = (Resolved d, w1) ->
     cache (Pages.applyMutation NEXT_PUBLIC_API_URL server () w).2 !! key
     = after [["workouts"]; ["coachingContext"]] key <$> cache w !! key) /\
  (forall activityId w1,
     isDeleting w = false ->
     Api.deleteActivity NEXT_PUBLIC_API_URL server activityId (set_isDeleting true w)
       = (Resolved (), w1) ->
     let w' := (Pages.handleDelete NEXT_PUBLIC_API_URL server true activityId w).2 in
     cache w' = cache w /\ timers w' = timers w ++ [(100, "/activities")]) /\
  (forall message file,
     cache (Pages.uploadMutation NEXT_PUBLIC_API_URL server message file w).2 = cache w).
Proof.
  repeat split.
  - intros data d w1 key H.
    pose proof (ApiFacts.request_inv _ _ _ _ _ _ H) as ->.
    unfold Pages.thresholds_mutation, QueryClient.mutate. run.
    unfold Api.updateThresholds, Api.api_put in *. rewrite H. simpl.
    rewrite !invalidate_lookup. simpl.
    destruct (cache w !! key) as [q|]; simpl; [|reflexivity].
    rewrite after_two. reflexivity.
  - intros settings d w1 key H.
    pose proof (ApiFacts.request_inv _ _ _ _ _ _ H) as ->.
    unfold Pages.coach_mutation, QueryClient.mutate. run.
    unfold Api.updateCoachSettings, Api.api_put in *. rewrite H. simpl.
    rewrite !invalidate_lookup. reflexivity.
  - intros s d w1 key Hs H.
    pose proof (ApiFacts.request_inv _ _ _ _ _ _ H) as ->.
    unfold Pages.applyMutation, QueryClient.mutate. run. rewrite Hs.
    unfold Api.applyPlanModifications, Api.api_post in *. rewrite H. simpl.
    rewrite !invalidate_lookup. simpl.
    destruct (cache w !! key) as [q|]; simpl; [|reflexivity].
    rewrite after_two. reflexivity.
  - unfold Pages.handleDelete. run. rewrite H. simpl.
    unfold Api.deleteActivity in *. run.
    destruct (Api.api_delete _ _ _ _) as [[d|e] w2] eqn:E; [|discriminate].
    pose proof (ApiFacts.request_inv _ _ _ _ _ _ E) as ->. reflexivity.
  - unfold Pages.handleDelete. run. rewrite H. simpl.
    unfold Api.deleteActivity in *. run.
    destruct (Api.api_delete _ _ _ _) as [[d|e] w2] eqn:E; [|discriminate].
    pose proof (ApiFacts.request_inv _ _ _ _ _ _ E) as ->. reflexivity.
  - intros message file.
    unfold Pages.uploadMutation, QueryClient.mutate, Api.uploadFitFile. run.
    match goal with |- context [Api.request ?a ?b ?c ?d] =>
      pose proof (request_cache c d) as Hc;
      destruct (Api.request a b c d) as [[data|e] w2] end; simpl in *.
    + unfold Pages.upload_onSuccess, Pages.setUploadResult. run.
      destruct data as [| |u| |]; simpl; try exact Hc.
      destruct (up_duplicates u); simpl; [|exact Hc].
      destruct (up_activity u); simpl; exact Hc.
    + exact Hc.
Qed.

End Pages.

(** A server that accepts everything. *)
Definition accepting : list Request -> Request -> option Response :=
  λ _ _, Some {| resp_status := 200; resp_data := DOther; resp_body := None |}.

(** A tab that holds the activity list in its cache. *)
Definition listed : World :=
  set_cache (λ _, {[ ["activities"; ""] := {| query_data := DOther; query_invalidated := false |} ]})
    (fresh ∅).

(** C7 as stated fails: a successful activity deletion leaves the cached
    activity list valid. *)
Lemma delete_keeps_cached_list :
  let w' := (Pages.handleDelete None accepting true "42" listed).2 in
  length (sent w') = 1%nat /\ alerts w' = [] /\ timers w' = [(100, "/activities")] /\
  cache w' !! ["activities"; ""]
  = Some {| query_data := DOther; query_invalidated := false |}.
Proof. repeat split. Qed.

(** A tab that holds zones and the user in its cache. *)
Definition zoned : World :=
  set_cache (λ _, {[ ["hrZones"] := {| query_data := DOther; query_invalidated := false |};
                     ["user"] := {| query_data := DOther; query_invalidated := false |} ]})
    (fresh ∅).

Lemma mutations_and_cache_witness :
  let w' := (Pages.thresholds_mutation None accepting [("threshold_hr", ANum 180)] zoned).2 in
  cache w' !! ["hrZones"] = Some {| query_data := DOther; query_invalidated := true |} /\
  cache w' !! ["user"] = Some {| query_data := DOther; query_invalidated := false |}.
Proof.
  split.
  - eapply (proj1 (mutations_and_cache None accepting zoned)). reflexivity.
  - eapply (proj1 (mutations_and_cache None accepting zoned)). reflexivity.
Defined.

End CacheFacts.

(** ** The upload form *)

Module UploadFacts.
Section Pages.

Variable NEXT_PUBLIC_API_URL : option string.
Variable server : list Request -> Request -> option Response.
Variable toLowerCase : Text.text -> Text.text.
Variable message : Error -> string.

(** C9. A file whose lower-cased name does not end in [.fit] is rejected
    with an error result, and nothing is sent. *)
Theorem handleFile_rejects (file : Pages.File) (w : World) :
  Text.endsWith (toLowerCase (Pages.file_name file)) (Text.lit ".fit") = false ->
  exists w',
    Pages.handleFile NEXT_PUBLIC_API_URL server toLowerCase message file w
    = (Resolved (), w') /\
    uploadResult w'
    = Some {| ur_type := upload_error; ur_message := "Only .FIT files are supported.";
              ur_activityId := None |} /\
    sent w' = sent w.
Proof.
  intros H. eexists. unfold Pages.handleFile. rewrite H. simpl.
  unfold Pages.setUploadResult. run. repeat split.
Qed.

End Pages.

Lemma handleFile_rejects_witness :
  exists w',
    Pages.handleFile None CacheFacts.accepting Pages.ascii_toLowerCase (λ _, "")
      {| Pages.file_name := Text.lit "Ride.GPX" |} (fresh ∅)
    = (Resolved (), w') /\
    uploadResult w'
    = Some {| ur_type := upload_error; ur_message := "Only .FIT files are supported.";
              ur_activityId := None |} /\
    sent w' = [].
Proof.
  apply (handleFile_rejects None CacheFacts.accepting Pages.ascii_toLowerCase (λ _, "")
           {| Pages.file_name := Text.lit "Ride.GPX" |} (fresh ∅)).
  reflexivity.
Defined.

End UploadFacts.

(** ** Facts: binary64 rounding of the zone products *)

Module NumberFacts.
Import Number.

(** *** Digits *)

Lemma pow2_succ (n : Z) : 0 <= n -> 2 ^ (n + 1) = 2 * 2 ^ n.
Proof. intros H. rewrite Z.pow_add_r by lia. lia. Qed.

Lemma digits2_pos_bounds (m : positive) :
  2 ^ (Z.pos (digits2_pos m) - 1) <= Z.pos m < 2 ^ Z.pos (digits2_pos m).
Proof.
  induction m as [m IH|m IH|]; simpl digits2_pos.
  - rewrite Pos2Z.inj_succ, Pos2Z.inj_xI.
    replace (Z.succ (Z.pos (digits2_pos m)) - 1) with (Z.pos (digits2_pos m) - 1 + 1) by lia.
    unfold Z.succ. rewrite !pow2_succ by lia. lia.
  - rewrite Pos2Z.inj_succ, Pos2Z.inj_xO.
    replace (Z.succ (Z.pos (digits2_pos m)) - 1) with (Z.pos (digits2_pos m) - 1 + 1) by lia.
    unfold Z.succ. rewrite !pow2_succ by lia. lia.
  - simpl. lia.
Qed.

(** The number of binary digits is determined by the bounds. *)
Lemma digits2_pos_unique (m : positive) (d : Z) :
  2 ^ (d - 1) <= Z.pos m < 2 ^ d -> Z.pos (digits2_pos m) = d.
Proof.
  intros [Hlo Hhi]. pose proof (digits2_pos_bounds m) as [Hlo' Hhi'].
  assert (0 < d).
  { destruct (Z_lt_le_dec 0 d); [assumption|].
    assert (2 ^ d <= 2 ^ 0) by (apply Z.pow_le_mono_r; lia). simpl in *. lia. }
  destruct (Z.lt_trichotomy (Z.pos (digits2_pos m)) d) as [Hlt|[Heq|Hgt]];
    [|assumption|].
  - assert (2 ^ Z.pos (digits2_pos m) <= 2 ^ (d - 1)) by (apply Z.pow_le_mono_r; lia). lia.
  - assert (2 ^ d <= 2 ^ (Z.pos (digits2_pos m) - 1)) by (apply Z.pow_le_mono_r; lia). lia.
Qed.

(** *** Shifting right with round and sticky bits *)

Lemma iter_pos_nat {A} (f : A -> A) (p : positive) (x : A) :
  SpecFloat.iter_pos f p x = Nat.iter (Pos.to_nat p) f x.
Proof.
  revert x. induction p as [p IH|p IH|]; intros x; simpl SpecFloat.iter_pos.
  - rewrite !IH, Pos2Nat.inj_xI. simpl. rewrite Nat.add_0_r, Nat.iter_add.
    rewrite !Nat.iter_swap. reflexivity.
  - rewrite !IH, Pos2Nat.inj_xO. simpl. rewrite Nat.add_0_r, Nat.iter_add. reflexivity.
  - reflexivity.
Qed.

Definition inexact (r : shr_record) : bool := shr_r r || shr_s r.

Lemma shr_1_spec (r : shr_record) :
  0 <= shr_m r ->
  shr_m (shr_1 r) = shr_m r / 2 /\
  inexact (shr_1 r) = negb (shr_m r mod 2 =? 0) || inexact r.
Proof.
  destruct r as [m r s]. simpl. intros Hm. unfold inexact. simpl.
  destruct m as [|p|p]; [| |lia].
  - simpl. split; reflexivity.
  - destruct p as [p|p|]; simpl.
    + split; [apply Z.div_unique with 1; lia|].
      replace (Z.pos p~1 mod 2) with 1; [reflexivity|].
      apply Z.mod_unique with (Z.pos p); lia.
    + split; [apply Z.div_unique with 0; lia|].
      replace (Z.pos p~0 mod 2) with 0; [reflexivity|].
      apply Z.mod_unique with (Z.pos p); lia.
    + split; reflexivity.
Qed.

Lemma shr_iter_spec (n : nat) (m : Z) :
  0 <= m ->
  let r := Nat.iter n shr_1 {| shr_m := m; shr_r := false; shr_s := false |} in
  shr_m r = m / 2 ^ Z.of_nat n /\
  inexact r = negb (m mod 2 ^ Z.of_nat n =? 0).
Proof.
  intros Hm. induction n as [|n IH].
  - simpl. rewrite Z.div_1_r, Z.mod_1_r. split; reflexivity.
  - cbv zeta in *. rewrite Nat.iter_succ.
    destruct IH as [IHm IHi].
    set (r := Nat.iter n shr_1 _) in *.
    assert (Hr : 0 <= shr_m r) by (rewrite IHm; apply Z.div_pos; lia).
    destruct (shr_1_spec r Hr) as [H1 H2].
    rewrite H1, H2, IHm, IHi, Nat2Z.inj_succ, Z.pow_succ_r by lia.
    assert (Hp : 0 < 2 ^ Z.of_nat n) by (apply Z.pow_pos_nonneg; lia).
    split.
    + rewrite Z.mul_comm, Z.div_div by lia. reflexivity.
    + rewrite (Z.mul_comm 2), Z.rem_mul_r by lia.
      pose proof (Z.mod_pos_bound m (2 ^ Z.of_nat n) Hp) as HA.
      pose proof (Z.mod_pos_bound (m / 2 ^ Z.of_nat n) 2 ltac:(lia)) as HB.
      set (A := m mod 2 ^ Z.of_nat n) in *.
      set (B := (m / 2 ^ Z.of_nat n) mod 2) in *.
      set (P := 2 ^ Z.of_nat n) in *. clearbody A B P.
      destruct (Z.eqb_spec A 0), (Z.eqb_spec B 0), (Z.eqb_spec (A + P * B) 0);
        simpl; try reflexivity; exfalso; nia.
Qed.

(** [shr] of an exact record by [n > 0] bits. *)
Lemma shr_spec (m e n : Z) :
  0 <= m -> 0 < n ->
  let '(r, e') := shr {| shr_m := m; shr_r := false; shr_s := false |} e n in
  e' = e + n /\ shr_m r = m / 2 ^ n /\ inexact r = negb (m mod 2 ^ n =? 0).
Proof.
  intros Hm Hn. destruct n as [|p|p]; try lia. simpl shr.
  rewrite iter_pos_nat. pose proof (shr_iter_spec (Pos.to_nat p) m Hm) as H.
  rewrite positive_nat_Z in H. cbv zeta in H. split; [reflexivity|exact H].
Qed.

Lemma shr_nop (r : shr_record) (e n : Z) : n <= 0 -> shr r e n = (r, e).
Proof. intros Hn. destruct n; [reflexivity|lia|reflexivity]. Qed.

Lemma loc_exact_iff (r : shr_record) :
  loc_of_shr_record r = loc_Exact <-> inexact r = false.
Proof. destruct r as [m [] []]; simpl; unfold inexact; simpl; split; congruence. Qed.

Lemma rne_cases (mx : Z) (r : shr_record) :
  round_nearest_even mx (loc_of_shr_record r) = mx \/
  (inexact r = true /\ round_nearest_even mx (loc_of_shr_record r) = mx + 1).
Proof.
  destruct r as [m [] []]; simpl; unfold inexact; simpl; auto.
  destruct (Z.even mx); auto.
Qed.

Lemma fexp_normal (x : Z) : -1074 <= x - 53 -> fexp prec emax x = x - 53.
Proof. intros H. unfold fexp, emin, prec, emax. lia. Qed.

(** A mantissa of exactly 53 digits in the normal range needs no shift. *)
Lemma shr_fexp_canonical (m : positive) (e : Z) :
  Z.pos (digits2_pos m) = 53 -> -1074 <= e ->
  shr_fexp prec emax (Z.pos m) e loc_Exact
  = ({| shr_m := Z.pos m; shr_r := false; shr_s := false |}, e).
Proof.
  intros Hd He. unfold shr_fexp. simpl Zdigits2. rewrite Hd.
  rewrite fexp_normal by lia. apply shr_nop. lia.
Qed.

(** Rounding a positive mantissa of at least 53 digits to 53: the result
    is the mantissa shifted right by [s = d - 53] bits, or one more when
    bits were lost; its value is written with 53 digits. *)
Lemma binary_round_aux_spec (sx : bool) (M : positive) (E : Z) :
  let d := Z.pos (digits2_pos M) in
  let s := d - 53 in
  53 <= d -> -1074 <= E + s -> E + s + 1 <= 971 ->
  exists (m' : positive) (e' : Z),
    binary_round_aux prec emax sx (Z.pos M) E loc_Exact = S754_finite sx m' e' /\
    Z.pos (digits2_pos m') = 53 /\ E + s <= e' /\
    (Z.pos m' * 2 ^ (e' - (E + s)) = Z.pos M / 2 ^ s \/
     (Z.pos M mod 2 ^ s <> 0 /\ Z.pos m' * 2 ^ (e' - (E + s)) = Z.pos M / 2 ^ s + 1)).
Proof.
  intros d s Hd Hlo Hhi.
  pose proof (digits2_pos_bounds M) as HM. fold d in HM.
  assert (Hs : 0 <= s) by (unfold s; lia).
  assert (Hps : 0 < 2 ^ s) by (apply Z.pow_pos_nonneg; lia).
  assert (Hq : 2 ^ 52 <= Z.pos M / 2 ^ s < 2 ^ 53).
  { assert (Hd1 : 2 ^ (d - 1) = 2 ^ 52 * 2 ^ s) by (rewrite <- Z.pow_add_r by lia; f_equal; unfold s; lia).
    assert (Hd2 : 2 ^ d = 2 ^ 53 * 2 ^ s) by (rewrite <- Z.pow_add_r by lia; f_equal; unfold s; lia).
    split.
    - apply Z.div_le_lower_bound; lia.
    - apply Z.div_lt_upper_bound; lia. }
  unfold binary_round_aux.
  assert (Hshift : fexp prec emax (Zdigits2 (Z.pos M) + E) - E = s).
  { simpl Zdigits2. fold d. rewrite fexp_normal by (unfold s in *; lia). unfold s. lia. }
  (* the first shift *)
  assert (Hfirst : exists r, shr_fexp prec emax (Z.pos M) E loc_Exact = (r, E + s) /\
                     shr_m r = Z.pos M / 2 ^ s /\
                     inexact r = negb (Z.pos M mod 2 ^ s =? 0)).
  { unfold shr_fexp. rewrite Hshift. simpl shr_record_of_loc.
    destruct (Z.eq_dec s 0) as [Hs0|Hs0].
    - rewrite Hs0. simpl shr. eexists. split; [rewrite Z.add_0_r; reflexivity|].
      simpl. rewrite Z.div_1_r, Z.mod_1_r. split; reflexivity.
    - pose proof (shr_spec (Z.pos M) E s ltac:(lia) ltac:(lia)) as H.
      destruct (shr _ E s) as [r e1]. destruct H as (-> & H1 & H2). eauto. }
  destruct Hfirst as (r & -> & Hr & Hi).
  (* rounding to nearest *)
  assert (Hround : exists q : positive,
            round_nearest_even (shr_m r) (loc_of_shr_record r) = Z.pos q /\
            (Z.pos q = Z.pos M / 2 ^ s \/
             (Z.pos M mod 2 ^ s <> 0 /\ Z.pos q = Z.pos M / 2 ^ s + 1))).
  { destruct (rne_cases (shr_m r) r) as [H|[Hin H]]; rewrite H, Hr.
    - destruct (Z.pos M / 2 ^ s) as [|q|q] eqn:Eq; try lia. exists q. auto.
    - destruct (Z.pos M / 2 ^ s + 1) as [|q|q] eqn:Eq; try lia. exists q. split; [reflexivity|].
      right. split; [|reflexivity]. rewrite Hi in Hin.
      destruct (Z.eqb_spec (Z.pos M mod 2 ^ s) 0); [discriminate|assumption]. }
  destruct Hround as (q & -> & Hqv).
  assert (Hqb : 2 ^ 52 <= Z.pos q <= 2 ^ 53) by (destruct Hqv as [->|[_ ->]]; lia).
  destruct (Z.eq_dec (Z.pos q) (2 ^ 53)) as [Htop|Htop].
  - (* the mantissa overflowed to 2^53: one more shift *)
    assert (Hdq : Z.pos (digits2_pos q) = 54)
      by (apply digits2_pos_unique; rewrite Htop; simpl; lia).
    unfold shr_fexp. simpl Zdigits2. rewrite Hdq.
    rewrite fexp_normal by lia. simpl shr_record_of_loc.
    replace (54 + (E + s) - 53 - (E + s)) with 1 by lia.
    pose proof (shr_spec (Z.pos q) (E + s) 1 ltac:(lia) ltac:(lia)) as H.
    destruct (shr _ (E + s) 1) as [r2 e2]. destruct H as (-> & H1 & _).
    rewrite H1, Htop. change (2 ^ 53 / 2 ^ 1) with (Z.pos 4503599627370496).
    cbv iota beta. unfold prec, emax.
    destruct (Z.leb_spec (E + s + 1) (1024 - 53)); [|lia].
    exists 4503599627370496%positive, (E + s + 1).
    split; [reflexivity|]. split; [reflexivity|]. split; [lia|].
    replace (E + s + 1 - (E + s)) with 1 by lia.
    change (Z.pos 4503599627370496 * 2 ^ 1) with (2 ^ 53). rewrite <- Htop.
    destruct Hqv as [->|[? ->]]; auto.
  - assert (Hdq : Z.pos (digits2_pos q) = 53)
      by (apply digits2_pos_unique; simpl; lia).
    rewrite shr_fexp_canonical by (assumption || lia). simpl shr_m.
    cbv iota beta. unfold prec, emax.
    destruct (Z.leb_spec (E + s) (1024 - 53)); [|lia].
    exists q, (E + s). split; [reflexivity|]. split; [assumption|]. split; [lia|].
    rewrite Z.sub_diag, Z.mul_1_r. assumption.
Qed.

(** A canonical input is returned as it is. *)
Lemma binary_round_aux_canonical (sx : bool) (m : positive) (e : Z) :
  Z.pos (digits2_pos m) = 53 -> -1074 <= e <= 971 ->
  binary_round_aux prec emax sx (Z.pos m) e loc_Exact = S754_finite sx m e.
Proof.
  intros Hd He. unfold binary_round_aux.
  rewrite shr_fexp_canonical by (assumption || lia). simpl.
  rewrite shr_fexp_canonical by (assumption || lia). simpl.
  unfold prec, emax. destruct (Z.leb_spec e (1024 - 53)); [reflexivity|lia].
Qed.

Lemma iter_xO (m k : positive) : Z.pos (Pos.iter xO m k) = Z.pos m * 2 ^ Z.pos k.
Proof.
  induction k as [|k IH] using Pos.peano_ind.
  - simpl. lia.
  - rewrite Pos.iter_succ, Pos2Z.inj_xO, IH, Pos2Z.inj_succ.
    unfold Z.succ. rewrite pow2_succ by lia. lia.
Qed.

(** The Number value of a positive integer below 2^53 is that integer,
    written with 53 digits. *)
Lemma of_Z_pos (n : Z) :
  0 < n < 2 ^ 53 ->
  exists (m : positive) (d : Z),
    of_Z n = S754_finite false m (d - 53) /\
    Z.pos (digits2_pos m) = 53 /\ 1 <= d <= 53 /\
    2 ^ (d - 1) <= n < 2 ^ d /\
    Z.pos m = n * 2 ^ (53 - d).
Proof.
  intros Hn. destruct n as [|p|p]; try lia.
  pose proof (digits2_pos_bounds p) as Hb.
  set (d := Z.pos (digits2_pos p)) in *.
  assert (Hd : 1 <= d <= 53).
  { split; [unfold d; lia|].
    destruct (Z_le_gt_dec d 53); [assumption|].
    assert (2 ^ 53 <= 2 ^ (d - 1)) by (apply Z.pow_le_mono_r; lia). lia. }
  unfold of_Z, binary_normalize, binary_round.
  fold d. rewrite Z.add_0_r, fexp_normal by lia.
  unfold shl_align. rewrite Z.sub_0_r.
  destruct (d - 53) as [|k|k] eqn:Ek; try lia.
  - (* 53 digits already *)
    exists p, d. rewrite binary_round_aux_canonical by (fold d; lia).
    replace (53 - d) with 0 by lia.
    rewrite Z.mul_1_r, Ek. repeat split; try lia; try (fold d; lia).
  - assert (Hk : Z.pos k = 53 - d) by lia.
    assert (Hv : Z.pos (Pos.iter xO p k) = Z.pos p * 2 ^ (53 - d))
      by (rewrite iter_xO, Hk; reflexivity).
    assert (Hdm : Z.pos (digits2_pos (Pos.iter xO p k)) = 53).
    { apply digits2_pos_unique. rewrite Hv. change (53 - 1) with 52.
      assert (A1 : 2 ^ 52 = 2 ^ (d - 1) * 2 ^ (53 - d)) by (rewrite <- Z.pow_add_r by lia; f_equal; lia).
      assert (A2 : 2 ^ 53 = 2 ^ d * 2 ^ (53 - d)) by (rewrite <- Z.pow_add_r by lia; f_equal; lia).
      assert (0 < 2 ^ (53 - d)) by (apply Z.pow_pos_nonneg; lia).
      rewrite A1, A2.
      split; [apply Z.mul_le_mono_nonneg_r; lia | apply Z.mul_lt_mono_pos_r; lia]. }
    exists (Pos.iter xO p k), d.
    rewrite binary_round_aux_canonical by (assumption || lia).
    rewrite <- Ek. repeat split; try lia; assumption.
Qed.

Lemma pow2_pos (e : Z) : 0 <= e -> 0 < 2 ^ e.
Proof. intros. apply Z.pow_pos_nonneg; lia. Qed.

Lemma pow2_split (a b : Z) : 0 <= a -> 0 <= b -> 2 ^ (a + b) = 2 ^ a * 2 ^ b.
Proof. intros. apply Z.pow_add_r; assumption. Qed.

(** The product of a positive integer below 2^45 and a constant near 1,
    rounded by [Math.round]. [K] is the integer the exact product of [n]
    and the binary64 constant [Cm * 2^Ce] rounds to, with a margin of
    [2n / 2^-Ce] below the next half. *)
Lemma round_mul (n K : Z) (Cm : positive) (Ce : Z) :
  0 < n < 2 ^ 45 ->
  Z.pos (digits2_pos Cm) = 53 -> -53 <= Ce <= -52 -> 1 <= K ->
  (2 * K - 1) * 2 ^ (- Ce) <= 2 * n * Z.pos Cm ->
  4 * n <= (2 * K + 1) * 2 ^ (- Ce) - 2 * n * Z.pos Cm ->
  round (mul (of_Z n) (S754_finite false Cm Ce)) = of_Z K.
Proof.
  intros Hn HCd HCe HK Hlow Hup.
  destruct (of_Z_pos n) as (mz & d & -> & Hdz & Hd & Hnb & Hmz); [simpl in *; lia|].
  assert (Hd45 : d <= 45).
  { destruct (Z_le_gt_dec d 45); [assumption|].
    assert (2 ^ 45 <= 2 ^ (d - 1)) by (apply Z.pow_le_mono_r; lia). lia. }
  unfold mul, SFmul. simpl xorb.
  pose proof (digits2_pos_bounds mz) as Bz. rewrite Hdz in Bz.
  pose proof (digits2_pos_bounds Cm) as Bc. rewrite HCd in Bc.
  pose proof (digits2_pos_bounds (mz * Cm)) as BM.
  set (M := (mz * Cm)%positive) in *.
  assert (HMv : Z.pos M = Z.pos mz * Z.pos Cm) by (unfold M; apply Pos2Z.inj_mul).
  set (dM := Z.pos (digits2_pos M)) in *.
  assert (HdM : 105 <= dM <= 106).
  { assert (2 ^ 104 <= Z.pos M < 2 ^ 106).
    { rewrite HMv. change (2 ^ 104) with (2 ^ 52 * 2 ^ 52).
      change (2 ^ 106) with (2 ^ 53 * 2 ^ 53). simpl in Bz, Bc. nia. }
    split.
    - destruct (Z_le_gt_dec 105 dM); [assumption|].
      assert (2 ^ dM <= 2 ^ 104) by (apply Z.pow_le_mono_r; lia). lia.
    - destruct (Z_le_gt_dec dM 106); [assumption|].
      assert (2 ^ 106 <= 2 ^ (dM - 1)) by (apply Z.pow_le_mono_r; lia). lia. }
  destruct (binary_round_aux_spec false M (d - 53 + Ce)) as (m' & e' & -> & Hd' & He' & Hq);
    fold dM; try lia.
  fold dM in He', Hq.
  set (s := dM - 53) in *. set (E := d - 53 + Ce) in *.
  pose proof (digits2_pos_bounds m') as Bm. rewrite Hd' in Bm. simpl in Bm.
  (* the powers of two involved *)
  set (t := - (E + s)).
  assert (Ht : 7 <= t) by (unfold t, E, s; lia).
  assert (HP : 0 < 2 ^ (53 - d)) by (apply pow2_pos; lia).
  assert (HS : 0 < 2 ^ s) by (apply pow2_pos; unfold s; lia).
  assert (HT : 0 < 2 ^ (t - 1)) by (apply pow2_pos; lia).
  assert (HG : 0 < 2 ^ (- Ce)) by (apply pow2_pos; lia).
  assert (F1 : 2 ^ (53 - d) * 2 ^ (- Ce) = 2 * 2 ^ (t - 1) * 2 ^ s).
  { rewrite <- !pow2_split by (unfold s; lia).
    rewrite <- (pow2_succ (t - 1)) by lia.
    rewrite <- pow2_split by (unfold s; lia). f_equal. unfold t, E. lia. }
  assert (F2 : 2 ^ 52 <= n * 2 ^ (53 - d)).
  { assert (2 ^ 52 = 2 ^ (d - 1) * 2 ^ (53 - d)) as ->
      by (rewrite <- pow2_split by lia; f_equal; lia).
    apply Z.mul_le_mono_nonneg_r; lia. }
  assert (F3 : 2 ^ s <= 2 ^ 53) by (apply Z.pow_le_mono_r; unfold s; lia).
  assert (F4 : Z.pos M < 2 ^ 53 * 2 ^ s).
  { rewrite <- pow2_split by (unfold s; lia). replace (53 + s) with dM by (unfold s; lia). lia. }
  rewrite Hmz in HMv.
  set (P := 2 ^ (53 - d)) in *. set (S := 2 ^ s) in *.
  set (T2 := 2 ^ (t - 1)) in *. set (G := 2 ^ (- Ce)) in *.
  set (C := Z.pos Cm) in *.
  assert (Hq0 : Z.pos M / S < 2 ^ 53) by (apply Z.div_lt_upper_bound; lia).
  assert (Hl : (2 * K - 1) * T2 <= Z.pos M / S).
  { apply Z.div_le_lower_bound; [lia|]. rewrite HMv.
    assert (P * ((2 * K - 1) * G) <= P * (2 * n * C)) by (apply Z.mul_le_mono_nonneg_l; lia).
    nia. }
  assert (Hu : Z.pos M <= ((2 * K + 1) * T2 - 1) * S).
  { rewrite HMv.
    assert (P * (4 * n) <= P * ((2 * K + 1) * G - 2 * n * C)) by (apply Z.mul_le_mono_nonneg_l; lia).
    simpl in F2, F3. nia. }
  (* the exponent of the result is that of the shift, or one more *)
  set (k := e' - (E + s)) in *.
  assert (Hk : k = 0 \/ k = 1).
  { assert (0 <= k) by (unfold k; lia).
    destruct (Z_le_gt_dec k 1); [lia|].
    assert (2 ^ 2 <= 2 ^ k) by (apply Z.pow_le_mono_r; lia).
    simpl in *. destruct Hq as [Hq|[_ Hq]]; nia. }
  assert (Hqr : (2 * K - 1) * T2 <= Z.pos m' * 2 ^ k <= (2 * K + 1) * T2 - 1).
  { destruct Hq as [->|[Hne ->]]; split; try lia.
    - apply Z.div_le_upper_bound; lia.
    - assert (Z.pos M / S < (2 * K + 1) * T2 - 1); [|lia].
      apply Z.div_lt_upper_bound; [lia|].
      destruct (Z.eq_dec (Z.pos M) (((2 * K + 1) * T2 - 1) * S)) as [Heq|]; [|lia].
      exfalso. apply Hne. rewrite Heq. apply Z.mod_mul. lia. }
  unfold round.
  assert (He'n : e' = k - t) by (unfold k, t; lia).
  destruct (Z.leb_spec 0 e'); [lia|].
  assert (Hres : (2 * Z.pos m' + 2 ^ (- e')) / 2 ^ (1 - e') = K).
  { assert (Hpk : 0 < 2 ^ (1 - e')) by (apply pow2_pos; lia).
    assert (K <= (2 * Z.pos m' + 2 ^ (- e')) / 2 ^ (1 - e') < K + 1); [|lia].
    destruct Hk as [Hk|Hk]; rewrite Hk in *.
    - replace (- e') with (t - 1 + 1) in * by lia.
      replace (1 - e') with (t - 1 + 1 + 1) in * by lia.
      rewrite !pow2_succ in * by lia. fold T2 in Hpk |- *.
      rewrite Z.pow_0_r, Z.mul_1_r in Hqr.
      split; [apply Z.div_le_lower_bound | apply Z.div_lt_upper_bound]; lia.
    - replace (- e') with (t - 1) in * by lia.
      replace (1 - e') with (t - 1 + 1) in * by lia.
      rewrite !pow2_succ in * by lia. fold T2 in Hpk |- *.
      rewrite Z.pow_1_r in Hqr.
      split; [apply Z.div_le_lower_bound | apply Z.div_lt_upper_bound]; lia. }
  cbv zeta. rewrite Hres.
  destruct (Z.eqb_spec K 0); [lia|reflexivity].
Qed.

(** Adding one to a positive integer stays exact below 2^53. *)
Lemma add_one (a : Z) :
  0 < a -> a + 1 < 2 ^ 53 -> add (of_Z a) (of_Z 1) = of_Z (a + 1).
Proof.
  intros Ha Hb.
  destruct (of_Z_pos a) as (mz & d & -> & Hdz & Hd & Hab & Hmz); [lia|].
  destruct (of_Z_pos (a + 1)) as (m1 & D & -> & Hd1 & HD & HaD & Hm1); [lia|].
  change (of_Z 1) with (S754_finite false 4503599627370496 (-52)).
  unfold add, SFadd. rewrite Z.min_r by lia.
  (* aligning both mantissas at exponent -52 *)
  assert (Hal : Z.pos (shl_align mz (d - 53) (-52)).1 = a * 2 ^ 52).
  { unfold shl_align. destruct (-52 - (d - 53)) as [|k|k] eqn:Ek; try lia; simpl fst.
    - rewrite Hmz. replace (53 - d) with 52 by lia. reflexivity.
    - rewrite iter_xO, Hmz. replace (Z.pos k) with (d - 1) by lia.
      rewrite <- Z.mul_assoc, <- pow2_split by lia. do 2 f_equal. lia. }
  change (shl_align 4503599627370496 (-52) (-52)).1 with 4503599627370496%positive.
  unfold cond_Zopp. rewrite Hal.
  replace (a * 2 ^ 52 + 4503599627370496) with ((a + 1) * 2 ^ 52)
    by (change (2 ^ 52) with 4503599627370496; lia).
  destruct ((a + 1) * 2 ^ 52) as [|sum|sum] eqn:Esum;
    [change (2 ^ 52) with 4503599627370496 in Esum; lia | |
     change (2 ^ 52) with 4503599627370496 in Esum; lia].
  unfold binary_normalize, binary_round.
  (* the sum has [D + 52] digits *)
  assert (Hds : Z.pos (digits2_pos sum) = D + 52).
  { apply digits2_pos_unique. rewrite <- Esum.
    replace (D + 52 - 1) with (D - 1 + 52) by lia.
    rewrite !pow2_split by lia.
    assert (0 < 2 ^ 52) by (apply pow2_pos; lia).
    split; [apply Z.mul_le_mono_nonneg_r; lia | apply Z.mul_lt_mono_pos_r; lia]. }
  rewrite Hds, fexp_normal by lia.
  unfold shl_align.
  destruct (D + 52 + -52 - 53 - -52) as [|k|k] eqn:Ek; try lia.
  - (* D = 1: no shift at all *)
    assert (D = 1) by lia. subst D.
    rewrite binary_round_aux_canonical by (rewrite ?Hds; lia).
    f_equal. apply Pos2Z.inj. rewrite Hm1, <- Esum. reflexivity.
  - destruct (binary_round_aux_spec false sum (-52)) as (m' & e' & -> & Hd' & He' & Hq);
      rewrite ?Hds; try lia.
    rewrite Hds in He', Hq.
    replace (D + 52 - 53) with (D - 1) in * by lia.
    assert (HS : 0 < 2 ^ (D - 1)) by (apply pow2_pos; lia).
    assert (Hdiv : Z.pos sum = (a + 1) * 2 ^ (53 - D) * 2 ^ (D - 1)).
    { rewrite <- Esum, <- Z.mul_assoc, <- pow2_split by lia. do 2 f_equal. lia. }
    assert (Hq0 : Z.pos sum / 2 ^ (D - 1) = Z.pos m1)
      by (rewrite Hdiv, Z.div_mul, Hm1 by lia; reflexivity).
    assert (Hmod : Z.pos sum mod 2 ^ (D - 1) = 0)
      by (rewrite Hdiv; apply Z.mod_mul; lia).
    destruct Hq as [Hq|[Hne _]]; [|contradiction].
    rewrite Hq0 in Hq.
    pose proof (digits2_pos_bounds m') as B'. rewrite Hd' in B'.
    pose proof (digits2_pos_bounds m1) as B1. rewrite Hd1 in B1.
    simpl in B', B1.
    assert (He : e' = -52 + (D - 1)).
    { destruct (Z.eq_dec e' (-52 + (D - 1))); [assumption|].
      assert (2 ^ 1 <= 2 ^ (e' - (-52 + (D - 1)))) by (apply Z.pow_le_mono_r; lia).
      simpl in *. nia. }
    rewrite He, Z.sub_diag, Z.mul_1_r in Hq. apply Pos2Z.inj in Hq. subst m'.
    f_equal. lia.
Qed.

(** The integer nearest to [n * num / den], ties upwards. *)
Definition half_up (num den n : Z) : Z := (2 * num * n + den) / (2 * den).

Ltac round_mul_instance :=
  intros; apply round_mul; try reflexivity; try lia;
  unfold half_up; change (2 ^ (- -52)) with 4503599627370496;
  change (2 ^ (- -53)) with 9007199254740992;
  change (2 ^ 45) with 35184372088832 in *;
  Z.div_mod_to_equations; lia.

Lemma round_mul_0_5 (n : Z) :
  0 < n < 2 ^ 45 -> round (mul (of_Z n) c_0_5) = of_Z (half_up 1 2 n).
Proof. round_mul_instance. Qed.

Lemma round_mul_0_55 (n : Z) :
  0 < n < 2 ^ 45 -> round (mul (of_Z n) c_0_55) = of_Z (half_up 11 20 n).
Proof. round_mul_instance. Qed.

Lemma round_mul_0_75 (n : Z) :
  0 < n < 2 ^ 45 -> round (mul (of_Z n) c_0_75) = of_Z (half_up 3 4 n).
Proof. round_mul_instance. Qed.

Lemma round_mul_1_1 (n : Z) :
  0 < n < 2 ^ 45 -> round (mul (of_Z n) c_1_1) = of_Z (half_up 11 10 n).
Proof. round_mul_instance. Qed.

Lemma round_mul_1_2 (n : Z) :
  0 < n < 2 ^ 45 -> round (mul (of_Z n) c_1_2) = of_Z (half_up 6 5 n).
Proof. round_mul_instance. Qed.

Lemma round_mul_1_5 (n : Z) :
  0 < n < 2 ^ 45 -> round (mul (of_Z n) c_1_5) = of_Z (half_up 3 2 n).
Proof. round_mul_instance. Qed.

End NumberFacts.

(** ** Facts: the zone previews *)

Module ZonesFacts.
Import Number Zones NumberFacts.

(** Contiguous zones: the first starts at [lower], each next one a unit
    above the upper bound of the one before. *)
Fixpoint zones_from (lower : Z) (bounds : list (string * Z)) : list Row :=
  match bounds with
  | [] => []
  | (name, upper) :: rest =>
      {| label := name; lower := of_Z lower; upper := of_Z upper |}
        :: zones_from (upper + 1) rest
  end.

Lemma parseInt_filled (field : string) (n : Z) :
  0 < n < 2 ^ 53 -> parseInt field = of_Z n -> filled field = true.
Proof.
  intros Hn H. destruct field; [|reflexivity].
  destruct (of_Z_pos n Hn) as (m & d & E & _). rewrite E in H. discriminate.
Qed.

Lemma half_up_pos (num den n : Z) :
  0 < den -> den <= 2 * num -> 0 < n -> 0 < half_up num den n.
Proof.
  intros Hd Hc Hn. unfold half_up. apply Z.div_str_pos. nia.
Qed.

Lemma half_up_bound (num den n : Z) :
  0 < den -> 0 < num -> num <= 2 * den -> 0 < n < 2 ^ 45 -> half_up num den n + 1 < 2 ^ 53.
Proof.
  intros Hd Hn Hc Hb. unfold half_up.
  assert ((2 * num * n + den) / (2 * den) <= 2 * n + 1).
  { apply Z.div_le_upper_bound; nia. }
  change (2 ^ 45) with 35184372088832 in Hb. change (2 ^ 53) with 9007199254740992. lia.
Qed.

(** The zones of thresholds [L], [M] and [P] with every product rounded
    exactly. *)
Definition expected (L M P : Z) : option Shown :=
  Some
    {| hr := Some (zones_from 0
         [ ("Zone 1 - Recovery:", half_up 1 2 L);
           ("Zone 2 - Endurance:", half_up 3 4 L);
           ("Zone 3 - Tempo:", L);
           ("Zone 4 - Threshold:", half_up 11 10 L);
           ("Zone 5 - Max:", M) ]);
       power := Some (zones_from 0
         [ ("Zone 1 - Active:", half_up 11 20 P);
           ("Zone 2 - Endurance:", half_up 3 4 P);
           ("Zone 3 - Sweet Spot:", P);
           ("Zone 4 - VO2 Max:", half_up 6 5 P);
           ("Zone 5 - Anaerobic:", half_up 3 2 P) ]) |}.

Definition form (lthr maxHr ftp : string) : Form :=
  {| f_threshold_hr := lthr; f_max_hr := maxHr; f_resting_hr := "";
     f_threshold_power := ftp; f_running_threshold_power := "";
     f_critical_power := "" |}.

(** C2, as amended. For thresholds that read as positive integers [L], [M] and [P]
    ([L] and [P] below 2^45, [M] below 2^53), the preview shows five
    heart-rate zones with upper bounds round(0.5 L), round(0.75 L), [L],
    round(1.1 L), [M] and five power zones with upper bounds round(0.55 P),
    round(0.75 P), [P], round(1.2 P), round(1.5 P); zone 1 starts at 0 and
    every other zone one above the upper bound of the zone before. *)
Theorem preview_zones (thresholds : Form) (L M P : Z) :
  0 < L < 2 ^ 45 -> 0 < M < 2 ^ 53 -> 0 < P < 2 ^ 45 ->
  parseInt (f_threshold_hr thresholds) = of_Z L ->
  parseInt (f_max_hr thresholds) = of_Z M ->
  parseInt (f_threshold_power thresholds) = of_Z P ->
  ThresholdsTab_preview thresholds = expected L M P.
Proof.
  intros HL HM HP EL EM EP.
  assert (HL53 : 0 < L < 2 ^ 53)
    by (change (2 ^ 45) with 35184372088832 in HL; change (2 ^ 53) with 9007199254740992; lia).
  assert (HP53 : 0 < P < 2 ^ 53)
    by (change (2 ^ 45) with 35184372088832 in HP; change (2 ^ 53) with 9007199254740992; lia).
  unfold ThresholdsTab_preview, expected.
  rewrite (parseInt_filled _ L HL53 EL), (parseInt_filled _ M HM EM),
    (parseInt_filled _ P HP53 EP).
  rewrite EL, EM, EP. cbn [orb andb app zones_from].
  rewrite !round_mul_0_5, !round_mul_0_55, !round_mul_0_75, !round_mul_1_1,
    !round_mul_1_2, !round_mul_1_5 by assumption.
  rewrite !add_one;
    try (apply half_up_pos; lia); try (apply half_up_bound; lia); try lia.
  reflexivity.
Qed.

Lemma preview_zones_witness :
  ThresholdsTab_preview (form "180" "200" "250") = Some
    {| hr := Some (zones_from 0
         [ ("Zone 1 - Recovery:", 90); ("Zone 2 - Endurance:", 135);
           ("Zone 3 - Tempo:", 180); ("Zone 4 - Threshold:", 198);
           ("Zone 5 - Max:", 200) ]);
       power := Some (zones_from 0
         [ ("Zone 1 - Active:", 138); ("Zone 2 - Endurance:", 188);
           ("Zone 3 - Sweet Spot:", 250); ("Zone 4 - VO2 Max:", 300);
           ("Zone 5 - Anaerobic:", 375) ]) |}.
Proof.
  apply (preview_zones _ 180 200 250); try reflexivity; vm_compute; split; congruence.
Defined.

(** C2 as stated fails: with larger thresholds the binary64 products are no
    longer rounded as the exact ones are. 1.1 times 562949953421314 is
    619244948763445.4, but the binary64 product is 619244948763445.5 and the
    bound is shown as 619244948763446. *)
Lemma preview_zones_large_threshold :
  let thresholds := form "562949953421314" "200" "250" in
  parseInt (f_threshold_hr thresholds) = of_Z 562949953421314 /\
  parseInt (f_max_hr thresholds) = of_Z 200 /\
  parseInt (f_threshold_power thresholds) = of_Z 250 /\
  half_up 11 10 562949953421314 = 619244948763445 /\
  (exists rows,
     (ThresholdsTab_preview thresholds ≫= hr) = Some rows /\
     upper <$> rows !! 3%nat = Some (of_Z 619244948763446)) /\
  of_Z 619244948763446 <> of_Z 619244948763445 /\
  ThresholdsTab_preview thresholds <> expected 562949953421314 200 250.
Proof.
  cbv zeta. repeat split; try reflexivity.
  - eexists. split; vm_compute; reflexivity.
  - vm_compute. congruence.
  - vm_compute. congruence.
Qed.

Lemma positive_number (M : Z) :
  0 < M < 2 ^ 53 -> truthy (of_Z M) = true /\ gtb (of_Z M) (of_Z 0) = true.
Proof.
  intros H. destruct (of_Z_pos M H) as (m & d & E & _). rewrite E. split; reflexivity.
Qed.

(** C3 (the zones tab). With a maximum heart rate [M] stored and no LTHR,
    the "Your Zones" summary still shows the five heart-rate zones, computed
    with 0 in the place of the LTHR: 0 - 0, 1 - 0, 1 - 0, 1 - 0 and 1 - M. *)
Theorem summary_substitutes_zero (u : User) (t : ThresholdValues) (M : Z) :
  user_thresholds u = Some t -> threshold_hr t = None ->
  max_hr t = Some (of_Z M) -> 0 < M < 2 ^ 53 ->
  (ZonesTab_summary (Some u) ≫= hr) = Some (zones_from 0
     [ ("Zone 1 - Recovery:", 0);
       ("Zone 2 - Endurance:", 0);
       ("Zone 3 - Tempo:", 0);
       ("Zone 4 - Threshold:", 0);
       ("Zone 5 - Max:", M) ]).
Proof.
  intros Ht Hl Hm HM. destruct (positive_number M HM) as [T G].
  unfold ZonesTab_summary, stored. rewrite Ht, Hl, Hm.
  cbn [or_zero]. rewrite T, G. reflexivity.
Qed.

Definition athlete (t : ThresholdValues) : User :=
  {| user_id := "1"; user_email := "athlete@example.org"; user_name := "A";
     user_primary_sport := "cycling"; user_coach_settings := None;
     user_thresholds := Some t |}.

Definition only_max_hr (M : Z) : ThresholdValues :=
  {| threshold_hr := None; max_hr := Some (of_Z M); resting_hr := None;
     threshold_power := None; running_threshold_power := None;
     critical_power := None |}.

Lemma summary_substitutes_zero_witness :
  (ZonesTab_summary (Some (athlete (only_max_hr 200))) ≫= hr) = Some
    [ {| label := "Zone 1 - Recovery:"; lower := of_Z 0; upper := of_Z 0 |};
      {| label := "Zone 2 - Endurance:"; lower := of_Z 1; upper := of_Z 0 |};
      {| label := "Zone 3 - Tempo:"; lower := of_Z 1; upper := of_Z 0 |};
      {| label := "Zone 4 - Threshold:"; lower := of_Z 1; upper := of_Z 0 |};
      {| label := "Zone 5 - Max:"; lower := of_Z 1; upper := of_Z 200 |} ].
Proof.
  apply (summary_substitutes_zero _ (only_max_hr 200) 200); try reflexivity.
  vm_compute. split; congruence.
Defined.

(** The other two displays do withhold: the preview of the thresholds tab
    shows no heart-rate row when the LTHR field is empty and no power block
    when the FTP field is empty, and the zone tables of the zones tab show a
    dash for every bound that depends on a missing threshold. *)
Lemma preview_withholds_hr (thresholds : Form) :
  f_threshold_hr thresholds = "" ->
  (ThresholdsTab_preview thresholds ≫= hr) = None \/
  (ThresholdsTab_preview thresholds ≫= hr) = Some [].
Proof.
  intros E. unfold ThresholdsTab_preview. rewrite E.
  destruct (f_max_hr thresholds), (f_threshold_power thresholds);
    (left; reflexivity) || (right; reflexivity).
Qed.

Lemma preview_withholds_power (thresholds : Form) :
  f_threshold_power thresholds = "" ->
  (ThresholdsTab_preview thresholds ≫= power) = None.
Proof.
  intros E. unfold ThresholdsTab_preview. rewrite E.
  destruct (f_threshold_hr thresholds), (f_max_hr thresholds); reflexivity.
Qed.

Lemma hrZones_dashes (u : User) (t : ThresholdValues) :
  user_thresholds u = Some t -> threshold_hr t = None ->
  take 4 (ZonesTab_hrZones (Some u)) =
    [ ("Recovery", None); ("Endurance", None); ("Tempo", None); ("Threshold", None) ].
Proof.
  intros Ht Hl. unfold ZonesTab_hrZones, stored. rewrite Ht, Hl. reflexivity.
Qed.

Lemma powerZones_dashes (u : User) (t : ThresholdValues) :
  user_thresholds u = Some t -> threshold_power t = None ->
  ZonesTab_powerZones (Some u) =
    [ ("Active", None); ("Endurance", None); ("Sweet Spot", None);
      ("VO2 Max", None); ("Anaerobic", None) ].
Proof.
  intros Ht Hp. unfold ZonesTab_powerZones, stored. rewrite Ht, Hp. reflexivity.
Qed.

Lemma summary_withholds_power (u : User) (t : ThresholdValues) :
  user_thresholds u = Some t -> threshold_power t = None ->
  (ZonesTab_summary (Some u) ≫= power) = None.
Proof.
  intros Ht Hp. unfold ZonesTab_summary, stored. rewrite Ht, Hp.
  cbn [or_zero]. change (gtb (of_Z 0) (of_Z 0)) with false.
  destruct (_ || _); reflexivity.
Qed.

End ZonesFacts.

(** ** Facts: comparing numbers; the training status bands *)

Module CompareFacts.
Import Number NumberFacts.

(** The rational a finite number stands for. *)
Definition value (x : number) : Q :=
  match x with
  | S754_finite s m e =>
      let n := if s then Z.neg m else Z.pos m in
      if 0 <=? e then inject_Z (n * 2 ^ e) else Qmake n (Z.to_pos (2 ^ (- e)))
  | _ => 0%Q
  end.

Definition is_finite (x : number) : bool :=
  match x with
  | S754_finite _ _ _ | S754_zero _ => true
  | _ => false
  end.

(** The same value as a multiple of the least subnormal, 2^-1074. *)
Definition scaled (x : number) : Z :=
  match x with
  | S754_finite s m e => (if s then Z.neg m else Z.pos m) * 2 ^ (e + 1074)
  | _ => 0
  end.

Lemma bounded_inv (m : positive) (e : Z) :
  bounded prec emax m e = true ->
  Z.pos (digits2_pos m) <= 53 /\ -1074 <= e /\
  (Z.pos (digits2_pos m) = 53 \/ e = -1074).
Proof.
  unfold bounded, canonical_mantissa, fexp, emin, prec, emax.
  intros [H _]%andb_true_iff. apply Z.eqb_eq in H. lia.
Qed.

Lemma scaled_lt_pos (m1 m2 : positive) (e1 e2 : Z) :
  bounded prec emax m1 e1 = true -> bounded prec emax m2 e2 = true ->
  e1 < e2 -> Z.pos m1 * 2 ^ (e1 + 1074) < Z.pos m2 * 2 ^ (e2 + 1074).
Proof.
  intros (Hd1 & He1 & _)%bounded_inv (Hd2 & He2 & Hn2)%bounded_inv Hlt.
  destruct Hn2 as [Hn2|]; [|lia].
  pose proof (digits2_pos_bounds m1) as B1.
  pose proof (digits2_pos_bounds m2) as B2. rewrite Hn2 in B2. simpl in B2.
  assert (Z.pos m1 < 2 ^ 53).
  { apply Z.lt_le_trans with (2 ^ Z.pos (digits2_pos m1)); [lia|].
    apply Z.pow_le_mono_r; lia. }
  assert (H2 : 2 ^ (e2 + 1074) = 2 ^ (e2 - e1 - 1) * (2 * 2 ^ (e1 + 1074))).
  { rewrite <- pow2_succ, <- pow2_split by lia. f_equal. lia. }
  assert (0 < 2 ^ (e1 + 1074)) by (apply pow2_pos; lia).
  assert (1 <= 2 ^ (e2 - e1 - 1)) by (pose proof (pow2_pos (e2 - e1 - 1)); lia).
  rewrite H2. simpl in *. nia.
Qed.

(** Comparison of valid finite numbers is comparison of their values. *)
Lemma compare_scaled (x y : number) :
  valid_binary prec emax x = true -> valid_binary prec emax y = true ->
  is_finite x = true -> is_finite y = true ->
  SFcompare x y = Some (scaled x ?= scaled y).
Proof.
  intros Vx Vy Fx Fy.
  destruct x as [sx| | |sx mx ex], y as [sy| | |sy my ey]; try discriminate;
    cbn [SFcompare valid_binary is_finite scaled] in *.
  - reflexivity.
  - assert (0 < 2 ^ (ey + 1074)) by (apply pow2_pos; apply bounded_inv in Vy; lia).
    destruct sy; f_equal; symmetry; [apply Z.compare_gt_iff | apply Z.compare_lt_iff]; nia.
  - assert (0 < 2 ^ (ex + 1074)) by (apply pow2_pos; apply bounded_inv in Vx; lia).
    destruct sx; f_equal; symmetry; [apply Z.compare_lt_iff | apply Z.compare_gt_iff]; nia.
  - assert (Hx : 0 < 2 ^ (ex + 1074)) by (apply pow2_pos; apply bounded_inv in Vx; lia).
    assert (Hy : 0 < 2 ^ (ey + 1074)) by (apply pow2_pos; apply bounded_inv in Vy; lia).
    f_equal. destruct sx, sy.
    + (* both negative *)
      destruct (Z.compare_spec ex ey) as [->|Hlt|Hgt]; symmetry.
      * change (Pos.compare_cont Eq mx my) with (mx ?= my)%positive.
        rewrite Pos2Z.inj_compare, <- Z.compare_antisym.
        rewrite (Zmult_compare_compat_r (Z.pos my) (Z.pos mx) (2 ^ (ey + 1074))) by lia.
        change (Z.neg mx) with (- Z.pos mx). change (Z.neg my) with (- Z.pos my).
        rewrite !Z.mul_opp_l, Z.compare_opp. reflexivity.
      * apply Z.compare_gt_iff. pose proof (scaled_lt_pos mx my ex ey Vx Vy Hlt). lia.
      * apply Z.compare_lt_iff. pose proof (scaled_lt_pos my mx ey ex Vy Vx ltac:(lia)). lia.
    + symmetry. apply Z.compare_lt_iff. nia.
    + symmetry. apply Z.compare_gt_iff. nia.
    + destruct (Z.compare_spec ex ey) as [->|Hlt|Hgt]; symmetry.
      * change (Pos.compare_cont Eq mx my) with (mx ?= my)%positive.
        rewrite Pos2Z.inj_compare. symmetry. apply Zmult_compare_compat_r. lia.
      * apply Z.compare_lt_iff. apply scaled_lt_pos; assumption.
      * apply Z.compare_gt_iff. apply scaled_lt_pos; [assumption..|lia].
Qed.

Lemma ltb_scaled (x y : number) :
  valid_binary prec emax x = true -> valid_binary prec emax y = true ->
  is_finite x = true -> is_finite y = true ->
  ltb x y = (scaled x <? scaled y).
Proof.
  intros. unfold ltb, SFltb, Z.ltb. rewrite compare_scaled by assumption. reflexivity.
Qed.

(** Comparing the value with an integer. *)
Lemma value_lt_iff (x : number) (k : Z) :
  valid_binary prec emax x = true ->
  (value x < inject_Z k)%Q <-> scaled x < k * 2 ^ 1074.
Proof.
  intros V. destruct x as [s| | |s m e]; simpl.
  1-3: change 0%Q with (inject_Z 0); rewrite <- (Zlt_Qlt 0 k);
    assert (0 < 2 ^ 1074) by (apply pow2_pos; lia); nia.
  apply bounded_inv in V as (_ & He & _).
  set (n := if s then Z.neg m else Z.pos m).
  destruct (Z.leb_spec 0 e).
  - rewrite <- Zlt_Qlt. rewrite pow2_split by lia.
    assert (0 < 2 ^ 1074) by (apply pow2_pos; lia). nia.
  - unfold Qlt. simpl.
    assert (Hp : 0 < 2 ^ (- e)) by (apply pow2_pos; lia).
    rewrite Z2Pos.id by assumption.
    assert (H1 : 2 ^ 1074 = 2 ^ (e + 1074) * 2 ^ (- e))
      by (rewrite <- pow2_split by lia; f_equal; lia).
    assert (0 < 2 ^ (e + 1074)) by (apply pow2_pos; lia).
    rewrite H1. nia.
Qed.

Lemma value_ge_iff (x : number) (k : Z) :
  valid_binary prec emax x = true ->
  (inject_Z k <= value x)%Q <-> k * 2 ^ 1074 <= scaled x.
Proof.
  intros V. pose proof (value_lt_iff x k V) as H. split.
  - intros Hle. destruct (Z_lt_le_dec (scaled x) (k * 2 ^ 1074)) as [Hlt|]; [|assumption].
    apply H in Hlt. exfalso. exact (Qlt_not_le _ _ Hlt Hle).
  - intros Hle. apply Qnot_lt_le. intros Hlt. apply H in Hlt. lia.
Qed.

End CompareFacts.

Module DashboardFacts.
Import Number Dashboard CompareFacts.

Definition very_fatigued : Status := {| text := "Very Fatigued"; color := "red" |}.
Definition training_hard : Status := {| text := "Training Hard"; color := "yellow" |}.
Definition neutral : Status := {| text := "Neutral"; color := "blue" |}.
Definition fresh_ : Status := {| text := "Fresh"; color := "green" |}.
Definition very_fresh : Status := {| text := "Very Fresh"; color := "green" |}.

(** C4. The status of a form value [t] is decided by the band its value
    lies in: below -30, from -30 up to -10, from -10 up to 5, from 5 up to
    15, and 15 or above; each boundary belongs to the band above it. *)
Theorem formStatus_bands (t : number) :
  valid_binary prec emax t = true -> is_finite t = true ->
  ((value t < -30)%Q -> formStatus t = very_fatigued) /\
  ((-30 <= value t)%Q /\ (value t < -10)%Q -> formStatus t = training_hard) /\
  ((-10 <= value t)%Q /\ (value t < 5)%Q -> formStatus t = neutral) /\
  ((5 <= value t)%Q /\ (value t < 15)%Q -> formStatus t = fresh_) /\
  ((15 <= value t)%Q -> formStatus t = very_fresh).
Proof.
  intros V F.
  change (-30)%Q with (inject_Z (-30)). change (-10)%Q with (inject_Z (-10)).
  change 5%Q with (inject_Z 5). change 15%Q with (inject_Z 15).
  rewrite !value_lt_iff, !value_ge_iff by assumption.
  unfold formStatus. rewrite !ltb_scaled by (assumption || reflexivity).
  change (scaled (neg (of_Z 30))) with (-30 * 2 ^ 1074).
  change (scaled (neg (of_Z 10))) with (-10 * 2 ^ 1074).
  change (scaled (of_Z 5)) with (5 * 2 ^ 1074).
  change (scaled (of_Z 15)) with (15 * 2 ^ 1074).
  assert (HU : 0 < 2 ^ 1074) by (apply NumberFacts.pow2_pos; lia).
  set (U := 2 ^ 1074) in *. clearbody U.
  destruct (Z.ltb_spec (scaled t) (-30 * U)), (Z.ltb_spec (scaled t) (-10 * U)),
    (Z.ltb_spec (scaled t) (5 * U)), (Z.ltb_spec (scaled t) (15 * U));
    repeat split; intros; try reflexivity; exfalso; lia.
Qed.

(** The five bands leave no gap and do not overlap. *)
Lemma bands_partition (v : Q) :
  ((v < -30) \/ (-30 <= v /\ v < -10) \/ (-10 <= v /\ v < 5) \/
   (5 <= v /\ v < 15) \/ 15 <= v)%Q /\
  ~ ((v < -30) /\ (-30 <= v))%Q /\ ~ ((v < -10) /\ (-10 <= v))%Q /\
  ~ ((v < 5) /\ (5 <= v))%Q /\ ~ ((v < 15) /\ (15 <= v))%Q.
Proof.
  split.
  - destruct (Qlt_le_dec v (-30)); [auto|].
    destruct (Qlt_le_dec v (-10)); [auto|].
    destruct (Qlt_le_dec v 5); [auto|].
    destruct (Qlt_le_dec v 15); auto 10.
  - repeat split; intros [Hlt Hle]; exact (Qlt_not_le _ _ Hlt Hle).
Qed.

Lemma formStatus_bands_witness :
  formStatus (neg (of_Z 10)) = neutral /\ formStatus (of_Z 15) = very_fresh /\
  formStatus (decimal (-301) 10) = very_fatigued.
Proof.
  split; [|split].
  - apply (formStatus_bands (neg (of_Z 10)) eq_refl eq_refl).
    split; vm_compute; congruence.
  - apply (formStatus_bands (of_Z 15) eq_refl eq_refl). vm_compute; congruence.
  - apply (formStatus_bands (decimal (-301) 10) eq_refl eq_refl). vm_compute; congruence.
Defined.

End DashboardFacts.

(** ** More on the streaming chat reader *)

Module ReaderFacts.
Section Client.

Variable NEXT_PUBLIC_API_URL : option string.
Variable server : list Request -> Request -> option Response.

(** The request [chatStream] hands to [fetch] from tab [w]. *)
Definition stream_request (message : string) (history : list (list (string * string)))
    (w : World) : Request :=
  {| req_method := POST;
     req_url := Api.API_BASE_URL NEXT_PUBLIC_API_URL +:+ "/api/v1/ai/chat/stream";
     req_params := [];
     req_headers :=
       <["Authorization" := "Bearer " +:+ JS.to_string "null" (localStorage w !! "token")]>
         {["Content-Type" := "application/json"]};
     req_body := JsonBody [("message", AStr message);
                           ("conversation_history", AList history)] |}.

(** How the promise of [chatStream] settles, given what the server answers. *)
Definition settles (reply : option Response) : Outcome unit :=
  match reply with
  | None => Rejected FetchFailed
  | Some resp =>
      match resp_body resp with
      | Some s => if stream_fails s then Rejected ReadFailed else Resolved tt
      | None => Resolved tt
      end
  end.

Lemma for_of_resolves {A} (f : A -> M unit) :
  (forall x w, exists w', f x w = (Resolved tt, w')) ->
  forall xs w, exists w', for_of xs f w = (Resolved tt, w').
Proof.
  intros Hf xs. induction xs as [|x xs IH]; intros w; simpl.
  - eexists. reflexivity.
  - run. destruct (Hf x w) as [w1 ->]. apply IH.
Qed.

Lemma on_line_swallows (onChunk : JSON.value -> M unit) (line : Text.text) (w : World) :
  exists w', Api.on_line onChunk line w = (Resolved tt, w').
Proof.
  unfold Api.on_line. run.
  destruct (_ && _); [|eauto].
  destruct (JSON.parse _) as [data|]; simpl; [|eauto].
  destruct (JSON.text_of data) as [[t|]|]; simpl; eauto.
  destruct (JSON.truthy t); simpl; eauto.
  destruct (onChunk t w) as [[[]|e] w']; eauto.
Qed.

Lemma read_loop_settles (onChunk : JSON.value -> M unit) (body : option Stream) (w : World) :
  exists w', Api.read_loop onChunk body w
             = (match body with
                | Some s => if stream_fails s then Rejected ReadFailed else Resolved tt
                | None => Resolved tt
                end, w').
Proof.
  destruct body as [s|]; simpl; [|eexists; reflexivity].
  run.
  destruct (for_of_resolves (Api.on_value onChunk)) with (xs := stream_chunks s) (w := w)
    as [w' ->].
  - intros x w0. unfold Api.on_value. apply for_of_resolves, on_line_swallows.
  - destruct (stream_fails s); eexists; reflexivity.
Qed.

(** Whatever the callback does, and whatever status the response has,
    [chatStream] sends one request and rejects only when the network fails
    or when reading the body fails: an error thrown by the callback is
    swallowed with the parse errors, and the status is never looked at. *)
Theorem chatStream_settles (message : string) (history : list (list (string * string)))
    (onChunk : JSON.value -> M unit) (w : World) :
  let r := stream_request message history w in
  exists w',
    Api.chatStream NEXT_PUBLIC_API_URL server message history onChunk w
    = (settles (server (sent w) r), w') /\
    (server (sent w) r = None -> w' = set_sent (λ l, l ++ [r]) w).
Proof.
  intros r. unfold Api.chatStream, Api.fetch, Api.transmit, getItem. run.
  fold (stream_request message history w). fold r.
  destruct (server (sent w) r) as [resp|]; simpl.
  - destruct (read_loop_settles onChunk (resp_body resp) (set_sent (λ l, l ++ [r]) w))
      as [w' ->].
    exists w'. split; [reflexivity|discriminate].
  - eexists. split; reflexivity.
Qed.

(** With a callback that only records its argument: the callbacks made are
    those of the chunks that were read, each chunk on its own and in order,
    also when reading fails afterwards. *)
Theorem chatStream_delivers (message : string) (history : list (list (string * string)))
    (w : World) :
  let r := stream_request message history w in
  let '(o, w') := Api.chatStream NEXT_PUBLIC_API_URL server message history record w in
  o = settles (server (sent w) r) /\
  sent w' = sent w ++ [r] /\
  received w' = received w ++
    match server (sent w) r ≫= resp_body with
    | Some s => flat_map ChatFacts.calls_of_value (stream_chunks s)
    | None => []
    end.
Proof.
  intros r. unfold Api.chatStream, Api.fetch, Api.transmit, getItem. run.
  fold (stream_request message history w). fold r.
  destruct (server (sent w) r) as [resp|]; simpl.
  - destruct (resp_body resp) as [[chunks fails]|]; simpl.
    + pose proof (ChatFacts.read_loop_record chunks fails
                    (set_sent (λ l, l ++ [r]) w)) as H.
      unfold Api.read_loop in H. simpl in H. rewrite H. simpl. auto.
    + rewrite app_nil_r. auto.
  - rewrite app_nil_r. auto.
Qed.

End Client.
End ReaderFacts.

(** ** More on the auth session holder *)

Module SessionFacts.
Section Provider.

Variable NEXT_PUBLIC_API_URL : option string.
Variable server : list Request -> Request -> option Response.

Local Notation "'wire'" := (ApiFacts.wire NEXT_PUBLIC_API_URL).

(** What an axios call makes of the server's answer. *)
Definition answer (reply : option Response) : Outcome Data :=
  match reply with
  | None => Rejected (AxiosError None)
  | Some r =>
      if Api.is_2xx (resp_status r) then Resolved (resp_data r)
      else Rejected (AxiosError (Some (resp_status r)))
  end.

Lemma request_answer (c : Request) (w : World) :
  Api.request NEXT_PUBLIC_API_URL server c w
  = (answer (server (sent w) (wire c w)), set_sent (λ l, l ++ [wire c w]) w).
Proof.
  unfold Api.request, Api.interceptor, Api.transmit, getItem, ApiFacts.wire, answer. run.
  destruct (JS.truthy (localStorage w !! "token")); simpl;
    match goal with |- context [server ?a ?b] => destruct (server a b) as [r|] end;
    simpl; try destruct (Api.is_2xx (resp_status r)); reflexivity.
Qed.

Definition me : Request := Api.with_params [] (Api.config GET "/auth/me").

Lemma wire_me_url (w : World) :
  req_method (wire me w) = GET /\
  req_url (wire me w) = Api.baseURL NEXT_PUBLIC_API_URL +:+ "/auth/me".
Proof.
  unfold ApiFacts.wire. destruct (JS.truthy _); split; reflexivity.
Qed.




(** The token [login] and [register] store: the [access_token] of the
    answer, or the text [undefined] when the answer has none. *)
Definition stored_token (d : Data) : string :=
  JS.to_string "undefined" (Auth.access_token_of d).

Lemma stored_token_truthy (d : Data) : stored_token d = "" \/ JS.truthy (Some (stored_token d)) = true.
Proof. destruct (stored_token d); auto. Qed.




(** [logout] removes the token, clears the user and sends the router to the
    login page, without telling the server and without touching the query
    cache: what was cached for the user stays cached. From then on axios
    calls carry no Authorization header, and a restart of the application
    finds no session and sends nothing. *)
Theorem logout_ends_session (w : World) :
  exists w',
    Auth.logout w = (Resolved tt, w') /\
    localStorage w' = delete "token" (localStorage w) /\
    user w' = None /\ pushed w' = pushed w ++ ["/login"] /\
    sent w' = sent w /\ cache w' = cache w /\
    (forall c, req_headers c !! "Authorization" = None ->
               req_headers (wire c w') !! "Authorization" = None) /\
    exists w'',
      Auth.bootstrap NEXT_PUBLIC_API_URL server w' = (Resolved tt, w'') /\
      sent w'' = sent w /\ user w'' = None /\ loading w'' = false.
Proof.
  eexists. split; [reflexivity|]. simpl.
  do 5 (split; [reflexivity|]). split.
  - intros c Hc. unfold ApiFacts.wire. simpl. rewrite lookup_delete_eq. simpl. exact Hc.
  - unfold Auth.bootstrap, getItem, Auth.setLoading. run.
    rewrite lookup_delete_eq. simpl. eexists. split; [reflexivity|]. simpl. auto.
Qed.

End Provider.
End SessionFacts.

(** ** More on the handlers of the pages *)

Module HandlerFacts.
Section Pages.

Variable NEXT_PUBLIC_API_URL : option string.
Variable server : list Request -> Request -> option Response.
Variable toLowerCase : Text.text -> Text.text.
Variable message : Error -> string.

Local Notation "'wire'" := (ApiFacts.wire NEXT_PUBLIC_API_URL).
Local Notation "'answer'" := SessionFacts.answer.

Lemma mutate_run {V A} (mutationFn : V -> M A) (onSuccess : A -> M unit)
    (onError : Error -> M unit) (v : V) (w : World) :
  QueryClient.mutate mutationFn onSuccess onError v w =
  match mutationFn v w with
  | (Resolved a, w1) =>
      match onSuccess a w1 with
      | (Resolved _, w2) => (Resolved tt, w2)
      | (Rejected e, w2) => (Resolved tt, (onError e w2).2)
      end
  | (Rejected e, w1) => (Resolved tt, (onError e w1).2)
  end.
Proof.
  unfold QueryClient.mutate. run.
  destruct (mutationFn v w) as [[a|e] w1].
  - destruct (onSuccess a w1) as [[[]|e] w2]; [reflexivity|].
    destruct (onError e w2) as [[[]|e'] w3]; reflexivity.
  - destruct (onError e w1) as [[[]|e'] w3]; reflexivity.
Qed.

(** *** Deleting an activity *)

Definition deletion (activityId : string) : Request :=
  Api.config DELETE ("/activities/" +:+ activityId).

(** [handleDelete] never rejects. It does nothing at all when the dialog
    is declined or while a deletion is under way. Otherwise it sends one
    [DELETE] request and marks the deletion as under way; when that request
    succeeds the mark stays and the navigation is scheduled, when it fails
    the alert is shown, the mark is taken back and nothing is scheduled. *)
Theorem handleDelete_outcomes (activityId : string) (w : World) :
  Pages.handleDelete NEXT_PUBLIC_API_URL server false activityId w = (Resolved tt, w) /\
  (isDeleting w = true ->
   Pages.handleDelete NEXT_PUBLIC_API_URL server true activityId w = (Resolved tt, w)) /\
  (isDeleting w = false ->
   let r := wire (deletion activityId) w in
   exists w',
     Pages.handleDelete NEXT_PUBLIC_API_URL server true activityId w = (Resolved tt, w') /\
     sent w' = sent w ++ [r] /\ pushed w' = pushed w /\ cache w' = cache w /\
     match answer (server (sent w) r) with
     | Resolved _ =>
         isDeleting w' = true /\ alerts w' = alerts w /\
         timers w' = timers w ++ [(100, "/activities")]
     | Rejected _ =>
         isDeleting w' = false /\ timers w' = timers w /\
         alerts w' = alerts w ++ ["Failed to delete activity. Please try again."]
     end).
Proof.
  split; [reflexivity|]. split.
  - intros H. unfold Pages.handleDelete. run. rewrite H. reflexivity.
  - intros H r. unfold Pages.handleDelete, Api.deleteActivity, Api.api_delete,
      setTimeout_push, alert. fold (deletion activityId). run. rewrite H.
    rewrite SessionFacts.request_answer. simpl.
    change (wire (deletion activityId) (set_isDeleting true w)) with r.
    destruct (answer (server (sent w) r)) as [d|e]; simpl;
      eexists; (split; [reflexivity|]); simpl; auto 10.
Qed.

(** *** Uploading a file *)





(** *** Saving settings and applying a plan *)

Definition thresholds_put (data : list (string * Arg)) : Request :=
  Api.with_body (JsonBody data) (Api.config PUT "/zones/thresholds").

Definition coach_put (settings : list (string * Arg)) : Request :=
  Api.with_body (JsonBody settings) (Api.config PUT "/ai/settings").

(** A save that the server refuses, or that does not reach it, changes
    nothing but the request log: no cached query is invalidated and the
    mutation itself does not reject. *)
Theorem failed_save_changes_nothing (w : World) :
  (forall data e,
     answer (server (sent w) (wire (thresholds_put data) w)) = Rejected e ->
     Pages.thresholds_mutation NEXT_PUBLIC_API_URL server data w
     = (Resolved tt, set_sent (λ l, l ++ [wire (thresholds_put data) w]) w)) /\
  (forall settings e,
     answer (server (sent w) (wire (coach_put settings) w)) = Rejected e ->
     Pages.coach_mutation NEXT_PUBLIC_API_URL server settings w
     = (Resolved tt, set_sent (λ l, l ++ [wire (coach_put settings) w]) w)).
Proof.
  split.
  - intros data e H. unfold Pages.thresholds_mutation. rewrite mutate_run.
    unfold Api.updateThresholds, Api.api_put. fold (thresholds_put data).
    rewrite SessionFacts.request_answer, H. reflexivity.
  - intros settings e H. unfold Pages.coach_mutation. rewrite mutate_run.
    unfold Api.updateCoachSettings, Api.api_put. fold (coach_put settings).
    rewrite SessionFacts.request_answer, H. reflexivity.
Qed.



End Pages.

Lemma handleDelete_outcomes_witness :
  exists w',
    Pages.handleDelete None AuthFacts.offline true "42" (fresh ∅) = (Resolved tt, w') /\
    isDeleting w' = false /\ timers w' = [] /\
    alerts w' = ["Failed to delete activity. Please try again."].
Proof.
  destruct (proj2 (proj2 (handleDelete_outcomes None AuthFacts.offline "42" (fresh ∅))) eq_refl)
    as (w' & H & _ & _ & _ & H1 & H2 & H3).
  exists w'. auto.
Defined.


Lemma failed_save_changes_nothing_witness :
  cache (Pages.thresholds_mutation None AuthFacts.offline [("threshold_hr", ANum 180)]
           CacheFacts.zoned).2
  = cache CacheFacts.zoned.
Proof.
  rewrite (proj1 (failed_save_changes_nothing None AuthFacts.offline CacheFacts.zoned)
             [("threshold_hr", ANum 180)] (AxiosError None) eq_refl).
  reflexivity.
Defined.

End HandlerFacts.

(** ** More on the zone displays *)

Module DisplayFacts.
Import Number Zones NumberFacts CompareFacts ZonesFacts.

(** *** Integers as numbers *)

Lemma of_Z_valid (n : Z) :
  0 <= n < 2 ^ 53 ->
  valid_binary prec emax (of_Z n) = true /\ is_finite (of_Z n) = true /\
  scaled (of_Z n) = n * 2 ^ 1074.
Proof.
  intros Hn. destruct (Z.eq_dec n 0) as [->|Hz]; [repeat split|].
  destruct (of_Z_pos n) as (m & d & -> & Hdm & Hd & Hb & Hm); [lia|].
  repeat split.
  - simpl. unfold bounded, canonical_mantissa. rewrite Hdm.
    replace (53 + (d - 53)) with d by lia. unfold fexp, emin, prec, emax.
    apply andb_true_intro. split; [apply Z.eqb_eq | apply Z.leb_le]; lia.
  - simpl. rewrite Hm, <- Z.mul_assoc, <- pow2_split by lia. do 2 f_equal. lia.
Qed.

Lemma ltb_of_Z (a b : Z) :
  0 <= a < 2 ^ 53 -> 0 <= b < 2 ^ 53 -> ltb (of_Z a) (of_Z b) = (a <? b).
Proof.
  intros Ha Hb.
  destruct (of_Z_valid a Ha) as (Va & Fa & Sa), (of_Z_valid b Hb) as (Vb & Fb & Sb).
  rewrite ltb_scaled, Sa, Sb by assumption.
  assert (0 < 2 ^ 1074) by (apply pow2_pos; lia).
  destruct (Z.ltb_spec a b), (Z.ltb_spec (a * 2 ^ 1074) (b * 2 ^ 1074)); try reflexivity; nia.
Qed.

(** *** The rows of the two displays *)

Definition hr_rows (lthr maxHr : number) : list Row :=
  [ {| label := "Zone 1 - Recovery:"; lower := of_Z 0; upper := round (mul lthr c_0_5) |};
    {| label := "Zone 2 - Endurance:"; lower := add (round (mul lthr c_0_5)) (of_Z 1);
       upper := round (mul lthr c_0_75) |};
    {| label := "Zone 3 - Tempo:"; lower := add (round (mul lthr c_0_75)) (of_Z 1);
       upper := lthr |};
    {| label := "Zone 4 - Threshold:"; lower := add lthr (of_Z 1);
       upper := round (mul lthr c_1_1) |};
    {| label := "Zone 5 - Max:"; lower := add (round (mul lthr c_1_1)) (of_Z 1);
       upper := maxHr |} ].

Definition power_rows (ftp : number) : list Row :=
  [ {| label := "Zone 1 - Active:"; lower := of_Z 0; upper := round (mul ftp c_0_55) |};
    {| label := "Zone 2 - Endurance:"; lower := add (round (mul ftp c_0_55)) (of_Z 1);
       upper := round (mul ftp c_0_75) |};
    {| label := "Zone 3 - Sweet Spot:"; lower := add (round (mul ftp c_0_75)) (of_Z 1);
       upper := ftp |};
    {| label := "Zone 4 - VO2 Max:"; lower := add ftp (of_Z 1);
       upper := round (mul ftp c_1_2) |};
    {| label := "Zone 5 - Anaerobic:"; lower := add (round (mul ftp c_1_2)) (of_Z 1);
       upper := round (mul ftp c_1_5) |} ].

Definition hr_bounds (L M : Z) : list (string * Z) :=
  [ ("Zone 1 - Recovery:", half_up 1 2 L); ("Zone 2 - Endurance:", half_up 3 4 L);
    ("Zone 3 - Tempo:", L); ("Zone 4 - Threshold:", half_up 11 10 L);
    ("Zone 5 - Max:", M) ].

Definition power_bounds (P : Z) : list (string * Z) :=
  [ ("Zone 1 - Active:", half_up 11 20 P); ("Zone 2 - Endurance:", half_up 3 4 P);
    ("Zone 3 - Sweet Spot:", P); ("Zone 4 - VO2 Max:", half_up 6 5 P);
    ("Zone 5 - Anaerobic:", half_up 3 2 P) ].

Lemma bound_45 (n : Z) : 0 < n < 2 ^ 45 -> 0 < n /\ n + 1 < 2 ^ 53.
Proof.
  change (2 ^ 45) with 35184372088832. change (2 ^ 53) with 9007199254740992. lia.
Qed.

Lemma hr_rows_exact (L M : Z) :
  0 < L < 2 ^ 45 -> hr_rows (of_Z L) (of_Z M) = zones_from 0 (hr_bounds L M).
Proof.
  intros HL. unfold hr_rows, hr_bounds. cbn [zones_from].
  rewrite !round_mul_0_5, !round_mul_0_75, !round_mul_1_1 by assumption.
  rewrite !add_one;
    try (apply half_up_pos; lia); try (apply half_up_bound; lia);
    try (apply bound_45; assumption).
  reflexivity.
Qed.

Lemma power_rows_exact (P : Z) :
  0 < P < 2 ^ 45 -> power_rows (of_Z P) = zones_from 0 (power_bounds P).
Proof.
  intros HP. unfold power_rows, power_bounds. cbn [zones_from].
  rewrite !round_mul_0_55, !round_mul_0_75, !round_mul_1_2, !round_mul_1_5 by assumption.
  rewrite !add_one;
    try (apply half_up_pos; lia); try (apply half_up_bound; lia);
    try (apply bound_45; assumption).
  reflexivity.
Qed.

Lemma preview_rows (thresholds : Form) :
  filled (f_threshold_hr thresholds) = true ->
  filled (f_max_hr thresholds) = true ->
  filled (f_threshold_power thresholds) = true ->
  ThresholdsTab_preview thresholds = Some
    {| hr := Some (hr_rows (parseInt (f_threshold_hr thresholds))
                           (parseInt (f_max_hr thresholds)));
       power := Some (power_rows (parseInt (f_threshold_power thresholds))) |}.
Proof.
  intros H1 H2 H3. unfold ThresholdsTab_preview. rewrite H1, H2, H3. reflexivity.
Qed.

(** A user with the three thresholds stored. *)
Definition stores (u : User) (lthr maxHr ftp : number) : Prop :=
  exists t, user_thresholds u = Some t /\
    threshold_hr t = Some lthr /\ max_hr t = Some maxHr /\ threshold_power t = Some ftp.

Lemma summary_rows (u : User) (lthr maxHr ftp : number) :
  stores u lthr maxHr ftp ->
  truthy lthr = true -> truthy maxHr = true -> truthy ftp = true ->
  gtb lthr (of_Z 0) = true -> gtb ftp (of_Z 0) = true ->
  ZonesTab_summary (Some u) = Some
    {| hr := Some (hr_rows lthr maxHr); power := Some (power_rows ftp) |}.
Proof.
  intros (t & Ht & H1 & H2 & H3) T1 T2 T3 G1 G3.
  unfold ZonesTab_summary, stored. rewrite Ht, H1, H2, H3. cbn [or_zero].
  rewrite T1, T2, T3, G1, G3. reflexivity.
Qed.

(** With the three thresholds stored for the user and the same three typed
    into the form, the summary of the zones tab and the preview of the
    thresholds tab show the same rows. *)
Theorem summary_agrees_with_preview (u : User) (thresholds : Form) (L M P : Z) :
  0 < L < 2 ^ 53 -> 0 < M < 2 ^ 53 -> 0 < P < 2 ^ 53 ->
  stores u (of_Z L) (of_Z M) (of_Z P) ->
  parseInt (f_threshold_hr thresholds) = of_Z L ->
  parseInt (f_max_hr thresholds) = of_Z M ->
  parseInt (f_threshold_power thresholds) = of_Z P ->
  ZonesTab_summary (Some u) = ThresholdsTab_preview thresholds.
Proof.
  intros HL HM HP Hu EL EM EP.
  rewrite preview_rows by
    first [exact (parseInt_filled _ L HL EL) | exact (parseInt_filled _ M HM EM)
          | exact (parseInt_filled _ P HP EP)].
  rewrite EL, EM, EP.
  apply summary_rows; try assumption; apply positive_number; assumption.
Qed.

Lemma summary_agrees_with_preview_witness :
  ZonesTab_summary (Some (athlete
    {| threshold_hr := Some (of_Z 180); max_hr := Some (of_Z 200); resting_hr := None;
       threshold_power := Some (of_Z 250); running_threshold_power := None;
       critical_power := None |}))
  = ThresholdsTab_preview (form "180" "200" "250").
Proof.
  apply (summary_agrees_with_preview _ _ 180 200 250);
    try reflexivity; try (vm_compute; split; congruence).
  eexists. repeat split.
Defined.

(** *** Zones with an empty range *)

(** The range of a row is empty: its lower bound lies above its upper
    bound. *)
Definition inverted (r : Row) : bool := ltb (upper r) (lower r).

Lemma inverted_zones_from (lo : Z) (bounds : list (string * Z)) :
  0 <= lo < 2 ^ 53 ->
  Forall (λ b, 0 <= b.2 /\ b.2 + 1 < 2 ^ 53) bounds ->
  existsb inverted (zones_from lo bounds)
  = (fix go (lo : Z) (bounds : list (string * Z)) : bool :=
       match bounds with
       | [] => false
       | (_, up) :: rest => (up <? lo) || go (up + 1) rest
       end) lo bounds.
Proof.
  intros Hlo Hb. revert lo Hlo. induction Hb as [|[name up] rest [H1 H2] _ IH]; intros lo Hlo.
  - reflexivity.
  - simpl in *. unfold inverted at 1. simpl. rewrite ltb_of_Z by lia.
    rewrite IH by lia. reflexivity.
Qed.

(** The preview does not check the thresholds against each other. For
    thresholds [L], [M], [P]: all five heart-rate ranges are non-empty
    exactly when [L] is at least 5 and [M] lies above round(1.1 L); with a
    maximum heart rate at or below 110% of the LTHR, zone 5 is shown with a
    lower bound above its upper bound. The five power ranges are non-empty
    exactly when [P] is at least 4. *)
Theorem preview_ranges (thresholds : Form) (L M P : Z) :
  0 < L < 2 ^ 45 -> 0 < M /\ M + 1 < 2 ^ 53 -> 0 < P < 2 ^ 45 ->
  parseInt (f_threshold_hr thresholds) = of_Z L ->
  parseInt (f_max_hr thresholds) = of_Z M ->
  parseInt (f_threshold_power thresholds) = of_Z P ->
  exists hrs pws,
    ThresholdsTab_preview thresholds = Some {| hr := Some hrs; power := Some pws |} /\
    (existsb inverted hrs = false <-> 5 <= L /\ half_up 11 10 L < M) /\
    (existsb inverted pws = false <-> 4 <= P).
Proof.
  intros HL HM HP EL EM EP.
  pose proof (bound_45 L HL) as HL'. pose proof (bound_45 P HP) as HP'.
  assert (HL53 : 0 < L < 2 ^ 53) by lia.
  assert (HM53 : 0 < M < 2 ^ 53) by lia.
  assert (HP53 : 0 < P < 2 ^ 53) by lia.
  rewrite preview_rows by
    first [exact (parseInt_filled _ L HL53 EL) | exact (parseInt_filled _ M HM53 EM)
          | exact (parseInt_filled _ P HP53 EP)].
  rewrite EL, EM, EP, hr_rows_exact, power_rows_exact by assumption.
  eexists. eexists. split; [reflexivity|].
  assert (B : forall num den n, 0 < den -> 0 < num -> num <= 2 * den -> 0 < n < 2 ^ 45 ->
    0 <= half_up num den n /\ half_up num den n + 1 < 2 ^ 53).
  { intros. split; [|apply half_up_bound; assumption].
    unfold half_up. apply Z.div_pos; nia. }
  rewrite !inverted_zones_from;
    try (repeat constructor; simpl; try (apply B; lia); lia); try (simpl; lia).
  unfold hr_bounds, power_bounds, half_up.
  change (2 ^ 45) with 35184372088832 in *. change (2 ^ 53) with 9007199254740992 in *.
  split.
  - rewrite !orb_false_iff, !Z.ltb_ge. Z.div_mod_to_equations. lia.
  - rewrite !orb_false_iff, !Z.ltb_ge. Z.div_mod_to_equations. lia.
Qed.

Lemma preview_ranges_witness :
  exists hrs pws,
    ThresholdsTab_preview (form "180" "190" "250")
    = Some {| hr := Some hrs; power := Some pws |} /\
    (existsb inverted hrs = false <-> 5 <= 180 /\ half_up 11 10 180 < 190) /\
    (existsb inverted pws = false <-> 4 <= 250).
Proof.
  apply (preview_ranges _ 180 190 250); try reflexivity; vm_compute; split; congruence.
Defined.

End DisplayFacts.

(** ** More on [parseInt] and the threshold fields *)

Module FieldFacts.
Import Number Zones ZonesFacts.

Definition is_digit (c : ascii) : bool :=
  let n := Z.of_N (N_of_ascii c) in (48 <=? n) && (n <=? 57).

Fixpoint all_digits (s : string) : bool :=
  match s with
  | EmptyString => true
  | String c rest => is_digit c && all_digits rest
  end.

(** The decimal value of a string of digits. *)
Fixpoint decimal_value (acc : Z) (s : string) : Z :=
  match s with
  | EmptyString => acc
  | String c rest => decimal_value (10 * acc + (Z.of_N (N_of_ascii c) - 48)) rest
  end.

Lemma is_digit_cases (c : ascii) :
  is_digit c = true ->
  c = "0"%char \/ c = "1"%char \/ c = "2"%char \/ c = "3"%char \/ c = "4"%char \/
  c = "5"%char \/ c = "6"%char \/ c = "7"%char \/ c = "8"%char \/ c = "9"%char.
Proof.
  destruct c as [[] [] [] [] [] [] [] []]; vm_compute; intros H; try discriminate; tauto.
Qed.

Lemma digit_value_digit (c : ascii) :
  is_digit c = true -> digit_value 10 c = Some (Z.of_N (N_of_ascii c) - 48).
Proof.
  intros H. apply is_digit_cases in H.
  repeat (destruct H as [->|H]; [reflexivity|]). subst. reflexivity.
Qed.

(** What follows the digits: nothing, or a character that is no digit. *)
Definition ends_number (rest : string) : bool :=
  match rest with
  | EmptyString => true
  | String c _ => negb (is_digit c) && negb (Ascii.eqb c "x") && negb (Ascii.eqb c "X")
  end.

Lemma digit_value_other (c : ascii) :
  is_digit c = false -> Ascii.eqb c "x" = false -> Ascii.eqb c "X" = false ->
  digit_value 10 c = None.
Proof.
  destruct c as [[] [] [] [] [] [] [] []]; vm_compute; congruence.
Qed.

Lemma digits_app (ds rest : string) (acc : option Z) :
  all_digits ds = true -> ends_number rest = true -> ds <> "" \/ acc <> None ->
  digits 10 acc (ds +:+ rest) = Some (decimal_value (default 0 acc) ds).
Proof.
  revert acc. induction ds as [|c ds IH]; intros acc Hd Hr Hne.
  - destruct Hne as [?|Hacc]; [congruence|].
    destruct acc as [a|]; [|congruence]. simpl.
    destruct rest as [|c rest]; [reflexivity|]. simpl in *.
    apply andb_true_iff in Hr as [[H1 H2]%andb_true_iff H3].
    apply negb_true_iff in H1, H2, H3.
    rewrite digit_value_other by assumption. reflexivity.
  - simpl in Hd. apply andb_true_iff in Hd as [Hc Hd].
    change (String c ds +:+ rest) with (String c (ds +:+ rest)).
    simpl. rewrite digit_value_digit by assumption.
    rewrite IH by (auto; right; discriminate). reflexivity.
Qed.

(** The stages of [parseInt] after the leading white space. *)
Definition sign_of (s : string) : bool * string :=
  match s with
  | String "-" rest => (true, rest)
  | String "+" rest => (false, rest)
  | _ => (false, s)
  end.

Definition radix_of (s : string) : Z * string :=
  match s with
  | String "0" (String "x" rest) | String "0" (String "X" rest) => (16, rest)
  | _ => (10, s)
  end.

Lemma parseInt_stages (s : string) :
  parseInt s =
  let '(negative, s) := sign_of (trim_start s) in
  let '(radix, s) := radix_of s in
  match digits radix None s with
  | None => NaN
  | Some 0 => S754_zero negative
  | Some n => of_Z (if negative then - n else n)
  end.
Proof. reflexivity. Qed.

Lemma trim_start_digit (c : ascii) (s : string) :
  is_digit c = true -> trim_start (String c s) = String c s.
Proof.
  intros H. apply is_digit_cases in H.
  repeat (destruct H as [->|H]; [reflexivity|]). subst. reflexivity.
Qed.

Lemma sign_of_digit (c : ascii) (s : string) :
  is_digit c = true -> sign_of (String c s) = (false, String c s).
Proof.
  intros H. apply is_digit_cases in H.
  repeat (destruct H as [->|H]; [reflexivity|]). subst. reflexivity.
Qed.

Lemma radix_of_digits (c : ascii) (s : string) :
  is_digit c = true ->
  match s with
  | EmptyString => True
  | String c' _ => Ascii.eqb c' "x" = false /\ Ascii.eqb c' "X" = false
  end ->
  radix_of (String c s) = (10, String c s).
Proof.
  intros H Hs. apply is_digit_cases in H.
  destruct H as [->|H].
  - destruct s as [|c' s]; [reflexivity|]. destruct Hs as [H1 H2].
    destruct c' as [[] [] [] [] [] [] [] []]; try reflexivity; discriminate.
  - repeat (destruct H as [->|H]; [reflexivity|]). subst. reflexivity.
Qed.

Lemma digit_not_x (c : ascii) :
  is_digit c = true -> Ascii.eqb c "x" = false /\ Ascii.eqb c "X" = false.
Proof.
  intros H. apply is_digit_cases in H.
  repeat (destruct H as [->|H]; [split; reflexivity|]). subst. split; reflexivity.
Qed.

(** [parseInt] of digits followed by something that is no digit. *)
Lemma parseInt_value (ds tail : string) :
  ds <> "" -> all_digits ds = true -> ends_number tail = true ->
  parseInt (ds +:+ tail) =
  match decimal_value 0 ds with 0 => S754_zero false | n => of_Z n end.
Proof.
  intros Hne Hd Ht. destruct ds as [|c ds]; [congruence|].
  pose proof (digits_app (String c ds) tail None Hd Ht (or_introl Hne)) as D.
  simpl in Hd. apply andb_true_iff in Hd as [Hc Hd].
  change (String c ds +:+ tail) with (String c (ds +:+ tail)) in *.
  rewrite parseInt_stages, trim_start_digit, sign_of_digit by assumption.
  rewrite radix_of_digits; [rewrite D; cbn [default]; destruct (decimal_value 0 (String c ds)); reflexivity|assumption|].
  destruct ds as [|c2 ds]; simpl.
  - destruct tail as [|c' tail]; [exact I|]. simpl in Ht.
    apply andb_true_iff in Ht as [[_ H2]%andb_true_iff H3].
    apply negb_true_iff in H2, H3. simpl. split; assumption.
  - simpl in Hd. apply andb_true_iff in Hd as [Hc2 _]. apply digit_not_x, Hc2.
Qed.

(** [parseInt] reads the digits at the start and ignores what follows. *)
Lemma parseInt_digits (ds rest : string) :
  ds <> "" -> all_digits ds = true -> ends_number rest = true ->
  parseInt (ds +:+ rest) = parseInt ds.
Proof.
  intros Hne Hd Hr. rewrite (parseInt_value ds rest) by assumption.
  rewrite <- (parseInt_value ds "") by (assumption || reflexivity).
  f_equal. unfold "+:+". clear. induction ds; simpl; congruence.
Qed.

(** A threshold typed with a fractional part is previewed as the digits
    before the point: the fraction is cut off, not rounded. *)
Theorem preview_cuts_fractions (d1 f1 d2 f2 d3 f3 : string) :
  d1 <> "" -> d2 <> "" -> d3 <> "" ->
  all_digits d1 = true -> all_digits d2 = true -> all_digits d3 = true ->
  ThresholdsTab_preview (form (d1 +:+ "." +:+ f1) (d2 +:+ "." +:+ f2) (d3 +:+ "." +:+ f3))
  = ThresholdsTab_preview (form d1 d2 d3).
Proof.
  intros N1 N2 N3 D1 D2 D3.
  assert (F : forall d f, d <> "" -> filled (d +:+ "." +:+ f) = filled d).
  { intros [|c d] f H; [congruence|reflexivity]. }
  unfold ThresholdsTab_preview, form. cbn [f_threshold_hr f_max_hr f_threshold_power].
  rewrite !F by assumption.
  rewrite !(parseInt_digits _ ("." +:+ _)) by (assumption || reflexivity).
  reflexivity.
Qed.

Lemma preview_cuts_fractions_witness :
  ThresholdsTab_preview (form "180.9" "200.5" "250.75")
  = ThresholdsTab_preview (form "180" "200" "250").
Proof.
  apply (preview_cuts_fractions "180" "9" "200" "5" "250" "75");
    try discriminate; reflexivity.
Defined.

End FieldFacts.

(** ** More on the training status *)

Module StatusFacts.
Import Number Dashboard CompareFacts DashboardFacts.

(** How fresh a status is, from 0 (very fatigued) to 4 (very fresh). *)
Definition freshness (s : Status) : Z :=
  if String.eqb (text s) "Very Fatigued" then 0
  else if String.eqb (text s) "Training Hard" then 1
  else if String.eqb (text s) "Neutral" then 2
  else if String.eqb (text s) "Fresh" then 3
  else 4.

Lemma formStatus_scaled (t : number) :
  valid_binary prec emax t = true -> is_finite t = true ->
  formStatus t =
  if scaled t <? -30 * 2 ^ 1074 then very_fatigued
  else if scaled t <? -10 * 2 ^ 1074 then training_hard
  else if scaled t <? 5 * 2 ^ 1074 then neutral
  else if scaled t <? 15 * 2 ^ 1074 then fresh_
  else very_fresh.
Proof.
  intros V F. unfold formStatus. rewrite !ltb_scaled by (assumption || reflexivity).
  reflexivity.
Qed.

(** The status never gets more fatigued as the form value grows. *)
Theorem formStatus_monotone (t t' : number) :
  valid_binary prec emax t = true -> is_finite t = true ->
  valid_binary prec emax t' = true -> is_finite t' = true ->
  ltb t' t = false ->
  freshness (formStatus t) <= freshness (formStatus t').
Proof.
  intros V F V' F' H.
  rewrite ltb_scaled in H by assumption. apply Z.ltb_ge in H.
  rewrite !formStatus_scaled by assumption.
  assert (HU : 0 < 2 ^ 1074) by (apply NumberFacts.pow2_pos; lia).
  set (U := 2 ^ 1074) in *. clearbody U.
  destruct (Z.ltb_spec (scaled t) (-30 * U)), (Z.ltb_spec (scaled t) (-10 * U)),
    (Z.ltb_spec (scaled t) (5 * U)), (Z.ltb_spec (scaled t) (15 * U)),
    (Z.ltb_spec (scaled t') (-30 * U)), (Z.ltb_spec (scaled t') (-10 * U)),
    (Z.ltb_spec (scaled t') (5 * U)), (Z.ltb_spec (scaled t') (15 * U));
    try lia; vm_compute; congruence.
Qed.

Lemma formStatus_monotone_witness :
  freshness (formStatus (neg (of_Z 12))) <= freshness (formStatus (decimal 45 10)).
Proof.
  apply formStatus_monotone; reflexivity.
Defined.

(** Values that are no real numbers: a missing or undefined form value
    (not a number) and +∞ are shown as very fresh, -∞ as very fatigued. *)
Theorem formStatus_not_finite (t : number) :
  is_finite t = false ->
  formStatus t = match t with
                 | S754_infinity true => very_fatigued
                 | _ => very_fresh
                 end.
Proof.
  destruct t as [s|[]| |s m e]; try discriminate; reflexivity.
Qed.

Lemma formStatus_not_finite_witness : formStatus NaN = very_fresh.
Proof. apply (formStatus_not_finite NaN). reflexivity. Defined.

End StatusFacts.

Module PlanFacts.
Import PlanModifier.

(** Toggling a card flips that card and no other; toggling it twice gives
    the set back, and toggles of two cards can be done in either order. *)
Theorem toggleExpanded_flips (expandedMods : gset nat) (index : nat) :
  (index ∈ toggleExpanded expandedMods index <-> index ∉ expandedMods) /\
  (forall other, other <> index ->
     (other ∈ toggleExpanded expandedMods index <-> other ∈ expandedMods)) /\
  toggleExpanded (toggleExpanded expandedMods index) index = expandedMods /\
  (forall other,
     toggleExpanded (toggleExpanded expandedMods index) other
     = toggleExpanded (toggleExpanded expandedMods other) index).
Proof.
  assert (F : forall s i, (i ∈ toggleExpanded s i <-> i ∉ s) /\
                (forall j, j <> i -> (j ∈ toggleExpanded s i <-> j ∈ s))).
  { intros s i. unfold toggleExpanded. cbv zeta.
    case_bool_decide; split; intros;
      rewrite ?elem_of_difference, ?elem_of_union, ?elem_of_singleton; tauto. }
  split; [apply F|]. split; [apply F|]. split.
  - apply set_eq. intros j. destruct (decide (j = index)) as [->|Hj].
    + rewrite (proj1 (F _ _)), (proj1 (F _ _)). destruct (decide (index ∈ expandedMods)); tauto.
    + rewrite (proj2 (F _ _) j Hj), (proj2 (F _ _) j Hj). reflexivity.
  - intros other. apply set_eq. intros j.
    destruct (decide (other = index)) as [->|Ho]; [reflexivity|].
    destruct (decide (j = index)) as [->|Hj]; [|destruct (decide (j = other)) as [->|Hk]].
    + rewrite (proj2 (F _ other) index) by congruence. rewrite !(proj1 (F _ index)).
      rewrite (proj2 (F _ other) index) by congruence. reflexivity.
    + rewrite (proj1 (F _ other)), (proj2 (F _ index) other Ho).
      rewrite (proj2 (F _ index) other Ho), (proj1 (F _ other)). reflexivity.
    + rewrite (proj2 (F _ other) j Hk), (proj2 (F _ index) j Hj).
      rewrite (proj2 (F _ index) j Hj), (proj2 (F _ other) j Hk). reflexivity.
Qed.

End PlanFacts.

(** ** Facts: division, remainder and rounding down of integers *)

Module NumericFacts.
Import Number Numeric NumberFacts.

(** *** Rounding a quotient *)

(** The last step of [binary_round_aux] on a rounded mantissa of 53 digits,
    or on 2^53. *)
Lemma renormalize (sx : bool) (q : positive) (e0 : Z) :
  2 ^ 52 <= Z.pos q <= 2 ^ 53 -> -1074 <= e0 -> e0 + 1 <= 971 ->
  exists (m' : positive) (e' : Z),
    (let '(mrs, e'') := shr_fexp prec emax (Z.pos q) e0 loc_Exact in
     match shr_m mrs with
     | 0 => S754_zero sx
     | Z.pos m => if e'' <=? emax - prec then S754_finite sx m e'' else S754_infinity sx
     | Z.neg _ => S754_nan
     end) = S754_finite sx m' e' /\
    Z.pos (digits2_pos m') = 53 /\ e0 <= e' <= e0 + 1 /\
    Z.pos m' * 2 ^ (e' - e0) = Z.pos q.
Proof.
  intros Hq Hlo Hhi.
  destruct (Z.eq_dec (Z.pos q) (2 ^ 53)) as [Htop|Htop].
  - assert (Hdq : Z.pos (digits2_pos q) = 54)
      by (apply digits2_pos_unique; rewrite Htop; simpl; lia).
    unfold shr_fexp. simpl Zdigits2. rewrite Hdq.
    rewrite fexp_normal by lia. simpl shr_record_of_loc.
    replace (54 + e0 - 53 - e0) with 1 by lia.
    pose proof (shr_spec (Z.pos q) e0 1 ltac:(lia) ltac:(lia)) as H.
    destruct (shr _ e0 1) as [r2 e2]. destruct H as (-> & H1 & _).
    rewrite H1, Htop. change (2 ^ 53 / 2 ^ 1) with (Z.pos 4503599627370496).
    cbv iota beta. unfold prec, emax.
    destruct (Z.leb_spec (e0 + 1) (1024 - 53)); [|lia].
    exists 4503599627370496%positive, (e0 + 1).
    split; [reflexivity|]. split; [reflexivity|]. split; [lia|].
    replace (e0 + 1 - e0) with 1 by lia. reflexivity.
  - assert (Hdq : Z.pos (digits2_pos q) = 53)
      by (apply digits2_pos_unique; simpl in *; lia).
    rewrite shr_fexp_canonical by (assumption || lia). simpl shr_m.
    cbv iota beta. unfold prec, emax.
    destruct (Z.leb_spec e0 (1024 - 53)); [|lia].
    exists q, e0. split; [reflexivity|]. split; [assumption|]. split; [lia|].
    rewrite Z.sub_diag, Z.mul_1_r. reflexivity.
Qed.

Lemma rne_step (m : Z) (l : location) :
  round_nearest_even m l = m \/ round_nearest_even m l = m + 1.
Proof. destruct l as [|[]]; simpl; auto. destruct (Z.even m); auto. Qed.

(** Rounding a mantissa of 53 or 54 digits that comes with a location: the
    result lies on the grid of the 53-digit mantissas, at the grid point at
    or just below the mantissa or at the next one. *)
Lemma round_located (sx : bool) (q : positive) (e : Z) (l : location) :
  let s := Z.pos (digits2_pos q) - 53 in
  0 <= s <= 1 -> -1074 <= e + s -> e + s + 1 <= 971 ->
  exists (m' : positive) (e' : Z),
    binary_round_aux prec emax sx (Z.pos q) e l = S754_finite sx m' e' /\
    Z.pos (digits2_pos m') = 53 /\ e + s <= e' <= e + s + 1 /\
    (Z.pos m' * 2 ^ (e' - (e + s)) = Z.pos q / 2 ^ s \/
     Z.pos m' * 2 ^ (e' - (e + s)) = Z.pos q / 2 ^ s + 1).
Proof.
  intros s Hs Hlo Hhi.
  pose proof (digits2_pos_bounds q) as Hq.
  set (d := Z.pos (digits2_pos q)) in *.
  assert (Hq52 : 2 ^ 52 <= Z.pos q / 2 ^ s < 2 ^ 53).
  { assert (s = 0 \/ s = 1) as [E|E] by lia.
    - rewrite E, Z.div_1_r. replace d with 53 in Hq by lia. simpl in *. lia.
    - rewrite E. replace d with 54 in Hq by lia. simpl in Hq. change (2 ^ 1) with 2.
      change (2 ^ 52) with 4503599627370496. change (2 ^ 53) with 9007199254740992.
      Z.div_mod_to_equations. lia. }
  unfold binary_round_aux.
  assert (Hfirst : exists r, shr_fexp prec emax (Z.pos q) e l = (r, e + s) /\
                     shr_m r = Z.pos q / 2 ^ s).
  { unfold shr_fexp. simpl Zdigits2. fold d.
    rewrite fexp_normal by (unfold s in *; lia).
    replace (d + e - 53 - e) with s by (unfold s; lia).
    assert (s = 0 \/ s = 1) as [E|E] by lia; rewrite E.
    - simpl shr. eexists. split; [rewrite Z.add_0_r; reflexivity|].
      rewrite Z.div_1_r. destruct l as [|[]]; reflexivity.
    - simpl shr. eexists. split; [reflexivity|].
      change (2 ^ 1) with 2.
      assert (Hm : shr_m (shr_record_of_loc (Z.pos q) l) = Z.pos q)
        by (destruct l as [|[]]; reflexivity).
      destruct (shr_1_spec (shr_record_of_loc (Z.pos q) l)) as [H1 _]; [rewrite Hm; lia|].
      rewrite H1, Hm. reflexivity. }
  destruct Hfirst as (r & -> & Hr).
  destruct (rne_step (shr_m r) (loc_of_shr_record r)) as [H|H]; rewrite H, Hr.
  - destruct (Z.pos q / 2 ^ s) as [|qq|qq] eqn:Eq; try lia.
    destruct (renormalize sx qq (e + s)) as (m' & e' & -> & H1 & H2 & H3); try lia.
    exists m', e'. rewrite H3. auto.
  - destruct (Z.pos q / 2 ^ s + 1) as [|qq|qq] eqn:Eq; try lia.
    destruct (renormalize sx qq (e + s)) as (m' & e' & -> & H1 & H2 & H3); try lia.
    exists m', e'. rewrite H3. auto.
Qed.

(** *** The quotient of two integers *)

(** [n / k] as a number: a mantissa [W] on the grid [2^e0], within one
    grid step of the exact quotient. *)
Lemma div_grid (n k : Z) :
  0 < n < 2 ^ 53 -> 0 < k < 2 ^ 53 ->
  exists (m' : positive) (e' e0 W : Z),
    div (of_Z n) (of_Z k) = S754_finite false m' e' /\
    Z.pos (digits2_pos m') = 53 /\
    e0 <= e' <= e0 + 1 /\ -106 <= e0 <= 0 /\
    W = Z.pos m' * 2 ^ (e' - e0) /\ 2 ^ 52 <= W <= 2 ^ 53 /\
    (W - 1) * k <= n * 2 ^ (- e0) < (W + 1) * k.
Proof.
  intros Hn Hk.
  destruct (of_Z_pos n Hn) as (mn & dn & -> & Hdn & Hdnr & Hnb & Hmn).
  destruct (of_Z_pos k Hk) as (mk & dk & -> & Hdk & Hdkr & Hkb & Hmk).
  unfold div, SFdiv, SFdiv_core_binary. simpl Zdigits2. rewrite Hdn, Hdk.
  replace (53 + (dn - 53) - (53 + (dk - 53))) with (dn - dk) by lia.
  rewrite fexp_normal by lia.
  change IntDef.Z.min with Z.min. rewrite Z.min_l by lia.
  replace (dn - 53 - (dk - 53) - (dn - dk - 53)) with 53 by lia.
  change IntDef.Z.shiftl with Z.shiftl. rewrite Z.shiftl_mul_pow2 by lia.
  change IntDef.Z.div_eucl with Z.div_eucl.
  pose proof (digits2_pos_bounds mn) as Bn. rewrite Hdn in Bn.
  pose proof (digits2_pos_bounds mk) as Bk. rewrite Hdk in Bk.
  change (2 ^ (53 - 1)) with 4503599627370496 in *.
  change (2 ^ 53) with 9007199254740992 in *.
  pose proof (Z_div_mod_full (Z.pos mn * 9007199254740992) (Z.pos mk) ltac:(lia)) as Hdiv.
  destruct (Z.div_eucl (Z.pos mn * 9007199254740992) (Z.pos mk)) as [q r].
  destruct Hdiv as [Hqr Hrem]. unfold Remainder in Hrem.
  assert (Hr : 0 <= r < Z.pos mk) by lia. clear Hrem.
  assert (Hqb : 4503599627370496 <= q < 18014398509481984) by nia.
  destruct q as [|q|q]; try lia.
  pose proof (digits2_pos_bounds q) as Bq.
  set (s := Z.pos (digits2_pos q) - 53).
  assert (Hs : 0 <= s <= 1).
  { unfold s. split.
    - destruct (Z_le_gt_dec 53 (Z.pos (digits2_pos q))); [lia|].
      assert (2 ^ Z.pos (digits2_pos q) <= 2 ^ 52) by (apply Z.pow_le_mono_r; lia).
      change (2 ^ 52) with 4503599627370496 in *. lia.
    - destruct (Z_le_gt_dec (Z.pos (digits2_pos q)) 54); [lia|].
      assert (2 ^ 54 <= 2 ^ (Z.pos (digits2_pos q) - 1)) by (apply Z.pow_le_mono_r; lia).
      change (2 ^ 54) with 18014398509481984 in *. lia. }
  simpl xorb.
  destruct (round_located false q (dn - dk - 53) (new_location (Z.pos mk) r))
    as (m' & e' & -> & Hd' & He' & HW); fold s; try lia.
  fold s in HW, He'.
  exists m', e', (dn - dk - 53 + s), (Z.pos m' * 2 ^ (e' - (dn - dk - 53 + s))).
  split; [reflexivity|]. split; [assumption|]. split; [assumption|].
  split; [lia|]. split; [reflexivity|].
  set (W := Z.pos m' * 2 ^ (e' - (dn - dk - 53 + s))) in *.
  (* the exact quotient on the grid *)
  assert (HP : 2 ^ (- (dn - dk - 53 + s)) * 2 ^ s * 2 ^ (53 - dk) = 2 ^ (53 - dn) * 9007199254740992).
  { change 9007199254740992 with (2 ^ 53). rewrite <- !pow2_split by lia. f_equal. lia. }
  set (P := 2 ^ (- (dn - dk - 53 + s))) in *.
  assert (HPpos : 0 < P) by (apply pow2_pos; lia).
  assert (Hs2 : 0 < 2 ^ s) by (apply pow2_pos; lia).
  assert (Hk2 : 0 < 2 ^ (53 - dk)) by (apply pow2_pos; lia).
  set (Q := Z.pos q / 2 ^ s) in *.
  assert (HQ : Q * 2 ^ s <= Z.pos q < (Q + 1) * 2 ^ s).
  { unfold Q. pose proof (Z.mul_div_le (Z.pos q) (2 ^ s) Hs2).
    pose proof (Z.mul_succ_div_gt (Z.pos q) (2 ^ s) Hs2). lia. }
  assert (HQn : Q * k <= n * P < (Q + 1) * k).
  { (* q mk <= mn 2^53 < (q+1) mk, with mn = n 2^(53-dn) and mk = k 2^(53-dk) *)
    assert (E1 : Z.pos mn * 9007199254740992 = n * P * (2 ^ s * 2 ^ (53 - dk))).
    { rewrite Hmn. rewrite <- (Z.mul_assoc n), <- HP. ring. }
    set (T := 2 ^ s * 2 ^ (53 - dk)) in *.
    assert (HT : 0 < T) by (unfold T; nia).
    rewrite E1, Hmk in Hqr.
    split.
    - apply Z.mul_le_mono_pos_r with (p := T); [assumption|].
      replace (Q * k * T) with (Q * 2 ^ s * (k * 2 ^ (53 - dk))) by (unfold T; ring).
      assert (Q * 2 ^ s * (k * 2 ^ (53 - dk)) <= Z.pos q * (k * 2 ^ (53 - dk))) by nia.
      rewrite Hmk in Hr. nia.
    - apply Z.mul_lt_mono_pos_r with (p := T); [assumption|].
      replace ((Q + 1) * k * T) with ((Q + 1) * 2 ^ s * (k * 2 ^ (53 - dk))) by (unfold T; ring).
      assert ((Z.pos q + 1) * (k * 2 ^ (53 - dk)) <= (Q + 1) * 2 ^ s * (k * 2 ^ (53 - dk))) by nia.
      rewrite Hmk in Hr. nia. }
  assert (HQ52 : 4503599627370496 <= Q < 9007199254740992).
  { assert (s = 0 \/ s = 1) as [E|E] by lia; rewrite E in HQ; simpl in HQ.
    - unfold s in E. replace (Z.pos (digits2_pos q)) with 53 in Bq by lia.
      change (2 ^ (53 - 1)) with 4503599627370496 in Bq.
      change (2 ^ 53) with 9007199254740992 in Bq. lia.
    - unfold s in E. replace (Z.pos (digits2_pos q)) with 54 in Bq by lia.
      change (2 ^ (54 - 1)) with 9007199254740992 in Bq.
      change (2 ^ 54) with 18014398509481984 in Bq. lia. }
  change (2 ^ 52) with 4503599627370496.
  fold Q in HW. clearbody W. clearbody P.
  destruct HW as [->| ->]; split; try lia; nia.
Qed.


Lemma of_Z_0 : of_Z 0 = S754_zero false.
Proof. reflexivity. Qed.

(** A power of two above [b] has an exponent above that of [b]. *)
Lemma pow2_gt (a b : Z) : 0 <= b -> 2 ^ b < 2 ^ a -> b < a.
Proof.
  intros Hb H. destruct (Z_lt_le_dec b a); [assumption|].
  assert (2 ^ a <= 2 ^ b) by (apply Z.pow_le_mono_r; lia). lia.
Qed.

(** [Math.floor(n / k)] is the integer quotient. *)
Lemma floor_div (n k : Z) :
  0 <= n < 2 ^ 51 -> 0 < k < 2 ^ 53 ->
  floor (div (of_Z n) (of_Z k)) = of_Z (n / k).
Proof.
  intros Hn Hk. change (2 ^ 51) with 2251799813685248 in Hn.
  destruct (Z.eq_dec n 0) as [->|Hn0].
  { rewrite Z.div_0_l by lia. rewrite of_Z_0.
    destruct (of_Z_pos k Hk) as (mk & dk & -> & _). reflexivity. }
  destruct (div_grid n k) as (m' & e' & e0 & W & -> & Hd & He & He0 & HW & HWb & Hlo & Hhi);
    [change (2 ^ 53) with 9007199254740992; lia | assumption |].
  change (2 ^ 52) with 4503599627370496 in HWb.
  change (2 ^ 53) with 9007199254740992 in *.
  set (P := 2 ^ (- e0)) in *.
  assert (HP : 2 * k < P) by nia.
  assert (He0' : e0 <= -2).
  { assert (1 < - e0); [|lia]. apply pow2_gt; [lia|]. fold P. simpl. lia. }
  unfold floor. destruct (Z.leb_spec 0 e'); [lia|].
  (* the mantissa over 2^-e' is W over P *)
  assert (Hfl : Z.pos m' / 2 ^ (- e') = W / P).
  { rewrite HW. unfold P. replace (- e0) with (- e' + (e' - e0)) by lia.
    rewrite pow2_split by lia.
    rewrite Z.div_mul_cancel_r; [reflexivity | |];
      apply Z.neq_sym, Z.lt_neq, pow2_pos; lia. }
  rewrite Hfl.
  assert (Hq : W / P = n / k).
  { pose proof (Z.mul_div_le n k ltac:(lia)) as Q1.
    pose proof (Z.mul_succ_div_gt n k ltac:(lia)) as Q2.
    set (Qi := n / k) in *.
    symmetry. apply Z.div_unique with (r := W - P * Qi); [|lia].
    left. split.
    - (* Qi P <= W *)
      destruct (Z_le_gt_dec (P * Qi) W); [lia|]. exfalso.
      assert ((W + 1) * k <= P * Qi * k) by nia.
      assert (k * Qi * P <= n * P) by nia. nia.
    - (* W < (Qi + 1) P *)
      destruct (Z_lt_le_dec W (P * Qi + P)); [lia|]. exfalso.
      assert ((P * Qi + P - 1) * k <= (W - 1) * k) by nia.
      assert ((n + 1) * P <= k * (Qi + 1) * P) by nia. nia. }
  rewrite Hq. destruct (Z.eqb_spec (n / k) 0) as [->|]; reflexivity.
Qed.

(** Normalizing an integer written with trailing zero bits. *)
Lemma normalize_shifted (r j : Z) :
  0 < r < 2 ^ 53 -> 0 <= j <= 1021 ->
  binary_normalize prec emax (r * 2 ^ j) (- j) false = of_Z r.
Proof.
  intros Hr Hj.
  destruct (of_Z_pos r Hr) as (m1 & d & -> & Hd1 & Hd & Hrb & Hm1).
  assert (Hj2 : 0 < 2 ^ j) by (apply pow2_pos; lia).
  destruct (r * 2 ^ j) as [|p|p] eqn:Ep; try nia.
  unfold binary_normalize, binary_round.
  assert (Hdp : Z.pos (digits2_pos p) = d + j).
  { apply digits2_pos_unique. rewrite <- Ep.
    replace (d + j - 1) with (d - 1 + j) by lia. rewrite !pow2_split by lia.
    split; [apply Z.mul_le_mono_nonneg_r; lia | apply Z.mul_lt_mono_pos_r; lia]. }
  rewrite Hdp. replace (d + j + - j) with d by lia. rewrite fexp_normal by lia.
  unfold shl_align.
  destruct (d - 53 - - j) as [|t|t] eqn:Et.
  - (* exactly 53 digits *)
    rewrite binary_round_aux_canonical by (rewrite ?Hdp; lia).
    f_equal; [|lia]. apply Pos2Z.inj. rewrite Hm1, <- Ep. do 2 f_equal. lia.
  - (* more than 53 digits: the zero bits are shifted out *)
    destruct (binary_round_aux_spec false p (- j)) as (m' & e' & -> & Hd' & He' & Hq);
      rewrite ?Hdp; try lia.
    rewrite Hdp in He', Hq.
    set (s := d + j - 53) in *.
    assert (Hs : 0 < 2 ^ s) by (apply pow2_pos; unfold s; lia).
    assert (Hdiv : Z.pos p = Z.pos m1 * 2 ^ s).
    { rewrite <- Ep, Hm1, <- Z.mul_assoc, <- pow2_split by (unfold s; lia).
      do 2 f_equal. unfold s. lia. }
    assert (Hq0 : Z.pos p / 2 ^ s = Z.pos m1) by (rewrite Hdiv, Z.div_mul by lia; reflexivity).
    assert (Hmod : Z.pos p mod 2 ^ s = 0) by (rewrite Hdiv; apply Z.mod_mul; lia).
    destruct Hq as [Hq|[Hne _]]; [|contradiction].
    rewrite Hq0 in Hq.
    pose proof (digits2_pos_bounds m') as B'. rewrite Hd' in B'.
    pose proof (digits2_pos_bounds m1) as B1. rewrite Hd1 in B1.
    simpl in B', B1.
    assert (He : e' = - j + s).
    { destruct (Z.eq_dec e' (- j + s)); [assumption|].
      assert (2 ^ 1 <= 2 ^ (e' - (- j + s))) by (apply Z.pow_le_mono_r; lia).
      simpl in *. nia. }
    rewrite He, Z.sub_diag, Z.mul_1_r in Hq. apply Pos2Z.inj in Hq. subst m'.
    f_equal. unfold s. lia.
  - (* fewer: zero bits are added *)
    rewrite binary_round_aux_canonical.
    + f_equal. apply Pos2Z.inj. unfold shift_pos. rewrite iter_xO, Hm1, <- Ep.
      rewrite <- Z.mul_assoc, <- pow2_split by lia. do 2 f_equal. lia.
    + apply digits2_pos_unique. unfold shift_pos. rewrite iter_xO, <- Ep.
      rewrite <- Z.mul_assoc, <- pow2_split by lia.
      replace (j + Z.pos t) with (53 - d) by lia.
      change (53 - 1) with 52.
      assert (A1 : 2 ^ 52 = 2 ^ (d - 1) * 2 ^ (53 - d))
        by (rewrite <- pow2_split by lia; f_equal; lia).
      assert (A2 : 2 ^ 53 = 2 ^ d * 2 ^ (53 - d))
        by (rewrite <- pow2_split by lia; f_equal; lia).
      assert (0 < 2 ^ (53 - d)) by (apply pow2_pos; lia).
      rewrite A1, A2.
      split; [apply Z.mul_le_mono_nonneg_r; lia | apply Z.mul_lt_mono_pos_r; lia].
    + lia.
Qed.

(** [n % k] is the integer remainder. *)
Lemma rem_exact (n k : Z) :
  0 <= n < 2 ^ 53 -> 0 < k < 2 ^ 53 ->
  rem (of_Z n) (of_Z k) = of_Z (n mod k).
Proof.
  intros Hn Hk.
  destruct (Z.eq_dec n 0) as [->|Hn0].
  { rewrite Z.mod_0_l by lia. rewrite of_Z_0.
    destruct (of_Z_pos k Hk) as (mk & dk & -> & _). reflexivity. }
  destruct (of_Z_pos n ltac:(lia)) as (mn & dn & -> & Hdn & Hdnr & Hnb & Hmn).
  destruct (of_Z_pos k Hk) as (mk & dk & E & Hdk & Hdkr & Hkb & Hmk).
  rewrite E. unfold rem.
  set (e := Z.min (dn - 53) (dk - 53)).
  assert (He : - 52 <= e <= 0) by (unfold e; lia).
  assert (HN : Z.pos mn * 2 ^ (dn - 53 - e) = n * 2 ^ (- e)).
  { rewrite Hmn, <- Z.mul_assoc, <- pow2_split by lia. do 2 f_equal. lia. }
  assert (HD : Z.pos mk * 2 ^ (dk - 53 - e) = k * 2 ^ (- e)).
  { rewrite Hmk, <- Z.mul_assoc, <- pow2_split by lia. do 2 f_equal. lia. }
  rewrite HN, HD.
  assert (HP : 0 < 2 ^ (- e)) by (apply pow2_pos; lia).
  rewrite Z.mul_mod_distr_r by lia.
  pose proof (Z.mod_pos_bound n k ltac:(lia)) as Hm.
  destruct (Z.eqb_spec (n mod k * 2 ^ (- e)) 0) as [Hz|Hz].
  - assert (n mod k = 0) as -> by nia. reflexivity.
  - replace e with (- - e) at 2 by lia.
    apply normalize_shifted; [|lia].
    assert (n mod k <> 0) by (intros Hc; rewrite Hc in Hz; lia). lia.
Qed.

(** Rounding an integer down changes nothing. *)
Lemma floor_of_Z (n : Z) : 0 <= n < 2 ^ 53 -> floor (of_Z n) = of_Z n.
Proof.
  intros Hn. destruct (Z.eq_dec n 0) as [->|Hn0]; [reflexivity|].
  destruct (of_Z_pos n ltac:(lia)) as (m & d & E & Hdm & Hd & Hb & Hm).
  rewrite E. unfold floor.
  destruct (Z.leb_spec 0 (d - 53)); [reflexivity|].
  replace (- (d - 53)) with (53 - d) by lia.
  assert (0 < 2 ^ (53 - d)) by (apply pow2_pos; lia).
  rewrite Hm, Z.div_mul by lia.
  destruct (Z.eqb_spec n 0); [lia|]. exact E.
Qed.

Lemma integer_of_Z (n : Z) : 0 <= n < 2 ^ 53 -> integer (of_Z n) = Some n.
Proof.
  intros Hn. destruct (Z.eq_dec n 0) as [->|Hn0]; [reflexivity|].
  destruct (of_Z_pos n ltac:(lia)) as (m & d & E & Hdm & Hd & Hb & Hm).
  rewrite E. unfold integer.
  destruct (Z.leb_spec 0 (d - 53)).
  - replace (d - 53) with 0 by lia. rewrite Hm. replace (53 - d) with 0 by lia.
    f_equal. simpl. lia.
  - replace (- (d - 53)) with (53 - d) by lia.
    assert (0 < 2 ^ (53 - d)) by (apply pow2_pos; lia).
    rewrite Hm, Z.mod_mul, Z.div_mul by lia. reflexivity.
Qed.

(** An integer below 2^53 prints as its decimal digits. *)
Lemma toString_of_Z (n : Z) : 0 <= n < 2 ^ 53 -> toString (of_Z n) = Some (decimal n).
Proof.
  intros Hn. pose proof (integer_of_Z n Hn) as Hi.
  unfold toString. rewrite Hi.
  destruct (Z.ltb_spec (Z.abs n) (10 ^ 21)) as [|Hge].
  - destruct (of_Z n); try reflexivity; discriminate.
  - change (2 ^ 53) with 9007199254740992 in Hn.
    change (10 ^ 21) with 1000000000000000000000 in Hge. lia.
Qed.

End NumericFacts.

(** ** Facts: durations and distances as the pages print them *)

Module CardFacts.
Import Number Numeric NumberFacts CompareFacts DisplayFacts NumericFacts.
Import ActivityCard.

Lemma gtb_of_Z (n : Z) : 0 <= n < 2 ^ 53 -> gtb (of_Z n) (of_Z 0) = (0 <? n).
Proof. intros Hn. unfold gtb. apply (ltb_of_Z 0 n); [simpl; lia | assumption]. Qed.

Lemma geb_of_Z (a b : Z) :
  0 <= a < 2 ^ 53 -> 0 <= b < 2 ^ 53 -> geb (of_Z a) (of_Z b) = (b <=? a).
Proof.
  intros Ha Hb.
  destruct (of_Z_valid a Ha) as (Va & Fa & Sa), (of_Z_valid b Hb) as (Vb & Fb & Sb).
  unfold geb, SFleb. rewrite compare_scaled, Sa, Sb by assumption.
  assert (0 < 2 ^ 1074) by (apply pow2_pos; lia).
  destruct (Z.compare_spec (b * 2 ^ 1074) (a * 2 ^ 1074)), (Z.leb_spec b a);
    try reflexivity; nia.
Qed.

(** [Math.round] of an integer changes nothing. *)
Lemma round_of_Z (n : Z) : 0 <= n < 2 ^ 53 -> round (of_Z n) = of_Z n.
Proof.
  intros Hn. destruct (Z.eq_dec n 0) as [->|Hn0]; [reflexivity|].
  destruct (of_Z_pos n ltac:(lia)) as (m & d & E & Hdm & Hd & Hb & Hm).
  rewrite E. unfold round.
  destruct (Z.leb_spec 0 (d - 53)); [reflexivity|].
  replace (- (d - 53)) with (53 - d) by lia.
  replace (1 - (d - 53)) with (53 - d + 1) by lia.
  rewrite pow2_succ by lia.
  assert (HP : 0 < 2 ^ (53 - d)) by (apply pow2_pos; lia).
  assert (Hq : (2 * Z.pos m + 2 ^ (53 - d)) / (2 * 2 ^ (53 - d)) = n).
  { rewrite Hm. symmetry. apply Z.div_unique with (r := 2 ^ (53 - d)); lia. }
  rewrite Hq. destruct (Z.eqb_spec n 0); [lia|]. exact E.
Qed.

(** *** Durations *)

Definition two_digits (n : Z) : string := padStart 2 "0" (decimal n).

(** A duration of [n] whole seconds on the clock: [h:mm:ss] from one hour
    on, [m:ss] below. *)
Definition clock (n : Z) : string :=
  let h := n / 3600 in
  let m := n mod 3600 / 60 in
  let s := n mod 60 in
  if 0 <? h then decimal h +:+ ":" +:+ two_digits m +:+ ":" +:+ two_digits s
  else decimal m +:+ ":" +:+ two_digits s.

Lemma small (n k : Z) : 0 < k <= 3600 -> 0 <= n mod k < 2 ^ 51 /\ 0 <= n mod k < 2 ^ 53.
Proof.
  intros Hk. pose proof (Z.mod_pos_bound n k ltac:(lia)).
  change (2 ^ 51) with 2251799813685248. change (2 ^ 53) with 9007199254740992. lia.
Qed.

Lemma below_53 (n : Z) : 0 <= n < 2 ^ 51 -> 0 <= n < 2 ^ 53.
Proof.
  change (2 ^ 51) with 2251799813685248. change (2 ^ 53) with 9007199254740992. lia.
Qed.

Lemma quotient_53 (n k : Z) : 0 <= n < 2 ^ 51 -> 0 < k -> 0 <= n / k < 2 ^ 53.
Proof.
  intros Hn Hk. apply below_53. split; [apply Z.div_pos; lia|].
  apply Z.le_lt_trans with n; [|lia]. apply Z.div_le_upper_bound; nia.
Qed.

(** For every whole number of seconds below 2^51 the card prints the
    duration as the clock shows it: the binary64 divisions and remainders
    of [formatDuration] come out as the integer ones, the hours appear only
    from one hour on, and minutes and seconds are padded to two digits. *)
Theorem formatDuration_clock (n : Z) :
  0 <= n < 2 ^ 51 -> formatDuration (of_Z n) = Some (clock n).
Proof.
  intros Hn. unfold formatDuration, clock.
  rewrite !rem_exact by (apply below_53, Hn || (simpl; lia)).
  rewrite !floor_div by (assumption || apply small || simpl; lia).
  rewrite floor_of_Z by (apply small; lia).
  rewrite gtb_of_Z by (apply quotient_53; lia).
  rewrite !toString_of_Z by
    (apply quotient_53; (assumption || apply small || lia); lia) || (apply small; lia).
  destruct (0 <? n / 3600); reflexivity.
Qed.


Lemma formatDuration_clock_witness : formatDuration (of_Z 3725) = Some "1:02:05".
Proof. apply (formatDuration_clock 3725). vm_compute. split; congruence. Defined.

(** *** Distances *)

(** [(d / k).toFixed(2)] for integers: the hundredths nearest to a mantissa
    [W] on a grid of step [1 / P] that is finer than [1 / 2k], within one
    step of the exact quotient. *)
Lemma toFixed_div (d k : Z) :
  0 < d < 2 ^ 51 -> 0 < k < 2 ^ 53 ->
  exists W P : Z,
    2 * k < P /\ ((W - 1) * k <= d * P < (W + 1) * k) /\
    toFixed 2 (div (of_Z d) (of_Z k)) = Some (fixed 2 ((200 * W + P) / (2 * P))).
Proof.
  intros Hd Hk. change (2 ^ 51) with 2251799813685248 in Hd.
  destruct (div_grid d k) as (m' & e' & e0 & W & -> & Hdm & He & He0 & HW & HWb & Hlo & Hhi);
    [change (2 ^ 53) with 9007199254740992; lia | assumption |].
  change (2 ^ 52) with 4503599627370496 in HWb.
  change (2 ^ 53) with 9007199254740992 in *.
  set (P := 2 ^ (- e0)) in *.
  assert (HP : 2 * k < P) by nia.
  assert (He0' : e0 <= -2).
  { assert (1 < - e0); [|lia]. apply pow2_gt; [lia|]. fold P. simpl. lia. }
  exists W, P. split; [assumption|]. split; [lia|].
  unfold toFixed. destruct (Z.leb_spec 0 e'); [lia|].
  set (P' := 2 ^ (- e')) in *.
  set (t := 2 ^ (e' - e0)) in *.
  assert (Ht : 0 < t) by (apply pow2_pos; lia).
  assert (HP' : 0 < P') by (apply pow2_pos; lia).
  assert (EP : P = P' * t).
  { unfold P, P', t. rewrite <- pow2_split by lia. f_equal. lia. }
  assert (Hwhole : Z.pos m' / P' < 10 ^ 21).
  { apply Z.div_lt_upper_bound; [assumption|].
    change (10 ^ 21) with 1000000000000000000000. nia. }
  destruct (Z.leb_spec (10 ^ 21) (Z.pos m' / P')); [lia|].
  change (10 ^ Z.of_nat 2) with 100.
  replace ((2 * Z.pos m' * 100 + P') / (2 * P')) with ((200 * W + P) / (2 * P)).
  { reflexivity. }
  rewrite HW, EP.
  replace (200 * (Z.pos m' * t) + P' * t) with ((2 * Z.pos m' * 100 + P') * t) by ring.
  replace (2 * (P' * t)) with (2 * P' * t) by ring.
  apply Z.div_mul_cancel_r; lia.
Qed.

(** The hundredths of a kilometre shown for [d] metres. *)
Lemma hundredths (d W P : Z) :
  0 < d -> 2000 < P -> (W - 1) * 1000 <= d * P < (W + 1) * 1000 ->
  let N := (200 * W + P) / (2 * P) in
  d / 10 <= N <= d / 10 + 1 /\
  (d mod 10 < 5 -> N = d / 10) /\ (5 < d mod 10 -> N = d / 10 + 1).
Proof.
  intros Hd HP [H1 H2] N.
  pose proof (Z.div_mod d 10 ltac:(lia)) as E.
  pose proof (Z.mod_pos_bound d 10 ltac:(lia)) as Hj.
  set (a := d / 10) in *. set (j := d mod 10) in *.
  assert (EX : d * P = 10 * (a * P) + j * P) by (rewrite E; ring).
  rewrite EX in H1, H2. clear EX.
  set (AP := a * P) in *.
  assert (Hdiv : forall c, 0 <= 200 * W + P - 2 * AP - 2 * c * P < 2 * P -> N = a + c).
  { intros c Hc. unfold N. symmetry.
    apply Z.div_unique with (r := 200 * W + P - 2 * AP - 2 * c * P); [left; exact Hc|].
    unfold AP. ring. }
  assert (j = 0 \/ j = 1 \/ j = 2 \/ j = 3 \/ j = 4 \/ j = 5 \/ j = 6 \/ j = 7 \/ j = 8 \/ j = 9)
    as Hcases by lia.
  clearbody AP. clearbody j. clear E.
  assert (Hlow : j < 5 -> N = a).
  { intros Hlt. rewrite (Hdiv 0); [lia|]. lia. }
  assert (Hhigh : 5 < j -> N = a + 1).
  { intros Hgt. rewrite (Hdiv 1); [lia|]. lia. }
  split; [|split; assumption].
  destruct (Z.lt_trichotomy j 5) as [Hlt|[Heq|Hgt]].
  - rewrite Hlow by assumption. lia.
  - destruct (Z_lt_le_dec (200 * W + P) (2 * AP + 2 * P)).
    + rewrite (Hdiv 0) by lia. lia.
    + rewrite (Hdiv 1) by lia. lia.
  - rewrite Hhigh by assumption. lia.
Qed.

(** For every whole number of metres below 2^51 the card shows: a dash
    for 0 (as for a missing distance); the metres themselves below 1000;
    from 1000 on the kilometres with two decimals, which are the metres
    divided by ten and rounded to the nearest whole, except that a final
    digit 5 may go either way (it follows the binary64 quotient, not the
    decimal one). *)
Theorem formatDistance_whole (d : Z) :
  0 <= d < 2 ^ 51 ->
  formatDistance None = Some "-" /\
  (d = 0 -> formatDistance (Some (of_Z d)) = Some "-") /\
  (0 < d < 1000 -> formatDistance (Some (of_Z d)) = Some (decimal d +:+ " m")) /\
  (1000 <= d ->
   exists N, formatDistance (Some (of_Z d)) = Some (fixed 2 N +:+ " km") /\
     d / 10 <= N <= d / 10 + 1 /\
     (d mod 10 < 5 -> N = d / 10) /\ (5 < d mod 10 -> N = d / 10 + 1)).
Proof.
  intros Hd. pose proof (below_53 d Hd) as Hd53.
  split; [reflexivity|]. split; [intros ->; reflexivity|].
  assert (H1000 : 0 <= 1000 < 2 ^ 53) by (simpl; lia).
  split.
  - intros Hr. unfold formatDistance.
    destruct (ZonesFacts.positive_number d ltac:(lia)) as [-> _]. simpl negb. cbv iota.
    rewrite geb_of_Z by assumption.
    destruct (Z.leb_spec 1000 d); [lia|].
    rewrite round_of_Z, toString_of_Z by assumption. reflexivity.
  - intros Hr. unfold formatDistance.
    destruct (ZonesFacts.positive_number d ltac:(lia)) as [-> _]. simpl negb. cbv iota.
    rewrite geb_of_Z by assumption.
    destruct (Z.leb_spec 1000 d); [|lia].
    destruct (toFixed_div d 1000) as (W & P & HP & HW & ->); [lia | simpl; lia |].
    eexists. split; [reflexivity|].
    apply hundredths; lia.
Qed.

Lemma formatDistance_whole_witness :
  formatDistance (Some (of_Z 12346)) = Some "12.35 km" /\
  formatDistance (Some (of_Z 850)) = Some "850 m".
Proof.
  split.
  - destruct (proj2 (proj2 (proj2 (formatDistance_whole 12346
        ltac:(vm_compute; split; congruence)))) ltac:(lia))
      as (N & -> & _ & _ & HN).
    rewrite HN by (vm_compute; reflexivity). reflexivity.
  - apply (proj1 (proj2 (proj2 (formatDistance_whole 850
        ltac:(vm_compute; split; congruence))))). lia.
Defined.

(** A final 5 that goes down: 1005 metres are shown as 1.00 km. *)
Lemma formatDistance_tie : formatDistance (Some (of_Z 1005)) = Some "1.00 km".
Proof. vm_compute. reflexivity. Qed.

End CardFacts.

(** ** Facts: the cells of the activity detail page *)

Module DetailFacts.
Import Number Numeric NumberFacts CompareFacts DisplayFacts NumericFacts CardFacts.
Import ActivityDetail.

(** The duration cell: a dash for no duration or 0 seconds; otherwise the
    hours, also when there are none, and the minutes with two digits. The
    seconds are not shown: an activity of less than a minute reads 0:00. *)
Theorem duration_whole (n : Z) :
  0 <= n < 2 ^ 51 ->
  duration None = Some "-" /\
  duration (Some (of_Z n)) =
    Some (if n =? 0 then "-"
          else decimal (n / 3600) +:+ ":" +:+ two_digits (n mod 3600 / 60)).
Proof.
  intros Hn. split; [reflexivity|].
  destruct (Z.eqb_spec n 0) as [->|Hn0]; [reflexivity|].
  unfold duration.
  destruct (ZonesFacts.positive_number n ltac:(pose proof (below_53 n Hn); lia)) as [-> _].
  simpl negb. cbv iota.
  rewrite !rem_exact by (apply below_53, Hn || (simpl; lia)).
  rewrite !floor_div by (assumption || apply small || simpl; lia).
  rewrite !toString_of_Z by
    (apply quotient_53; (assumption || apply small || lia); lia).
  reflexivity.
Qed.

Lemma duration_whole_witness :
  duration (Some (of_Z 59)) = Some "0:00" /\ duration (Some (of_Z 3725)) = Some "1:02".
Proof.
  split.
  - apply (proj2 (duration_whole 59 ltac:(vm_compute; split; congruence))).
  - apply (proj2 (duration_whole 3725 ltac:(vm_compute; split; congruence))).
Defined.

(** The distance cell: a dash for no distance or 0 metres; otherwise always
    kilometres with two decimals, also below 1000 metres, where the card
    shows metres. *)
Theorem distance_whole (d : Z) :
  0 < d < 2 ^ 51 ->
  distance None = Some "-" /\ distance (Some (of_Z 0)) = Some "-" /\
  exists N, distance (Some (of_Z d)) = Some (fixed 2 N +:+ " km") /\
    d / 10 <= N <= d / 10 + 1 /\
    (d mod 10 < 5 -> N = d / 10) /\ (5 < d mod 10 -> N = d / 10 + 1).
Proof.
  intros Hd. split; [reflexivity|]. split; [reflexivity|].
  unfold distance.
  destruct (ZonesFacts.positive_number d ltac:(pose proof (below_53 d); lia)) as [-> _].
  simpl negb. cbv iota.
  destruct (toFixed_div d 1000) as (W & P & HP & HW & ->); [lia | simpl; lia |].
  eexists. split; [reflexivity|].
  apply hundredths; lia.
Qed.

Lemma distance_whole_witness : distance (Some (of_Z 850)) = Some "0.85 km".
Proof.
  destruct (proj2 (proj2 (distance_whole 850 ltac:(vm_compute; split; [reflexivity|congruence]))))
    as (N & -> & _ & HN & _).
  rewrite HN by (vm_compute; reflexivity). reflexivity.
Defined.

End DetailFacts.


(** ** The streaming chat reader on a well-formed event stream *)

Module StreamFacts.
Import Text ChatFacts.

(** A byte that a JSON string holds as it is written: Basic Latin, no
    control character, neither quotation mark nor backslash. *)
Definition plain (b : byte) : bool :=
  let c := Z.of_N (Byte.to_N b) in
  (0x20 <=? c) && (c <=? 0x7F) && negb (c =? JSON.quote) && negb (c =? JSON.backslash).

(** The lines of an event stream: an event with its text, the sentinel, a
    blank line. *)
Inductive frame :=
| Event (t : list byte)
| Done
| Blank.

Definition content (f : frame) : list byte :=
  match f with
  | Event t => body "data: {'text':'" ++ t ++ body "'}"
  | Done => body "data: [DONE]"
  | Blank => []
  end.

(** Lines end with a line feed, or with a carriage return and a line
    feed. *)
Definition ending (crlf : bool) : list byte := if crlf then [x0d] else [].

(** The line without its line feed. *)
Definition line_of (crlf : bool) (f : frame) : list byte := content f ++ ending crlf.

Definition written (crlf : bool) (f : frame) : list byte := line_of crlf f ++ [x0a].

(** The body: every chunk holds whole lines. *)
Definition streamed (crlf : bool) (chunks : list (list frame)) (fails : bool) : Stream :=
  {| stream_chunks := map (λ fs, concat (map (written crlf) fs)) chunks;
     stream_fails := fails |}.

Definition well_formed (f : frame) : bool :=
  match f with
  | Event t => forallb plain t
  | _ => true
  end.

(** The text an event is to deliver: an empty one delivers nothing. *)
Definition text_of_frame (f : frame) : list JSON.value :=
  match f with
  | Event (b :: t) => [JSON.Str (Utf8.bytes_of (b :: t))]
  | _ => []
  end.

Definition ascii_text (s : text) : Prop := Forall (λ c, 0 <= c <= 0x7F) s.

Lemma process_ascii s :
  ascii_text s -> Utf8.process Utf8.initial s = (Utf8.initial, s).
Proof.
  induction 1 as [|c s Hc _ IH]; [reflexivity|].
  simpl. change (Utf8.handler Utf8.initial c) with (Utf8.lead c).
  rewrite Utf8Facts.lead_ascii by assumption. rewrite IH. reflexivity.
Qed.

Lemma units_ascii s : ascii_text s -> flat_map units s = s.
Proof.
  induction 1 as [|c s Hc _ IH]; [reflexivity|].
  simpl. rewrite IH. unfold units.
  destruct (Z.ltb_spec c 0x10000); [reflexivity|lia].
Qed.

Lemma decode_ascii value :
  ascii_text (Utf8.bytes_of value) -> Utf8.decode value = Utf8.bytes_of value.
Proof.
  intros H. unfold Utf8.decode. rewrite (process_ascii _ H).
  change (Utf8.flush Utf8.initial) with (@nil Z). rewrite app_nil_r.
  assert (Hs : Utf8.strip_bom (Utf8.bytes_of value) = Utf8.bytes_of value).
  { destruct H as [|c s Hc _]; [reflexivity|]. simpl.
    destruct (Z.eqb_spec c 0xFEFF); [lia|reflexivity]. }
  rewrite Hs. apply units_ascii, H.
Qed.

Lemma split_whole sep s : Forall (λ c, c <> sep) s -> split sep s = [s].
Proof.
  induction 1 as [|c s Hc _ IH]; [reflexivity|].
  simpl. destruct (Z.eqb_spec c sep); [contradiction|]. rewrite IH. reflexivity.
Qed.

Lemma plain_range b :
  plain b = true ->
  let c := Z.of_N (Byte.to_N b) in 0x20 <= c <= 0x7F /\ c <> JSON.quote /\ c <> JSON.backslash.
Proof.
  unfold plain. intros H. cbv zeta.
  apply andb_true_iff in H as [[[H1 H2]%andb_true_iff H3]%andb_true_iff H4].
  apply negb_true_iff in H3, H4. lia.
Qed.

Lemma literal_chars (l : text) :
  forallb (λ c, (0 <=? c) && (c <=? 0x7F) && negb (c =? 10)) l = true ->
  Forall (λ c, 0 <= c <= 0x7F /\ c <> 10) l.
Proof.
  induction l as [|c l IH]; simpl; intros H; constructor.
  - apply andb_true_iff in H as [[[H1 H2]%andb_true_iff H3]%andb_true_iff _].
    apply negb_true_iff in H3. lia.
  - apply IH. apply andb_true_iff in H as [_ H]. exact H.
Qed.

Lemma chars_ascii (l : text) :
  Forall (λ c, 0 <= c <= 0x7F /\ c <> 10) l -> ascii_text l.
Proof. induction 1 as [|c l [Hc _] _ IH]; constructor; assumption. Qed.

Lemma chars_no_line_feed (l : text) :
  Forall (λ c, 0 <= c <= 0x7F /\ c <> 10) l -> Forall (λ c, c <> 10) l.
Proof. induction 1 as [|c l [_ Hc] _ IH]; constructor; assumption. Qed.

(** A line of the stream is Basic Latin and holds no line feed. *)
Lemma content_chars crlf f :
  well_formed f = true ->
  Forall (λ c, 0 <= c <= 0x7F /\ c <> 10) (Utf8.bytes_of (line_of crlf f)).
Proof.
  intros H. unfold line_of, Utf8.bytes_of. rewrite map_app.
  apply Forall_app_2; [|destruct crlf; apply literal_chars; reflexivity].
  fold (Utf8.bytes_of (content f)).
  destruct f as [t| |]; unfold content.
  - unfold Utf8.bytes_of. rewrite !map_app. repeat apply Forall_app_2.
    + apply literal_chars. reflexivity.
    + simpl in H. induction t as [|b t IH]; [constructor|].
      simpl in H. apply andb_true_iff in H as [Hb Ht].
      apply plain_range in Hb. simpl in Hb. constructor; [lia | apply IH, Ht].
    + apply literal_chars. reflexivity.
  - apply literal_chars. reflexivity.
  - constructor.
Qed.

Lemma written_chars crlf fs :
  forallb well_formed fs = true ->
  ascii_text (Utf8.bytes_of (concat (map (written crlf) fs))).
Proof.
  induction fs as [|f fs IH]; intros H; [constructor|].
  simpl in H. apply andb_true_iff in H as [Hf Hfs].
  simpl. unfold ascii_text, Utf8.bytes_of in *. rewrite map_app.
  apply Forall_app_2; [|exact (IH Hfs)].
  unfold written. rewrite map_app. apply Forall_app_2.
  - exact (chars_ascii _ (content_chars crlf f Hf)).
  - repeat constructor; simpl; lia.
Qed.

(** The lines of a chunk of whole frames: one per frame, and the empty
    piece after the last line feed. *)
Lemma split_written crlf fs :
  forallb well_formed fs = true ->
  split 10 (Utf8.bytes_of (concat (map (written crlf) fs)))
  = map (λ f, Utf8.bytes_of (line_of crlf f)) fs ++ [[]].
Proof.
  induction fs as [|f fs IH]; intros H; [reflexivity|].
  simpl in H. apply andb_true_iff in H as [Hf Hfs].
  simpl. unfold written, Utf8.bytes_of in *. rewrite !map_app, <- app_assoc. simpl.
  rewrite TextFacts.split_app, (IH Hfs), split_whole; [reflexivity|].
  exact (chars_no_line_feed _ (content_chars crlf f Hf)).
Qed.

(** A string of plain characters is read as it is written. *)
Lemma string_body_plain t rest :
  forallb plain t = true ->
  JSON.string_body (Utf8.bytes_of t ++ JSON.quote :: rest) = Some (Utf8.bytes_of t, rest).
Proof.
  induction t as [|b t IH]; intros H.
  - reflexivity.
  - simpl in H. apply andb_true_iff in H as [Hb Ht]. apply plain_range in Hb.
    cbv zeta in Hb. destruct Hb as (Hr & Hq & Hs).
    change (Utf8.bytes_of (b :: t)) with (Z.of_N (Byte.to_N b) :: Utf8.bytes_of t).
    set (c := Z.of_N (Byte.to_N b)) in *.
    change ((c :: Utf8.bytes_of t) ++ JSON.quote :: rest)
      with (c :: (Utf8.bytes_of t ++ JSON.quote :: rest)).
    cbn [JSON.string_body].
    destruct (Z.eqb_spec c JSON.quote); [contradiction|].
    destruct (Z.eqb_spec c JSON.backslash); [contradiction|].
    destruct (Z.ltb_spec c 0x20); [lia|].
    rewrite (IH Ht). reflexivity.
Qed.

(** What [onChunk] is called with on one line. *)
Lemma calls_of_line_eq line :
  calls_of_line line =
  if startsWith line (lit "data: ") && negb (eqb line (lit "data: [DONE]")) then
    match JSON.parse (slice 6 line) with
    | Some data =>
        match JSON.text_of data with
        | Some (Some t) => if JSON.truthy t then [t] else []
        | _ => []
        end
    | None => []
    end
  else [].
Proof.
  unfold calls_of_line, Api.on_line, record. run.
  destruct (_ && _); [|reflexivity].
  destruct (JSON.parse _) as [data|]; simpl; [|reflexivity].
  destruct (JSON.text_of data) as [[t|]|]; simpl; try reflexivity.
  destruct (JSON.truthy t); reflexivity.
Qed.

(** The JSON text of an event, whatever the fuel above three and whatever
    follows. *)
Lemma parse_value_event (n : nat) (T rest : text) :
  JSON.string_body (T ++ JSON.quote :: 125 :: rest) = Some (T, 125 :: rest) ->
  JSON.parse_value (S (S (S n))) (JSON.quoted "{'text':'" ++ T ++ JSON.quoted "'}" ++ rest)
  = Some (JSON.Object [(lit "text", JSON.Str T)], rest).
Proof.
  intros H.
  change (JSON.quoted "{'text':'") with [123; 34; 116; 101; 120; 116; 34; 58; 34].
  change (JSON.quoted "'}" ++ rest) with (JSON.quote :: 125 :: rest).
  change (lit "text") with [116; 101; 120; 116].
  simpl. rewrite H. reflexivity.
Qed.

(** A carriage return after the JSON text is white space to [JSON.parse]. *)
Lemma parse_event (crlf : bool) (t : list byte) :
  forallb plain t = true ->
  JSON.parse (JSON.quoted "{'text':'" ++ Utf8.bytes_of t ++ JSON.quoted "'}"
              ++ Utf8.bytes_of (ending crlf))
  = Some (JSON.Object [(lit "text", JSON.Str (Utf8.bytes_of t))]).
Proof.
  intros H. unfold JSON.parse.
  set (s := JSON.quoted "{'text':'" ++ Utf8.bytes_of t ++ JSON.quoted "'}"
            ++ Utf8.bytes_of (ending crlf)).
  assert (Hfuel : exists n, (2 * length s + 2)%nat = S (S (S n))).
  { exists (2 * length s - 1)%nat. subst s. rewrite length_app. simpl. lia. }
  destruct Hfuel as [n ->]. subst s.
  rewrite parse_value_event.
  - destruct crlf; reflexivity.
  - apply (string_body_plain t (125 :: Utf8.bytes_of (ending crlf)) H).
Qed.

(** The callback of one line of the stream. With a carriage return the
    sentinel is not recognised, but what follows its prefix is no JSON. *)
Lemma calls_of_content (crlf : bool) (f : frame) :
  well_formed f = true ->
  calls_of_line (Utf8.bytes_of (line_of crlf f)) = text_of_frame f.
Proof.
  intros H. rewrite calls_of_line_eq.
  destruct f as [t| |]; [|destruct crlf; vm_compute; reflexivity..].
  unfold line_of, content, Utf8.bytes_of. rewrite !map_app.
  fold (Utf8.bytes_of t). fold (Utf8.bytes_of (ending crlf)).
  change (map _ (body "data: {'text':'")) with (lit "data: " ++ JSON.quoted "{'text':'").
  change (map _ (body "'}")) with (JSON.quoted "'}").
  rewrite <- !app_assoc.
  change (startsWith (lit "data: " ++ _) (lit "data: ")) with true.
  change (slice 6 (lit "data: " ++ ?x)) with x.
  rewrite (parse_event crlf t H).
  assert (Hs : eqb (lit "data: " ++ JSON.quoted "{'text':'" ++ Utf8.bytes_of t
                    ++ JSON.quoted "'}" ++ Utf8.bytes_of (ending crlf))
                 (lit "data: [DONE]") = false).
  { apply bool_decide_eq_false. intros E. discriminate E. }
  rewrite Hs. simpl. unfold eqb.
  destruct t as [|b t]; [reflexivity|].
  rewrite bool_decide_eq_false_2 by discriminate. reflexivity.
Qed.

(** A chunk of whole lines makes the callbacks of its events, in order. *)
Lemma calls_of_frames (crlf : bool) (fs : list frame) :
  forallb well_formed fs = true ->
  calls_of_value (concat (map (written crlf) fs)) = flat_map text_of_frame fs.
Proof.
  intros H. rewrite calls_of_value_eq.
  rewrite decode_ascii by (apply written_chars, H).
  rewrite (split_written crlf fs H), flat_map_app. simpl.
  change (calls_of_line []) with (@nil JSON.value). rewrite !app_nil_r.
  induction fs as [|f fs IH]; [reflexivity|].
  simpl in H. apply andb_true_iff in H as [Hf Hfs].
  simpl. rewrite (calls_of_content crlf f Hf), (IH Hfs). reflexivity.
Qed.

(** The reading loop on a body of whole lines cut between lines. *)
Lemma read_loop_frames (crlf : bool) (chunks : list (list frame)) (fails : bool)
    (w : World) :
  forallb (forallb well_formed) chunks = true ->
  Api.read_loop record (Some (streamed crlf chunks fails)) w
  = (if fails then Rejected ReadFailed else Resolved tt,
     set_received (λ l, l ++ flat_map text_of_frame (concat chunks)) w).
Proof.
  intros H. unfold streamed. rewrite read_loop_record.
  assert (E : flat_map calls_of_value (map (λ fs, concat (map (written crlf) fs)) chunks)
              = flat_map text_of_frame (concat chunks)).
  { induction chunks as [|fs chunks IH]; [reflexivity|].
    simpl in H. apply andb_true_iff in H as [Hfs Hrest].
    simpl. rewrite (calls_of_frames crlf fs Hfs), (IH Hrest), flat_map_app. reflexivity. }
  rewrite E. reflexivity.
Qed.

Section Client.

Variable NEXT_PUBLIC_API_URL : option string.
Variable server : list Request -> Request -> option Response.

(** The server answers the chat request, with whatever status, by a body
    made of whole lines, each an event whose text is written without
    escapes, the sentinel, or a blank line, ending with a line feed or all
    with a carriage return and a line feed, and cut into chunks between
    lines. Then [chatStream] calls back once for every event with a text
    that is not empty, in the order of the stream and with that text, and
    settles as reading the body does. The sentinel makes no call and ends
    nothing: events after it are delivered like those before it. *)
Theorem chatStream_texts (message : string) (history : list (list (string * string)))
    (w : World) (status : Z) (data : Data) (crlf : bool) (chunks : list (list frame))
    (fails : bool) :
  let r := ReaderFacts.stream_request NEXT_PUBLIC_API_URL message history w in
  server (sent w) r
  = Some {| resp_status := status; resp_data := data;
            resp_body := Some (streamed crlf chunks fails) |} ->
  forallb (forallb well_formed) chunks = true ->
  Api.chatStream NEXT_PUBLIC_API_URL server message history record w
  = (if fails then Rejected ReadFailed else Resolved tt,
     set_received (λ l, l ++ flat_map text_of_frame (concat chunks))
       (set_sent (λ l, l ++ [r]) w)).
Proof.
  intros r Hr H. unfold Api.chatStream, Api.fetch, Api.transmit, getItem. run.
  fold (ReaderFacts.stream_request NEXT_PUBLIC_API_URL message history w). fold r.
  rewrite Hr. simpl.
  pose proof (read_loop_frames crlf chunks fails (set_sent (λ l, l ++ [r]) w) H) as E.
  unfold Api.read_loop, streamed in E. simpl in E. exact E.
Qed.

End Client.

Lemma chatStream_texts_witness :
  let chunks := [[Event (body "Hel"); Blank];
                 [Event []; Event (body "lo"); Done; Event (body "!")]] in
  let server := λ (_ : list Request) (_ : Request),
    Some {| resp_status := 500; resp_data := DOther;
            resp_body := Some (streamed true chunks false) |} in
  forallb (forallb well_formed) chunks = true /\
  received (Api.chatStream None server "hi" [] record (fresh ∅)).2
  = [JSON.Str (lit "Hel"); JSON.Str (lit "lo"); JSON.Str (lit "!")].
Proof.
  intros chunks server. split; [reflexivity|].
  rewrite (chatStream_texts None server "hi" [] (fresh ∅) 500 DOther true chunks false);
    reflexivity.
Defined.

End StreamFacts.
